(** * Stop-and-wait file transfer: sender (tx.py) and receiver (rx.py)

    A shallow embedding of the two endpoints of the simulation and the
    properties their specification states about them, followed by further
    properties read off the code.

    - [Py] : the pieces of the Python runtime both programs rely on
      (bytes, slices, [struct], exceptions, the [random] module as an
      interface, datagram sockets with a millisecond clock).
    - [Tx] : tx.py ([make_packet], [wait_for_ack], [send_with_retries],
      [data_for_file], [main]).
    - [Rx] : rx.py (the body of the receive loop and [main]).
    - [Gui] : the file helpers of sim_gui.py ([sha256_of_file],
      [first_diff_offset]).
    - [Wire], [TxTrace], [TxClock] : what travels between the two programs
      and what an observer of the sender's log keeps of it.

    Conventions.  Python integers are [Z]; [bytes] are lists of
    [Byte.byte]; Python floats are primitive floats and are only ever
    compared; time is counted in whole milliseconds.  A raised exception is
    the [Raise] result of the state-and-exception monad [M]; the world the
    exception leaves behind is kept, so that what was logged before a crash
    stays observable. *)

From Stdlib Require Import ZArith List Bool Lia Floats.
From coqutil Require Import Byte Word.LittleEndianList.
From Equations Require Import Equations.
Import ListNotations.
Local Open Scope Z_scope.

Set Implicit Arguments.

(* ===================================================================== *)
(** * The Python runtime                                                  *)
(* ===================================================================== *)

Module Py.

Definition bytes := list byte.

(** The exceptions that can escape the two programs. *)
Inductive exn : Type :=
| ValueError
| StructError
| BlockingIOError
| OverflowError
| MemoryError.

Inductive res (A : Type) : Type :=
| Ok (a : A)
| Raise (e : exn).
Arguments Ok {A} a.
Arguments Raise {A} e.

(** [b.ljust(width, fill)] *)
Definition ljust (width : nat) (fill : byte) (b : bytes) : bytes :=
  b ++ repeat fill (width - length b).

(** [b[lo:hi]] for non-negative indices. *)
Definition slice (lo hi : nat) (b : bytes) : bytes :=
  firstn (hi - lo) (skipn lo b).

(** [b[:n]] for a Python integer [n >= 0]. *)
Definition take (n : Z) (b : bytes) : bytes := firstn (Z.to_nat n) b.

(** [len(b)] as a Python integer. *)
Definition len (b : bytes) : Z := Z.of_nat (length b).

(** [b[i]]: an integer in 0..255.  Every use in the programs is in range. *)
Definition item (i : nat) (b : bytes) : Z := byte.unsigned (nth i b Byte.x00).

(** [bytes([z])] for [z] in 0..255 (callers mask with [& 0xFF] first). *)
Definition byte_of (z : Z) : byte := byte.of_Z z.

(** [struct.pack("<I", n)]: four little-endian bytes, or [struct.error]
    when [n] does not fit an unsigned 32-bit integer. *)
Definition struct_pack_I (n : Z) : res bytes :=
  if (0 <=? n) && (n <? 2 ^ 32) then Ok (le_split 4 n) else Raise StructError.

(** [struct.unpack("<I", b)[0]]: needs exactly four bytes. *)
Definition struct_unpack_I (b : bytes) : res Z :=
  if (length b =? 4)%nat then Ok (le_combine b) else Raise StructError.

(** [range(lo, hi)] *)
Definition range (lo hi : Z) : list Z :=
  map (fun i => lo + Z.of_nat i) (seq 0 (Z.to_nat (hi - lo))).

(** CPython keeps a duration as a signed 64-bit count of nanoseconds.  A
    number of seconds written [ms / 1000.0] converts to one exactly when
    [ms] is within [TIME_MAX_MS] of zero. *)
Definition TIME_MAX_MS : Z := 9223372036854.

(** What [time.sleep(ms / 1000.0)] and [sock.settimeout(ms / 1000.0)] raise
    before they do anything: OverflowError when the duration does not
    convert, ValueError when it is negative. *)
Definition time_error (ms : Z) : option exn :=
  if (ms <? - TIME_MAX_MS) || (TIME_MAX_MS <? ms) then Some OverflowError
  else if ms <? 0 then Some ValueError
  else None.

(** The largest C [int].  [poll] takes its timeout as an [int] of
    milliseconds, and every platform's [sleep] accepts a delay of that
    many: up to here a timeout or a delay that converts is also honoured. *)
Definition INT_MAX : Z := 2147483647.

(** The [random] module, as an interface: a generator state, seeding, and
    the two draws the programs make.  [randint a b] is only consulted for
    [a <= b]; the empty-range error is raised by [random_randint] below. *)
Class PyRandom : Type := {
  rng : Type;
  seed : Z -> rng;
  random : rng -> float * rng;
  randint : Z -> Z -> rng -> Z * rng
}.

(** What the library documents about the draws: [random()] is in [0, 1)
    and [randint(a, b)] is in [a, b]. *)
Class PyRandomOk (R : PyRandom) : Prop := {
  random_ge_0 : forall s, (0 <=? fst (random s))%float = true;
  random_lt_1 : forall s, (fst (random s) <? 1)%float = true;
  randint_range : forall a b s, a <= b -> a <= fst (randint a b s) <= b
}.

(** A datagram socket's receive call, for one bound socket.  The network is
    the list of datagrams that will arrive on it, each with its arrival
    time, in arrival order. *)
Inductive recv_result : Type :=
| Received (t : Z) (data : bytes)   (* returns at time [t] with the datagram *)
| TimedOut (t : Z)                  (* raises socket.timeout at time [t] *)
| WouldBlock.                       (* non-blocking socket, nothing queued *)

(** [sock.recvfrom(bufsize)] on a socket with [settimeout(timeout_ms/1000)],
    called at time [now], when the next datagram arrives at [arrival].  The
    timeout belongs to the call: it runs from the moment of the call.  A
    datagram that is already queued is returned at once; a timeout of 0
    makes the socket non-blocking; a longer datagram is cut to [bufsize]. *)
Definition recvfrom_timed (timeout_ms : Z) (bufsize : nat) (now : Z)
  (arrival : Z) (dgram : bytes) : recv_result :=
  if arrival <=? now then Received now (firstn bufsize dgram)
  else if timeout_ms =? 0 then WouldBlock
  else if arrival <? now + timeout_ms then Received arrival (firstn bufsize dgram)
  else TimedOut (now + timeout_ms).

(** The same call when no datagram will arrive any more. *)
Definition recvfrom_idle (timeout_ms : Z) (now : Z) : recv_result :=
  if timeout_ms =? 0 then WouldBlock else TimedOut (now + timeout_ms).

Section World.
Context {R : PyRandom}.
Variables U E : Type.

(** The world one endpoint runs in: the clock (ms), the state of the
    [random] module, the datagrams still to arrive on its bound socket, the
    program's own variables, and the log of what it did (oldest first). *)
Record world : Type := World {
  now : Z;
  gen : rng;
  net : list (Z * bytes);
  vars : U;
  log : list E
}.

Definition M (A : Type) : Type := world -> res A * world.

Definition ret {A} (a : A) : M A := fun w => (Ok a, w).

Definition bind {A B} (c : M A) (k : A -> M B) : M B :=
  fun w => match c w with
           | (Ok a, w') => k a w'
           | (Raise e, w') => (Raise e, w')
           end.

Definition raise {A} (e : exn) : M A := fun w => (Raise e, w).

Definition lift {A} (r : res A) : M A := fun w => (r, w).

Definition emit (e : E) : M unit :=
  fun w => (Ok tt, World (now w) (gen w) (net w) (vars w) (log w ++ [e])).

Definition get_vars : M U := fun w => (Ok (vars w), w).

Definition set_vars (u : U) : M unit :=
  fun w => (Ok tt, World (now w) (gen w) (net w) u (log w)).

(** [random.random()] *)
Definition random_random : M float :=
  fun w => let (x, g) := random (gen w) in
           (Ok x, World (now w) g (net w) (vars w) (log w)).

(** [random.randint(a, b)]: ValueError on an empty range. *)
Definition random_randint (a b : Z) : M Z :=
  fun w => if a <=? b
           then let (d, g) := randint a b (gen w) in
                (Ok d, World (now w) g (net w) (vars w) (log w))
           else (Raise ValueError, w).

(** [time.sleep(ms / 1000.0)]: OverflowError on a duration that does not
    convert, ValueError on a negative one. *)
Definition time_sleep_ms (ms : Z) : M unit :=
  fun w => match time_error ms with
           | Some e => (Raise e, w)
           | None => (Ok tt, World (now w + ms) (gen w) (net w) (vars w) (log w))
           end.

(** [random_delay(min_ms, max_ms)] of both programs; returns the delay it
    slept, for the log. *)
Definition random_delay (min_ms max_ms : Z) : M Z :=
  bind (random_randint min_ms max_ms) (fun d =>
  bind (time_sleep_ms d) (fun _ => ret d)).

End World.

Arguments ret {R U E A} a.
Arguments bind {R U E A B} c k.
Arguments raise {R U E A} e.
Arguments lift {R U E A} r.
Arguments emit {R U E} e.
Arguments get_vars {R U E}.
Arguments set_vars {R U E} u.
Arguments random_random {R U E}.
Arguments random_randint {R U E} a b.
Arguments time_sleep_ms {R U E} ms.
Arguments random_delay {R U E} min_ms max_ms.

End Py.

Import Py.

Declare Scope py_scope.
Delimit Scope py_scope with py.
Notation "x <- c ;; k" := (Py.bind c (fun x => k))
  (at level 61, c at next level, right associativity) : py_scope.
Notation "c ;;; k" := (Py.bind c (fun _ => k))
  (at level 61, right associativity) : py_scope.
Local Open Scope py_scope.

(** What the Channel Loss/Delay Policy decides for one outbound message. *)
Inductive decision : Type :=
| Suppress
| Deliver (delay_ms : Z).

(* ===================================================================== *)
(** * tx.py                                                               *)
(* ===================================================================== *)

Module Tx.

Definition DATA_PCK_LEN : nat := 32.
Definition DATA_BYTES : nat := 31.
Definition ACK_LEN : nat := 2.

(** The simulation settings [main] takes from the command line (the
    module-level globals it overrides). *)
Record config : Type := Config {
  MAX_RETRIES : Z;
  RTT_TIMEOUT_MS : Z;
  LOSS_DATA_PROB : float;
  DATA_DELAY_MS_MIN : Z;
  DATA_DELAY_MS_MAX : Z
}.

(** What the sender does, oldest first: its prints, its [sendto] calls,
    and the packet [main] builds for each chunk. *)
Inductive event : Type :=
| EvBuild (chunk_index : Z) (pck_num : Z) (pck : bytes)
| EvDropped (pck_num attempt : Z)
| EvSendto (pck_num attempt delay_ms : Z) (pck : bytes)
| EvTimeout (pck_num attempt : Z)
| EvDelivered (pck_num attempt : Z)
| EvDuplicate (pck_num : Z)
| EvRetryStatus (pck_num status : Z)
| EvFailed (pck_num : Z)
| EvStopEarly
| EvDone (sent_data_chunks success_data_chunks : Z).

(** [make_packet] *)
Definition make_packet (pck_num : Z) (data : bytes) : res bytes :=
  if negb (length data =? DATA_BYTES)%nat then Raise ValueError
  else Ok ([byte_of (Z.land pck_num 255)] ++ data).

(** The [while offset < total_len] loop of [data_for_file]. *)
Equations? rest_chunks (data_r : bytes) (total_len offset : nat) : list bytes
  by wf (total_len - offset)%nat lt :=
  rest_chunks data_r total_len offset with lt_dec offset total_len => {
    | left _ => ljust 31 Byte.x00 (slice offset (offset + 31) data_r)
                :: rest_chunks data_r total_len (offset + 31);
    | right _ => [] }.
Proof. lia. Qed.

(** [data_for_file], given the bytes [f.read()] returned.  The generator
    runs its body on the first [next], so [struct.error] is raised before
    any chunk is produced. *)
Definition data_for_file (data_r : bytes) : res (list bytes) :=
  let total_len := length data_r in
  let first_data_only_data := slice 0 27 data_r in
  match struct_pack_I (Z.of_nat total_len) with
  | Raise e => Raise e
  | Ok header =>
      let first_data := ljust 31 Byte.x00 (header ++ first_data_only_data) in
      Ok (first_data :: rest_chunks data_r total_len 27)
  end.

Section Sender.
Context {R : PyRandom}.

Definition world : Type := Py.world unit event.
Definition M (A : Type) : Type := Py.M unit event A.

(** The [while True] loop of [wait_for_ack], on the datagrams still to
    arrive on the ACK socket.  Returns the status (or [None] on timeout),
    the time at which it returns, and the datagrams not yet received. *)
Fixpoint wait_for_ack_on (timeout_ms expected_pck_num now : Z)
  (net : list (Z * bytes)) : res (option Z) * Z * list (Z * bytes) :=
  match net with
  | [] =>
      match recvfrom_idle timeout_ms now with
      | TimedOut t => (Ok None, t, net)
      | _ => (Raise BlockingIOError, now, net)
      end
  | (arrival, dgram) :: rest =>
      match recvfrom_timed timeout_ms 1024 now arrival dgram with
      | TimedOut t => (Ok None, t, net)
      | WouldBlock => (Raise BlockingIOError, now, net)
      | Received t ack =>
          if negb (length ack =? ACK_LEN)%nat
          then wait_for_ack_on timeout_ms expected_pck_num t rest
          else
            let pck_num := item 0 ack in
            let status := item 1 ack in
            if negb (pck_num =? Z.land expected_pck_num 255)
            then wait_for_ack_on timeout_ms expected_pck_num t rest
            else (Ok (Some status), t, rest)
      end
  end.

(** [wait_for_ack(ack_sock, expected_pck_num)] *)
Definition wait_for_ack (cfg : config) (expected_pck_num : Z) : M (option Z) :=
  fun w =>
    let '(r, t, rest) :=
      wait_for_ack_on (RTT_TIMEOUT_MS cfg) expected_pck_num (now w) (net w) in
    (r, World t (gen w) rest (vars w) (log w)).

(** The first step of an attempt in [send_with_retries]: "simulate a packet
    being dropped or sent". *)
Definition simulate_send (cfg : config) (pck_num attempt : Z) (pck : bytes) : M unit :=
  x <- random_random ;;
  if (x <? LOSS_DATA_PROB cfg)%float
  then emit (EvDropped pck_num attempt)
  else d <- random_delay (DATA_DELAY_MS_MIN cfg) (DATA_DELAY_MS_MAX cfg) ;;
       emit (EvSendto pck_num attempt d pck).

(** The body of the [for attempt in ...] loop of [send_with_retries], over
    the attempt numbers still to run. *)
Fixpoint send_attempts (cfg : config) (pck_num : Z) (pck : bytes)
  (attempts : list Z) : M bool :=
  match attempts with
  | [] =>
      emit (EvFailed pck_num) ;;;
      ret false
  | attempt :: later =>
      simulate_send cfg pck_num attempt pck ;;;
      status <- wait_for_ack cfg pck_num ;;
      match status with
      | None =>
          emit (EvTimeout pck_num attempt) ;;;
          send_attempts cfg pck_num pck later
      | Some st =>
          if (st =? 0) || (st =? 1)
          then (if st =? 0 then emit (EvDelivered pck_num attempt)
                else emit (EvDuplicate pck_num)) ;;;
               ret true
          else emit (EvRetryStatus pck_num st) ;;;
               send_attempts cfg pck_num pck later
      end
  end.

(** [send_with_retries(tx_sock, ack_sock, pck_num, pck)] *)
Definition send_with_retries (cfg : config) (pck_num : Z) (pck : bytes) : M bool :=
  send_attempts cfg pck_num pck (range 1 (MAX_RETRIES cfg + 1)).

(** The [for data_chunk in data_for_file(...)] loop of [main], over the
    chunks the generator has still to yield.  Returns
    [(sent_data_chunks, success_data_chunks)]. *)
Fixpoint main_loop (cfg : config) (chunks : list bytes)
  (pck_num sent_data_chunks success_data_chunks : Z) : M (Z * Z) :=
  match chunks with
  | [] => ret (sent_data_chunks, success_data_chunks)
  | data_chunk :: later =>
      pck <- lift (make_packet pck_num data_chunk) ;;
      emit (EvBuild sent_data_chunks pck_num pck) ;;;
      success <- send_with_retries cfg pck_num pck ;;
      let sent_data_chunks := sent_data_chunks + 1 in
      if negb success
      then emit EvStopEarly ;;;
           ret (sent_data_chunks, success_data_chunks)
      else main_loop cfg later (Z.lxor pck_num 1)
             sent_data_chunks (success_data_chunks + 1)
  end.

(** [ack_sock.settimeout(RTT_TIMEOUT_MS / 1000.0)]: OverflowError on a
    value that does not convert, ValueError on a negative one. *)
Definition settimeout (cfg : config) : M unit :=
  match time_error (RTT_TIMEOUT_MS cfg) with
  | Some e => raise e
  | None => ret tt
  end.

(** The world [main] starts in: clock at 0, generator seeded, the given
    datagrams still to arrive on the ACK socket, nothing logged. *)
Definition initial (seed_arg : Z) (acks : list (Z * bytes)) : world :=
  World 0 (seed seed_arg) acks tt [].

(** [main], given the content of the input file. *)
Definition main_body (cfg : config) (input_file : bytes) : M (Z * Z) :=
  settimeout cfg ;;;
  chunks <- lift (data_for_file input_file) ;;
  counts <- main_loop cfg chunks 0 0 0 ;;
  emit (EvDone (fst counts) (snd counts)) ;;;
  ret counts.

Definition main (cfg : config) (seed_arg : Z) (input_file : bytes)
  (acks : list (Z * bytes)) : res (Z * Z) * world :=
  main_body cfg input_file (initial seed_arg acks).

End Sender.

End Tx.

(* ===================================================================== *)
(** * rx.py                                                               *)
(* ===================================================================== *)

Module Rx.

Definition DATA_PCK_LEN : nat := 32.
Definition DATA_BYTES : nat := 31.
Definition ACK_LN : nat := 2.

(** The simulation settings [main] takes from the command line. *)
Record config : Type := Config {
  LOSS_ACK_PROB : float;
  ACK_DELAY_MS_MIN : Z;
  ACK_DELAY_MS_MAX : Z
}.

(** The variables of [main]: the transfer session, the [done] flag of the
    loop, and the output file (what was written to it, and whether it has
    been closed). *)
Record state : Type := State {
  last_delivered_pck_num : option Z;
  expected_total_len : option Z;
  bytes_written : Z;
  done : bool;
  out_f : bytes;
  out_f_closed : bool
}.

(** What the receiver does, oldest first: the Ack it builds, whether the
    Ack is sent or dropped, and its prints about the packet. *)
Inductive event : Type :=
| EvAck (ack : bytes)
| EvAckSent (ack : bytes) (delay_ms : Z)
| EvAckDropped (ack : bytes)
| EvDuplicate (pck_num : Z)
| EvAccepted (pck_num wrote : Z)
| EvComplete (pck_num : Z).

Inductive control : Type := Continue | Break.

(** How a run over finitely many inbound datagrams ends when nothing is
    raised: the loop was left by [break], or the receiver is blocked in
    [recvfrom] waiting for more. *)
Inductive outcome : Type := Stopped | Listening.

Section Receiver.
Context {R : PyRandom}.

Definition world : Type := Py.world state event.
Definition M (A : Type) : Type := Py.M state event A.

Definition modify (f : state -> state) : M unit :=
  s <- get_vars ;; set_vars (f s).

Definition set_last_delivered_pck_num (v : option Z) (s : state) : state :=
  State v (expected_total_len s) (bytes_written s) (done s) (out_f s) (out_f_closed s).

Definition set_expected_total_len (v : option Z) (s : state) : state :=
  State (last_delivered_pck_num s) v (bytes_written s) (done s) (out_f s) (out_f_closed s).

Definition set_bytes_written (v : Z) (s : state) : state :=
  State (last_delivered_pck_num s) (expected_total_len s) v (done s) (out_f s) (out_f_closed s).

Definition set_done (v : bool) (s : state) : state :=
  State (last_delivered_pck_num s) (expected_total_len s) (bytes_written s) v (out_f s) (out_f_closed s).

(** [out_f.write(data)]: ValueError once the file is closed. *)
Definition out_f_write (data : bytes) : M unit :=
  s <- get_vars ;;
  if out_f_closed s then raise ValueError
  else set_vars (State (last_delivered_pck_num s) (expected_total_len s)
                   (bytes_written s) (done s) (out_f s ++ data) false).

(** [out_f.close()] *)
Definition out_f_close : M unit :=
  modify (fun s => State (last_delivered_pck_num s) (expected_total_len s)
                     (bytes_written s) (done s) (out_f s) true).

(** [last_delivered_pck_num == pck_num] *)
Definition is_last_delivered (s : state) (pck_num : Z) : bool :=
  match last_delivered_pck_num s with
  | Some l => l =? pck_num
  | None => false
  end.

(** The [else] branch of the duplicate check: a new packet is accepted. *)
Definition accept_new (pck_num : Z) (data : bytes) : M unit :=
  modify (set_last_delivered_pck_num (Some pck_num)) ;;;
  s <- get_vars ;;
  (match expected_total_len s with
   | None =>
       total <- lift (struct_unpack_I (take 4 data)) ;;
       modify (set_expected_total_len (Some total)) ;;;
       let actual_data := skipn 4 data in
       let to_write := take (Z.max 0 (total - bytes_written s)) actual_data in
       out_f_write to_write ;;;
       modify (fun s => set_bytes_written (bytes_written s + len to_write) s) ;;;
       emit (EvAccepted pck_num (len to_write))
   | Some total =>
       let to_write := take (Z.max 0 (total - bytes_written s)) data in
       out_f_write to_write ;;;
       modify (fun s => set_bytes_written (bytes_written s + len to_write) s) ;;;
       emit (EvAccepted pck_num (len to_write))
   end) ;;;
  s <- get_vars ;;
  match expected_total_len s with
  | Some total =>
      if total <=? bytes_written s
      then emit (EvComplete pck_num) ;;;
           out_f_close ;;;
           modify (set_done true)
      else modify (set_done false)
  | None => modify (set_done false)
  end.

(** The reply to a datagram of the wrong length: "based on the probability
    of loosing an ACK send the ACK" (the test is [random() >= LOSS_ACK_PROB]). *)
Definition send_bad_len_ack (cfg : config) (ack : bytes) : M unit :=
  x <- random_random ;;
  if (LOSS_ACK_PROB cfg <=? x)%float
  then d <- random_delay (ACK_DELAY_MS_MIN cfg) (ACK_DELAY_MS_MAX cfg) ;;
       emit (EvAckSent ack d)
  else emit (EvAckDropped ack).

(** The reply to a 32-byte packet: "randomly simulate the ack being lost";
    returns [ack_dropped] (the test is [random() < LOSS_ACK_PROB]). *)
Definition send_ack (cfg : config) (ack : bytes) : M bool :=
  x <- random_random ;;
  let ack_dropped := (x <? LOSS_ACK_PROB cfg)%float in
  (if ack_dropped
   then emit (EvAckDropped ack)
   else d <- random_delay (ACK_DELAY_MS_MIN cfg) (ACK_DELAY_MS_MAX cfg) ;;
        emit (EvAckSent ack d)) ;;;
  ret ack_dropped.

(** One pass through the body of the [while True] loop, for the datagram
    [pck] that [recvfrom] returned. *)
Definition loop_body (cfg : config) (pck : bytes) : M control :=
  if negb (length pck =? DATA_PCK_LEN)%nat then
    let pck_num := if (1 <=? length pck)%nat then item 0 pck else 0 in
    let status := 2 in
    let ack := [byte_of (Z.land pck_num 255); byte_of status] in
    emit (EvAck ack) ;;;
    send_bad_len_ack cfg ack ;;;
    ret Continue
  else
    let pck_num := item 0 pck in
    let data := skipn 1 pck in
    s <- get_vars ;;
    status <- (if is_last_delivered s pck_num
               then emit (EvDuplicate pck_num) ;;; ret 1
               else accept_new pck_num data ;;; ret 0) ;;
    let ack := [byte_of (Z.land pck_num 255); byte_of status] in
    emit (EvAck ack) ;;;
    ack_dropped <- send_ack cfg ack ;;
    s <- get_vars ;;
    if done s && negb ack_dropped then ret Break else ret Continue.

(** [pck, addr = sock.recvfrom(4096)] on the blocking socket, when the next
    datagram arrives at [arrival]: the call returns once it is there. *)
Definition recvfrom (arrival : Z) (dgram : bytes) (later : list (Z * bytes)) : M bytes :=
  fun w => (Ok (firstn 4096 dgram),
            World (Z.max (now w) arrival) (gen w) later (vars w) (log w)).

(** One iteration of the [while True] loop: receive the next datagram and
    process it. *)
Definition receive_one (cfg : config) (arrival : Z) (dgram : bytes)
  (later : list (Z * bytes)) : M control :=
  pck <- recvfrom arrival dgram later ;;
  loop_body cfg pck.

(** The [while True] loop of [main], over the datagrams still to arrive. *)
Fixpoint main_loop (cfg : config) (arrivals : list (Z * bytes)) : M outcome :=
  match arrivals with
  | [] => ret Listening
  | (arrival, dgram) :: later =>
      c <- receive_one cfg arrival dgram later ;;
      match c with
      | Break => ret Stopped
      | Continue => main_loop cfg later
      end
  end.

(** The variables as [main] initialises them, and the world it starts in. *)
Definition initial_state : state := State None None 0 false [] false.

Definition initial (seed_arg : Z) (arrivals : list (Z * bytes)) : world :=
  World 0 (seed seed_arg) arrivals initial_state [].

Definition main (cfg : config) (seed_arg : Z) (arrivals : list (Z * bytes))
  : res outcome * world :=
  main_loop cfg arrivals (initial seed_arg arrivals).

End Receiver.

End Rx.

(* ===================================================================== *)
(** * The Channel Loss/Delay Policy, as the specification words it        *)
(* ===================================================================== *)

Module Channel.

Section Policy.
Context {R : PyRandom}.

(** One decision: draw once; with probability [p] suppress, otherwise draw
    a delay in [[min_ms, max_ms]] and deliver after it. *)
Definition policy (p : float) (min_ms max_ms : Z) (g : rng) : decision * rng :=
  let (x, g1) := random g in
  if (x <? p)%float then (Suppress, g1)
  else let (d, g2) := randint min_ms max_ms g1 in (Deliver d, g2).

(** [n] decisions in a row from generator state [g], each made in the state
    the previous one left, and the state after them. *)
Fixpoint run (p : float) (min_ms max_ms : Z) (n : nat) (g : rng) : list decision * rng :=
  match n with
  | O => ([], g)
  | S n' => let (d, g1) := policy p min_ms max_ms g in
            let (ds, g2) := run p min_ms max_ms n' g1 in
            (d :: ds, g2)
  end.

(** The first [n] decisions of the stream that [g] determines. *)
Definition decisions (p : float) (min_ms max_ms : Z) (n : nat) (g : rng) : list decision :=
  fst (run p min_ms max_ms n g).

End Policy.

End Channel.

(* ===================================================================== *)
(** * Observations, reachable states and invariants                       *)
(* ===================================================================== *)

(** [ceil(a / b)] on naturals. *)
Definition ceil_div (a b : nat) : nat := ((a + (b - 1)) / b)%nat.

(** What an observer keeps of the sender's log. *)
Module TxView.

(** The datagram is a 2-byte Ack for [pck_num] with status OK or DUPLICATE:
    the only thing [wait_for_ack] and [send_with_retries] take as success. *)
Definition confirming (pck_num : Z) (dgram : bytes) : bool :=
  let ack := firstn 1024 dgram in
  (length ack =? 2)%nat
  && (item 0 ack =? Z.land pck_num 255)
  && ((item 1 ack =? 0) || (item 1 ack =? 1)).

(** The datagram is a 2-byte Ack that echoes [pck_num]. *)
Definition matching (pck_num : Z) (dgram : bytes) : bool :=
  let ack := firstn 1024 dgram in
  (length ack =? 2)%nat && (item 0 ack =? Z.land pck_num 255).

Definition none_confirming (pck_num : Z) (net : list (Z * bytes)) : Prop :=
  Forall (fun ad => confirming pck_num (snd ad) = false) net.

(** Chunks built and Data send attempts (dropped or sent). *)
Definition is_action (e : Tx.event) : bool :=
  match e with
  | Tx.EvBuild _ _ _ | Tx.EvDropped _ _ | Tx.EvSendto _ _ _ _ => true
  | _ => false
  end.

Definition actions (l : list Tx.event) : list Tx.event := filter is_action l.

(** The channel decisions, in the order they were made. *)
Definition decision_of (e : Tx.event) : list decision :=
  match e with
  | Tx.EvDropped _ _ => [Suppress]
  | Tx.EvSendto _ _ d _ => [Deliver d]
  | _ => []
  end.

Definition decisions (l : list Tx.event) : list decision := flat_map decision_of l.

(** Chunks built and chunks confirmed, with the sequence number used. *)
Inductive mark : Type :=
| Built (chunk_index pck_num : Z)
| Confirmed (pck_num : Z).

Definition mark_of (e : Tx.event) : list mark :=
  match e with
  | Tx.EvBuild k n _ => [Built k n]
  | Tx.EvDelivered n _ => [Confirmed n]
  | Tx.EvDuplicate n => [Confirmed n]
  | _ => []
  end.

Definition marks (l : list Tx.event) : list mark := flat_map mark_of l.

(** [n] chunks built and confirmed in turn from chunk [k] on, each with
    sequence number (chunk index mod 2). *)
Fixpoint alternating (k : Z) (n : nat) : list mark :=
  match n with
  | O => []
  | S n' => Built k (k mod 2) :: Confirmed (k mod 2) :: alternating (k + 1) n'
  end.

End TxView.

(** What an observer keeps of the receiver's log. *)
Module RxView.

(** The channel decisions, in the order they were made. *)
Definition decision_of (e : Rx.event) : list decision :=
  match e with
  | Rx.EvAckDropped _ => [Suppress]
  | Rx.EvAckSent _ d => [Deliver d]
  | _ => []
  end.

Definition decisions (l : list Rx.event) : list decision := flat_map decision_of l.

(** The sequence numbers of the packets that completed the file. *)
Definition complete_of (e : Rx.event) : list Z :=
  match e with
  | Rx.EvComplete n => [n]
  | _ => []
  end.

Definition completes (l : list Rx.event) : list Z := flat_map complete_of l.

(** The TransferSession part of the receiver's variables is unchanged. *)
Definition same_session (s s' : Rx.state) : Prop :=
  Rx.expected_total_len s' = Rx.expected_total_len s /\
  Rx.bytes_written s' = Rx.bytes_written s /\
  Rx.last_delivered_pck_num s' = Rx.last_delivered_pck_num s /\
  Rx.out_f s' = Rx.out_f s.

(** Bytes written never exceed the expected total, once it is known. *)
Definition within_total (s : Rx.state) : Prop :=
  forall total, Rx.expected_total_len s = Some total -> Rx.bytes_written s <= total.

(** The transfer data is complete. *)
Definition data_complete (s : Rx.state) : Prop :=
  exists total, Rx.expected_total_len s = Some total /\ total <= Rx.bytes_written s.

(** How the reply to one datagram ends: the Ack was dropped, it was sent
    after [d] ms, or computing the delay raised. *)
Inductive reply : Type :=
| Dropped
| Sent (d : Z)
| Crashed (e : exn).

Definition reply_events (ack : bytes) (o : reply) : list Rx.event :=
  match o with
  | Dropped => [Rx.EvAckDropped ack]
  | Sent d => [Rx.EvAckSent ack d]
  | Crashed _ => []
  end.

End RxView.

(** The worlds in which the receive loop is about to call [recvfrom]: the
    one [main] starts in, and any world an iteration that neither left the
    loop nor raised ends in. *)
Inductive running {R : PyRandom} (cfg : Rx.config) : Rx.world -> Prop :=
| running_initial (seed_arg : Z) (arrivals : list (Z * bytes)) :
    running cfg (Rx.initial seed_arg arrivals)
| running_continue (w : Rx.world) (arrival : Z) (dgram : bytes)
    (later : list (Z * bytes)) (w' : Rx.world) :
    running cfg w ->
    net w = (arrival, dgram) :: later ->
    Rx.receive_one cfg arrival dgram later w = (Ok Rx.Continue, w') ->
    running cfg w'.

(** The session counters are consistent. *)
Definition session_ok (s : Rx.state) : Prop :=
  RxView.within_total s /\
  (Rx.expected_total_len s = None -> Rx.bytes_written s = 0).

(** The [done] flag, the output file and the log agree about completion. *)
Definition completion_ok {R : PyRandom} (w : Rx.world) : Prop :=
  (Rx.done (vars w) = true ->
   Rx.out_f_closed (vars w) = true /\
   RxView.data_complete (vars w) /\
   exists c, Rx.last_delivered_pck_num (vars w) = Some c /\
             RxView.completes (log w) = [c]) /\
  (Rx.done (vars w) = false ->
   Rx.out_f_closed (vars w) = false /\
   RxView.completes (log w) = [] /\
   ~ RxView.data_complete (vars w)).

Section Traces.
Context {R : PyRandom}.
Variables U E : Type.

Section Decisions.
Variable decision_of : E -> list decision.
Variables (p : float) (min_ms max_ms : Z).

(** Whatever [c] logs, the decisions in it are the next decisions of the
    policy from the generator state [c] started in; and unless [c] raised,
    it leaves the generator in the state after exactly those decisions. *)
Definition follows_policy {A} (c : Py.M U E A) : Prop :=
  forall w r w', c w = (r, w') ->
    exists new k,
      log w' = log w ++ new /\
      flat_map decision_of new = fst (Channel.run p min_ms max_ms k (gen w)) /\
      (forall a, r = Ok a -> gen w' = snd (Channel.run p min_ms max_ms k (gen w))).

End Decisions.

Section Views.
Variable X : Type.
Variable view : E -> list X.

(** [c] leaves the socket alone and logs nothing that [view] keeps. *)
Definition quiet {A} (c : Py.M U E A) : Prop :=
  forall w r w', c w = (r, w') ->
    net w' = net w /\
    exists new, log w' = log w ++ new /\ flat_map view new = [].

End Views.

End Traces.

(** What travels from the sender to the receiver. *)
Module Wire.

(** The packets [Tx.main] builds for [chunks] when each one is confirmed in
    turn, the first under sequence number [pck_num]. *)
Fixpoint packets_from (pck_num : Z) (chunks : list bytes) : list bytes :=
  match chunks with
  | [] => []
  | data_chunk :: later =>
      (byte_of (Z.land pck_num 255) :: data_chunk)
      :: packets_from (Z.lxor pck_num 1) later
  end.

(** [in_order last ps ds left]: the datagrams [ds] are what reaches the
    receiver from a stop-and-wait sender that sent [last] and has [ps]
    still to send: each packet in turn, none skipped, each possibly
    repeated before the next one, with datagrams of the wrong length in
    between; [left] are the packets not yet sent when [ds] ends. *)
Inductive in_order : option bytes -> list bytes -> list bytes -> list bytes -> Prop :=
| in_order_end (last : option bytes) (ps : list bytes) :
    in_order last ps [] ps
| in_order_stray (last : option bytes) (ps : list bytes) (d : bytes)
    (ds left : list bytes) :
    length d <> 32%nat ->
    in_order last ps ds left ->
    in_order last ps (d :: ds) left
| in_order_again (p : bytes) (ps ds left : list bytes) :
    in_order (Some p) ps ds left ->
    in_order (Some p) ps (p :: ds) left
| in_order_next (last : option bytes) (p : bytes) (ps ds left : list bytes) :
    in_order (Some p) ps ds left ->
    in_order last (p :: ps) (p :: ds) left.

(** The receiver's variables once it has taken in the stream [data] up to
    offset [off], the last packet under sequence number [seq]. *)
Definition taken_in (data : bytes) (off : nat) (seq : Z) (s : Rx.state) : Prop :=
  Rx.last_delivered_pck_num s = Some seq /\
  Rx.expected_total_len s = Some (Z.of_nat (length data)) /\
  Rx.bytes_written s = Z.of_nat (Nat.min (length data) off) /\
  Rx.out_f s = firstn off data /\
  Rx.out_f_closed s = (length data <=? off)%nat /\
  Rx.done s = (length data <=? off)%nat.

End Wire.

(** What an observer of the sender's log keeps of the traffic. *)
Module TxTrace.

(** The numbers of the Data send attempts, dropped or sent. *)
Definition attempt_of (e : Tx.event) : list Z :=
  match e with
  | Tx.EvDropped _ attempt => [attempt]
  | Tx.EvSendto _ attempt _ _ => [attempt]
  | _ => []
  end.

Definition attempts (l : list Tx.event) : list Z := flat_map attempt_of l.

(** The datagrams handed to [sendto], in order. *)
Definition sent_of (e : Tx.event) : list bytes :=
  match e with
  | Tx.EvSendto _ _ _ pck => [pck]
  | _ => []
  end.

Definition wire (l : list Tx.event) : list bytes := flat_map sent_of l.

(** The packets [main] built, in order. *)
Definition built_of (e : Tx.event) : list bytes :=
  match e with
  | Tx.EvBuild _ _ pck => [pck]
  | _ => []
  end.

Definition built (l : list Tx.event) : list bytes := flat_map built_of l.

(** Each packet of [ps] in turn, the [i]-th one [ks[i]] times. *)
Fixpoint repeated (ks : list nat) (ps : list bytes) : list bytes :=
  match ks, ps with
  | k :: ks', p :: ps' => repeat p k ++ repeated ks' ps'
  | _, _ => []
  end.

End TxTrace.

(* ===================================================================== *)
(** * sim_gui.py: the file helpers                                        *)
(* ===================================================================== *)

Module Gui.

(** The largest [Py_ssize_t] of a 64-bit build: sizes and indexes lie in
    [[- SSIZE_MAX - 1, SSIZE_MAX]]. *)
Definition SSIZE_MAX : Z := 2 ^ 63 - 1.

(** The memory of the platform, as an interface: the largest buffer that
    the runtime can allocate for one read. *)
Class PyMemory : Type := {
  alloc_max : Z
}.

(** It is smaller than the largest bytes object there can be at all (whose
    header takes 33 bytes of the address range). *)
Class PyMemoryOk (M : PyMemory) : Prop := {
  alloc_max_range : 0 <= alloc_max <= SSIZE_MAX - 33
}.

Section Files.
Context {M : PyMemory}.

(** What [f.read(size)] raises, on a file opened with ["rb"] whose unread
    content is [rest]: OverflowError for a size that is no index-sized
    integer, ValueError for a size below -1, OverflowError for more than a
    bytes object can hold, MemoryError when the buffer (of [size] bytes,
    or of the whole rest for size -1) cannot be allocated. *)
Definition read_error (size : Z) (rest : bytes) : option exn :=
  if (size <? - SSIZE_MAX - 1) || (SSIZE_MAX <? size) then Some OverflowError
  else if size <? -1 then Some ValueError
  else if size =? -1
       then (if alloc_max <? len rest then Some MemoryError else None)
  else if SSIZE_MAX - 33 <? size then Some OverflowError
  else if alloc_max <? size then Some MemoryError
  else None.

(** [f.read(size)]: the bytes returned and the content left.  A size of -1
    reads to the end of the file. *)
Definition read (size : Z) (rest : bytes) : res (bytes * bytes) :=
  match read_error size rest with
  | Some e => Raise e
  | None =>
      if size =? -1 then Ok (rest, [])
      else Ok (firstn (Z.to_nat size) rest, skipn (Z.to_nat size) rest)
  end.

(** [not b] for a bytes object. *)
Definition is_empty (b : bytes) : bool :=
  match b with
  | [] => true
  | _ :: _ => false
  end.

(** [a == b] on bytes objects. *)
Fixpoint bytes_eqb (a b : bytes) : bool :=
  match a, b with
  | [], [] => true
  | x :: a', y :: b' => Byte.eqb x y && bytes_eqb a' b'
  | _, _ => false
  end.

(** The [for i in range(m)] scan of two chunks, from index [i] on: the
    first index at which they differ, or [m = min(len(a), len(b))]. *)
Fixpoint scan (i : Z) (a b : bytes) : Z :=
  match a, b with
  | x :: a', y :: b' => if Byte.eqb x y then scan (i + 1) a' b' else i
  | _, _ => i
  end.

(** A value together with the fact that it is the value of [x]. *)
Definition inspect (A : Type) (x : A) : {y : A | x = y} := exist _ x eq_refl.

(** The [while True] loop of [first_diff_offset], on what is left to read
    of the two files. *)
Equations? compare_from (chunk : Z) (fa fb : bytes) (offset : Z) : res (option Z)
  by wf (length fa) lt :=
  compare_from chunk fa fb offset with inspect (read chunk fa) => {
    | exist _ (Raise e) _ => Raise e;
    | exist _ (Ok (a, fa')) Ha with read chunk fb => {
        | Raise e => Raise e;
        | Ok (b, fb') with inspect (is_empty a && is_empty b) => {
            | exist _ true _ => Ok None;
            | exist _ false Hsome with inspect (bytes_eqb a b) => {
                | exist _ false _ => Ok (Some (offset + scan 0 a b));
                | exist _ true Hsame => compare_from chunk fa' fb' (offset + len a) } } } }.
Proof.
  assert (Ha' : is_empty a = false).
  { destruct a as [ | x a ]; [ | reflexivity ].
    destruct b as [ | y b ]; discriminate. }
  unfold read in Ha.
  destruct (read_error chunk fa); [ discriminate | ].
  destruct (chunk =? -1).
  - injection Ha as <- <-. destruct fa; [ discriminate | cbn [length]; lia ].
  - injection Ha as <- <-. rewrite length_skipn.
    destruct (Z.to_nat chunk) as [ | n ]; [ discriminate | ].
    destruct fa; [ discriminate | cbn [length]; lia ].
Qed.

(** [first_diff_offset(a_path, b_path, chunk)], given the contents of the
    two files. *)
Definition first_diff_offset (a b : bytes) (chunk : Z) : res (option Z) :=
  compare_from chunk a b 0.

End Files.

(** The [hashlib] hash object, as an interface: [hashlib.sha256()],
    [h.update(data)] and [h.hexdigest()]. *)
Class PyHash : Type := {
  hash_state : Type;
  digest : Type;
  sha256 : hash_state;
  update : hash_state -> bytes -> hash_state;
  hexdigest : hash_state -> digest
}.

(** What the library documents about [update]: repeated calls are
    equivalent to a single call with the concatenation of the arguments. *)
Class PyHashOk (H : PyHash) : Prop := {
  update_update : forall h a b, update (update h a) b = update h (a ++ b)
}.

Section Hashing.
Context {M : PyMemory} {H : PyHash}.

(** The [while True] loop of [sha256_of_file], on what is left to read. *)
Equations? hash_from (chunk : Z) (f : bytes) (h : hash_state) : res hash_state
  by wf (length f) lt :=
  hash_from chunk f h with inspect (read chunk f) => {
    | exist _ (Raise e) _ => Raise e;
    | exist _ (Ok (b, f')) Hb with inspect (is_empty b) => {
        | exist _ true _ => Ok h;
        | exist _ false Hsome => hash_from chunk f' (update h b) } }.
Proof.
  unfold read in Hb.
  destruct (read_error chunk f); [ discriminate | ].
  destruct (chunk =? -1).
  - injection Hb as <- <-. destruct f; [ discriminate | cbn [length]; lia ].
  - injection Hb as <- <-. rewrite length_skipn.
    destruct (Z.to_nat chunk) as [ | n ]; [ discriminate | ].
    destruct f; [ discriminate | cbn [length]; lia ].
Qed.

(** [sha256_of_file(path, chunk)], given the content of the file. *)
Definition sha256_of_file (content : bytes) (chunk : Z) : res digest :=
  match hash_from chunk content sha256 with
  | Ok h => Ok (hexdigest h)
  | Raise e => Raise e
  end.

End Hashing.

(** The length of the longest common prefix of two byte strings: where
    they first differ, if they do. *)
Fixpoint common_prefix (a b : bytes) : nat :=
  match a, b with
  | x :: a', y :: b' => if Byte.eqb x y then S (common_prefix a' b') else 0
  | _, _ => 0
  end.

End Gui.

(** The sender's clock while it receives. *)
Module TxClock.

(** The time at which a receiver that starts at [now] and does not time
    out has received the datagrams [l]. *)
Definition latest (now : Z) (l : list (Z * bytes)) : Z :=
  fold_left (fun t ad => Z.max t (fst ad)) l now.

End TxClock.

(* ===================================================================== *)
(** * A small generator, to run the programs on concrete inputs           *)
(* ===================================================================== *)

Module Demo.

(** The draws of [random()] cycle through this table. *)
Definition table : list float := [0.5; 0.0625; 0.875; 0.25]%float.

#[export] Instance cyclic : PyRandom := {|
  rng := Z;
  seed := fun s => s;
  random := fun g => (nth (Z.to_nat (g mod 4)) table 0.5%float, g + 1);
  randint := fun a b g => (a + g mod (b - a + 1), g + 1)
|}.

(** A file of [n] bytes 1, 2, 3, ... *)
Definition file (n : nat) : bytes := map (fun i => byte_of (Z.of_nat i)) (seq 1 n).

Definition ack (pck_num status : Z) : bytes := [byte_of pck_num; byte_of status].

(** Sender settings: three tries, one-second timeout; every Data send lost,
    or none. *)
Definition tx_all_lost : Tx.config := Tx.Config 3 1000 1%float 300 400.
Definition tx_lossless : Tx.config := Tx.Config 3 1000 0%float 300 400.

(** Receiver settings: no Ack lost, or one in four (see [table]). *)
Definition rx_lossless : Rx.config := Rx.Config 0%float 25 40.
Definition rx_lossy : Rx.config := Rx.Config 0.125%float 25 40.

(** The first and only Data packet of a 5-byte file. *)
Definition packet0 : bytes := byte_of 0 :: ljust 31 Byte.x00 (le_split 4 5 ++ file 5).

(** The receiver after it accepted [packet0], which completes the 5-byte
    file, and dropped its Ack (seed 13 makes the first draw 0.0625). *)
Definition rx_after_drop : Rx.world :=
  snd (Rx.receive_one rx_lossy 10 packet0 [(20, packet0)]
         (Rx.initial 13 [(10, packet0); (20, packet0)])).

End Demo.

(** More inputs for the concrete runs: a 50-byte file, its two packets, and
    traffic that delivers them in order. *)
Module Sample.

Definition chunks50 : list bytes :=
  match Tx.data_for_file (Demo.file 50) with
  | Ok chunks => chunks
  | Raise _ => []
  end.

Definition packets50 : list bytes := Wire.packets_from 0 chunks50.

Definition first50 : bytes := nth 0 packets50 [].
Definition second50 : bytes := nth 1 packets50 [].

(** The first packet, a stray byte, the first packet again, the second. *)
Definition arrivals50 : list (Z * bytes) :=
  [(10, first50); (15, [Byte.x07]); (20, first50); (30, second50)].

(** A packet under sequence number 1. *)
Definition packet1 : bytes := byte_of 1 :: repeat Byte.x00 31.

(** The sender of [Demo.tx_all_lost] run with [--timeout-ms 0]. *)
Definition tx_no_wait : Tx.config := Tx.Config 3 0 1%float 300 400.

(** A receiver all of whose Acks are lost ([--loss-ack 1]). *)
Definition rx_all_lost : Rx.config := Rx.Config 1%float 25 40.

(** A platform on which a read can allocate up to 4 GiB. *)
#[export] Instance memory : Gui.PyMemory := {|
  Gui.alloc_max := 4294967296
|}.

(** A hash object that keeps what it was fed. *)
#[export] Instance keep_all : Gui.PyHash := {|
  Gui.hash_state := bytes;
  Gui.digest := bytes;
  Gui.sha256 := [];
  Gui.update := fun h b => h ++ b;
  Gui.hexdigest := fun h => h
|}.

End Sample.

(* ===================================================================== *)
(** * Facts about the runtime                                             *)
(* ===================================================================== *)

Section PyFacts.

Lemma ljust_length (width : nat) (fill : byte) (b : bytes) :
  (length b <= width)%nat -> length (ljust width fill b) = width.
Proof.
  intros Hle. unfold ljust.
  rewrite length_app, repeat_length. lia.
Qed.

Lemma slice_length_le (lo hi : nat) (b : bytes) :
  (length (slice lo hi b) <= hi - lo)%nat.
Proof. unfold slice. apply firstn_le_length. Qed.

Lemma struct_pack_I_ok (n : Z) :
  0 <= n < 2 ^ 32 -> struct_pack_I n = Ok (le_split 4 n).
Proof.
  intros [H0 H1]. unfold struct_pack_I.
  apply Z.leb_le in H0. apply Z.ltb_lt in H1.
  rewrite H0, H1. reflexivity.
Qed.

Lemma struct_pack_I_too_big (n : Z) :
  2 ^ 32 <= n -> struct_pack_I n = Raise StructError.
Proof.
  intros H. unfold struct_pack_I.
  assert (Hlt : (n <? 2 ^ 32) = false) by (apply Z.ltb_ge; exact H).
  rewrite Hlt, andb_false_r. reflexivity.
Qed.

Lemma byte_of_land_255 (z : Z) : byte.unsigned (byte_of (Z.land z 255)) = z mod 256.
Proof.
  unfold byte_of. rewrite byte.unsigned_of_Z. unfold byte.wrap.
  change 255 with (Z.ones 8). rewrite Z.land_ones by lia.
  change (2 ^ 8) with 256. apply Z.mod_mod. lia.
Qed.

Lemma range_length (lo hi : Z) : length (range lo hi) = Z.to_nat (hi - lo).
Proof. unfold range. rewrite length_map, length_seq. reflexivity. Qed.

End PyFacts.

(* ===================================================================== *)
(** * The sender's packet codec and chunk producer                        *)
(* ===================================================================== *)

Section ChunkProducer.

Lemma rest_chunks_length (data_r : bytes) (total_len offset : nat) :
  length (Tx.rest_chunks data_r total_len offset) = ceil_div (total_len - offset) 31.
Proof.
  unfold ceil_div.
  funelim (Tx.rest_chunks data_r total_len offset); cbn [length].
  - match goal with IH : length _ = _ |- _ => rewrite IH end.
    clear -l. change (31 - 1)%nat with 30%nat.
    pose proof (Nat.div_mod_eq (total_len - offset + 30) 31).
    pose proof (Nat.mod_upper_bound (total_len - offset + 30) 31).
    pose proof (Nat.div_mod_eq (total_len - (offset + 31) + 30) 31).
    pose proof (Nat.mod_upper_bound (total_len - (offset + 31) + 30) 31).
    lia.
  - clear -n. replace (total_len - offset)%nat with 0%nat by lia. reflexivity.
Qed.

Lemma rest_chunks_all_31 (data_r : bytes) (total_len offset : nat) :
  Forall (fun chunk => length chunk = 31%nat) (Tx.rest_chunks data_r total_len offset).
Proof.
  funelim (Tx.rest_chunks data_r total_len offset).
  - constructor; [ | assumption ].
    apply ljust_length.
    pose proof (slice_length_le offset (offset + 31) data_r). lia.
  - constructor.
Qed.

Lemma rest_chunks_nth (data_r : bytes) (total_len offset k : nat) :
  (k < length (Tx.rest_chunks data_r total_len offset))%nat ->
  nth_error (Tx.rest_chunks data_r total_len offset) k
  = Some (ljust 31 Byte.x00 (firstn 31 (skipn (offset + 31 * k) data_r))).
Proof.
  revert k.
  funelim (Tx.rest_chunks data_r total_len offset); intros k Hk.
  - destruct k as [ | k ]; cbn [nth_error].
    + unfold slice.
      replace (offset + 31 - offset)%nat with 31%nat by lia.
      replace (offset + 31 * 0)%nat with offset by lia.
      reflexivity.
    + cbn [length] in Hk.
      match goal with IH : forall k, _ -> nth_error _ k = _ |- _ =>
        rewrite IH by lia end.
      replace (offset + 31 + 31 * k)%nat with (offset + 31 * S k)%nat by lia.
      reflexivity.
  - cbn [length] in Hk. lia.
Qed.

Lemma first_chunk_shape (header data_r : bytes) :
  length header = 4%nat ->
  ljust 31 Byte.x00 (header ++ slice 0 27 data_r)
  = (header ++ firstn (Nat.min 27 (length data_r)) data_r)
    ++ repeat Byte.x00 (27 - Nat.min 27 (length data_r)).
Proof.
  intros Hh. unfold ljust, slice.
  change (skipn 0 data_r) with data_r. change (27 - 0)%nat with 27%nat.
  assert (Hf : firstn 27 data_r = firstn (Nat.min 27 (length data_r)) data_r).
  { destruct (Nat.le_ge_cases 27 (length data_r)) as [Hle | Hge].
    - rewrite Nat.min_l by exact Hle. reflexivity.
    - rewrite Nat.min_r by exact Hge.
      rewrite !firstn_all2 by lia. reflexivity. }
  rewrite Hf. f_equal. f_equal.
  rewrite length_app, Hh, length_firstn. lia.
Qed.

End ChunkProducer.

Lemma make_packet_ok (pck_num : Z) (data : bytes) :
  length data = 31%nat ->
  Tx.make_packet pck_num data = Ok (byte_of (Z.land pck_num 255) :: data).
Proof.
  intros Hlen. unfold Tx.make_packet, Tx.DATA_BYTES.
  rewrite Hlen. reflexivity.
Qed.

(** C10.  [make_packet] raises ValueError exactly when the payload is not 31
    bytes long; on a 31-byte payload, whatever the integer [pck_num], it
    returns the 32 bytes made of [pck_num] reduced modulo 256 followed by
    the payload unchanged. *)
Theorem make_packet_spec (pck_num : Z) (data : bytes) :
  (Tx.make_packet pck_num data = Raise ValueError <-> length data <> 31%nat) /\
  (length data = 31%nat ->
   exists first,
     Tx.make_packet pck_num data = Ok (first :: data) /\
     byte.unsigned first = pck_num mod 256 /\
     length (first :: data) = 32%nat).
Proof.
  split.
  - unfold Tx.make_packet, Tx.DATA_BYTES.
    destruct (Nat.eqb_spec (length data) 31) as [He | Hne]; cbn [negb].
    + split; [ discriminate | intros Hn; contradiction ].
    + split; [ intros _; exact Hne | reflexivity ].
  - intros Hlen. exists (byte_of (Z.land pck_num 255)).
    split; [ apply make_packet_ok; exact Hlen | ].
    split; [ apply byte_of_land_255 | cbn [length]; lia ].
Qed.

(** C1, as the code has it: for an input of [N < 2^32] bytes the Chunk
    Producer yields one chunk when [N <= 27] and [1 + ceil((N-27)/31)]
    otherwise (one chunk for [N = 0]); every chunk is 31 bytes; chunk 0 is
    the little-endian 4-byte [N], then the first [min(27, N)] bytes, then
    zeros; chunk [k > 0] is the (up to 31) bytes at offset [27 + 31*(k-1)],
    then zeros. *)
Theorem data_for_file_chunks (data : bytes) :
  Z.of_nat (length data) < 2 ^ 32 ->
  exists chunks,
    Tx.data_for_file data = Ok chunks /\
    length chunks
    = (if (length data <=? 27)%nat then 1
       else 1 + ceil_div (length data - 27) 31)%nat /\
    Forall (fun chunk => length chunk = 31%nat) chunks /\
    nth_error chunks 0
    = Some ((le_split 4 (Z.of_nat (length data))
             ++ firstn (Nat.min 27 (length data)) data)
            ++ repeat Byte.x00 (27 - Nat.min 27 (length data))) /\
    forall k, (0 < k < length chunks)%nat ->
      let payload := firstn 31 (skipn (27 + 31 * (k - 1)) data) in
      nth_error chunks k = Some (payload ++ repeat Byte.x00 (31 - length payload)).
Proof.
  intros Hlen. unfold Tx.data_for_file.
  rewrite struct_pack_I_ok by lia.
  eexists. split; [ reflexivity | ].
  assert (Hhdr : length (le_split 4 (Z.of_nat (length data))) = 4%nat)
    by apply length_le_split.
  split; [ | split; [ | split ] ].
  - cbn [length]. rewrite rest_chunks_length.
    destruct (Nat.leb_spec (length data) 27) as [Hle | Hgt].
    + replace (length data - 27)%nat with 0%nat by lia. reflexivity.
    + reflexivity.
  - constructor; [ | apply rest_chunks_all_31 ].
    apply ljust_length. rewrite length_app, Hhdr.
    pose proof (slice_length_le 0 27 data). lia.
  - cbn [nth_error]. f_equal. apply first_chunk_shape. exact Hhdr.
  - intros k [Hk0 Hk]. cbv zeta. cbn [length] in Hk.
    destruct k as [ | k ]; [ lia | ].
    cbn [nth_error]. rewrite rest_chunks_nth by lia.
    replace (S k - 1)%nat with k by lia. reflexivity.
Qed.

(** C1 as worded fails on a stream of [2^32] bytes: [struct.pack("<I", N)]
    raises before the first chunk is yielded, so no chunk is produced. *)
Lemma data_for_file_4GiB_raises :
  let data := repeat Byte.x00 (N.to_nat 4294967296) in
  Tx.data_for_file data = Raise StructError /\
  ~ (exists chunks, Tx.data_for_file data = Ok chunks /\ (1 <= length chunks)%nat).
Proof.
  intros data.
  assert (Hrun : Tx.data_for_file data = Raise StructError).
  { unfold Tx.data_for_file.
    rewrite struct_pack_I_too_big; [ reflexivity | ].
    unfold data. rewrite repeat_length, N_nat_Z.
    apply Z.leb_le. reflexivity. }
  split; [ exact Hrun | ].
  intros (chunks & Hok & _). rewrite Hrun in Hok. discriminate.
Qed.

(* ===================================================================== *)
(** * The sender                                                          *)
(* ===================================================================== *)

Section WaitForAck.
Context {R : PyRandom}.
Import TxView.

Lemma recvfrom_timed_blocking (timeout_ms now arrival : Z) (dgram : bytes) :
  0 < timeout_ms ->
  (exists t, recvfrom_timed timeout_ms 1024 now arrival dgram
             = Received t (firstn 1024 dgram))
  \/ recvfrom_timed timeout_ms 1024 now arrival dgram = TimedOut (now + timeout_ms).
Proof.
  intros HT. unfold recvfrom_timed.
  destruct (arrival <=? now); [ left; eexists; reflexivity | ].
  destruct (Z.eqb_spec timeout_ms 0) as [He | _]; [ lia | ].
  destruct (arrival <? now + timeout_ms);
    [ left; eexists; reflexivity | right; reflexivity ].
Qed.

(** With no confirming Ack among the datagrams to come, a wait ends in a
    timeout or in a status that is neither OK nor DUPLICATE. *)
Lemma wait_for_ack_on_none_confirming (timeout_ms expected now : Z)
  (net : list (Z * bytes)) :
  0 < timeout_ms ->
  none_confirming expected net ->
  exists r t net',
    Tx.wait_for_ack_on timeout_ms expected now net = (Ok r, t, net') /\
    none_confirming expected net' /\
    forall st, r = Some st -> (st =? 0) || (st =? 1) = false.
Proof.
  intros HT. revert now.
  induction net as [ | [arrival dgram] rest IH ]; intros now Hnone.
  - cbn [Tx.wait_for_ack_on]. unfold recvfrom_idle.
    destruct (Z.eqb_spec timeout_ms 0) as [He | _]; [ lia | ].
    do 3 eexists. split; [ reflexivity | ]. split; [ constructor | discriminate ].
  - pose proof (Forall_inv Hnone) as Hhead. cbn [snd] in Hhead.
    pose proof (Forall_inv_tail Hnone) as Htail.
    cbn [Tx.wait_for_ack_on].
    destruct (recvfrom_timed_blocking now arrival dgram HT) as [[t Hr] | Hr];
      rewrite Hr.
    + unfold confirming in Hhead. unfold Tx.ACK_LEN.
      destruct (length (firstn 1024 dgram) =? 2)%nat; cbn [negb andb] in *.
      * destruct (item 0 (firstn 1024 dgram) =? Z.land expected 255);
          cbn [negb andb] in *.
        -- do 3 eexists. split; [ reflexivity | ].
           split; [ exact Htail | ].
           intros st Hst. injection Hst as <-. exact Hhead.
        -- apply IH. exact Htail.
      * apply IH. exact Htail.
    + do 3 eexists. split; [ reflexivity | ]. split; [ exact Hnone | discriminate ].
Qed.

(** A wait that returns a status consumed a matching 2-byte Ack with that
    status. *)
Lemma wait_for_ack_on_status (timeout_ms expected now : Z) (net : list (Z * bytes))
  (st t : Z) (net' : list (Z * bytes)) :
  Tx.wait_for_ack_on timeout_ms expected now net = (Ok (Some st), t, net') ->
  exists arrival dgram,
    In (arrival, dgram) net /\
    matching expected dgram = true /\
    item 1 (firstn 1024 dgram) = st.
Proof.
  revert now.
  induction net as [ | [arrival dgram] rest IH ]; intros now Hrun.
  - cbn [Tx.wait_for_ack_on] in Hrun.
    destruct (recvfrom_idle timeout_ms now); discriminate.
  - cbn [Tx.wait_for_ack_on] in Hrun.
    destruct (recvfrom_timed timeout_ms 1024 now arrival dgram) as [t0 ack | t0 | ] eqn:Hr;
      try discriminate.
    assert (Hack : ack = firstn 1024 dgram).
    { unfold recvfrom_timed in Hr.
      destruct (arrival <=? now); [ congruence | ].
      destruct (timeout_ms =? 0); [ discriminate | ].
      destruct (arrival <? now + timeout_ms); congruence. }
    subst ack. unfold Tx.ACK_LEN in Hrun.
    destruct (length (firstn 1024 dgram) =? 2)%nat eqn:Hlen; cbn [negb] in Hrun.
    + destruct (item 0 (firstn 1024 dgram) =? Z.land expected 255) eqn:Hnum;
        cbn [negb] in Hrun.
      * injection Hrun as Hst _ _.
        exists arrival, dgram. split; [ left; reflexivity | ].
        unfold matching. rewrite Hlen, Hnum. split; [ reflexivity | exact Hst ].
      * destruct (IH _ Hrun) as (a & d & Hin & Hm).
        exists a, d. split; [ right; exact Hin | exact Hm ].
    + destruct (IH _ Hrun) as (a & d & Hin & Hm).
      exists a, d. split; [ right; exact Hin | exact Hm ].
Qed.

End WaitForAck.

Section SendWithRetries.
Context {R : PyRandom}.
Import TxView.

Lemma actions_app (l1 l2 : list Tx.event) : actions (l1 ++ l2) = actions l1 ++ actions l2.
Proof. apply filter_app. Qed.

Lemma decisions_app (l1 l2 : list Tx.event) :
  decisions (l1 ++ l2) = decisions l1 ++ decisions l2.
Proof. apply flat_map_app. Qed.

Lemma marks_app (l1 l2 : list Tx.event) : marks (l1 ++ l2) = marks l1 ++ marks l2.
Proof. apply flat_map_app. Qed.

(** [wait_for_ack] touches the clock and the socket only. *)
Lemma wait_for_ack_run (cfg : Tx.config) (expected : Z) (w : Tx.world) :
  exists r t rest,
    Tx.wait_for_ack_on (Tx.RTT_TIMEOUT_MS cfg) expected (now w) (net w) = (r, t, rest) /\
    Tx.wait_for_ack cfg expected w = (r, World t (gen w) rest (vars w) (log w)).
Proof.
  unfold Tx.wait_for_ack.
  destruct (Tx.wait_for_ack_on (Tx.RTT_TIMEOUT_MS cfg) expected (now w) (net w))
    as [[r t] rest].
  exists r, t, rest. split; reflexivity.
Qed.

(** With the loss probability at 1 every Data send is suppressed. *)
Lemma simulate_send_always_drops {Rok : PyRandomOk R} (cfg : Tx.config)
  (pck_num attempt : Z) (pck : bytes) (w : Tx.world) :
  Tx.LOSS_DATA_PROB cfg = 1%float ->
  Tx.simulate_send cfg pck_num attempt pck w
  = (Ok tt, World (now w) (snd (random (gen w))) (net w) (vars w)
              (log w ++ [Tx.EvDropped pck_num attempt])).
Proof.
  intros Hp. unfold Tx.simulate_send, bind, random_random.
  pose proof (random_lt_1 (gen w)) as Hlt.
  destruct (random (gen w)) as [x g]. cbn [fst snd] in *.
  rewrite Hp, Hlt. reflexivity.
Qed.

Lemma send_attempts_all_dropped {Rok : PyRandomOk R} (cfg : Tx.config)
  (pck_num : Z) (pck : bytes) (attempts : list Z) (w : Tx.world) :
  Tx.LOSS_DATA_PROB cfg = 1%float ->
  0 < Tx.RTT_TIMEOUT_MS cfg ->
  none_confirming pck_num (net w) ->
  exists w' new,
    Tx.send_attempts cfg pck_num pck attempts w = (Ok false, w') /\
    log w' = log w ++ new /\
    actions new = map (Tx.EvDropped pck_num) attempts.
Proof.
  intros Hp HT. revert w.
  induction attempts as [ | attempt later IH ]; intros w Hnone.
  - eexists. exists [Tx.EvFailed pck_num].
    split; [ reflexivity | ]. split; reflexivity.
  - cbn [Tx.send_attempts]. unfold bind at 1.
    rewrite simulate_send_always_drops by exact Hp.
    set (w1 := World _ _ _ _ _).
    unfold bind at 1.
    destruct (wait_for_ack_run cfg pck_num w1) as (r & t & rest & Hon & ->).
    destruct (wait_for_ack_on_none_confirming (now w1) HT Hnone)
      as (st & t' & rest' & Hon' & Hnone' & Hst).
    cbn [net w1] in Hon. rewrite Hon' in Hon. injection Hon as <- <- <-.
    destruct st as [ st | ].
    + rewrite (Hst st eq_refl). unfold bind at 1, emit at 1.
      cbn [now gen net vars log w1].
      match goal with |- context [Tx.send_attempts _ _ _ _ ?w2] =>
        destruct (IH w2 Hnone') as (w' & new & Hrun & Hlog & Hact) end.
      exists w', ([Tx.EvDropped pck_num attempt; Tx.EvRetryStatus pck_num st] ++ new).
      split; [ exact Hrun | ]. split.
      * rewrite Hlog. cbn [log]. rewrite <- !app_assoc. reflexivity.
      * rewrite actions_app, Hact. reflexivity.
    + unfold bind at 1, emit at 1. cbn [now gen net vars log w1].
      match goal with |- context [Tx.send_attempts _ _ _ _ ?w2] =>
        destruct (IH w2 Hnone') as (w' & new & Hrun & Hlog & Hact) end.
      exists w', ([Tx.EvDropped pck_num attempt; Tx.EvTimeout pck_num attempt] ++ new).
      split; [ exact Hrun | ]. split.
      * rewrite Hlog. cbn [log]. rewrite <- !app_assoc. reflexivity.
      * rewrite actions_app, Hact. reflexivity.
Qed.

End SendWithRetries.

(** C2, under the two conditions it needs.  With the data-direction loss
    probability at 1 every Data send is suppressed.  If moreover the
    socket timeout is positive and none of the datagrams that reach the
    Ack socket confirms the outstanding packet, [send_with_retries] makes
    exactly [MAX_RETRIES] attempts (numbered 1 to [MAX_RETRIES], each one
    a drop) and returns failure, and [main] stops there: of the chunks
    still to come nothing is built or sent. *)
Theorem bounded_retries_then_stop {R : PyRandom} {Rok : PyRandomOk R}
  (cfg : Tx.config) (chunk : bytes) (later : list bytes)
  (pck_num sent success : Z) (w : Tx.world) :
  Tx.LOSS_DATA_PROB cfg = 1%float ->
  0 < Tx.RTT_TIMEOUT_MS cfg ->
  length chunk = 31%nat ->
  TxView.none_confirming pck_num (net w) ->
  exists pck,
    Tx.make_packet pck_num chunk = Ok pck /\
    (exists w1 new,
       Tx.send_with_retries cfg pck_num pck w = (Ok false, w1) /\
       log w1 = log w ++ new /\
       TxView.actions new
       = map (Tx.EvDropped pck_num) (range 1 (Tx.MAX_RETRIES cfg + 1)) /\
       length (TxView.actions new) = Z.to_nat (Tx.MAX_RETRIES cfg)) /\
    (exists w' new,
       Tx.main_loop cfg (chunk :: later) pck_num sent success w
       = (Ok (sent + 1, success), w') /\
       log w' = log w ++ new /\
       TxView.actions new
       = Tx.EvBuild sent pck_num pck
         :: map (Tx.EvDropped pck_num) (range 1 (Tx.MAX_RETRIES cfg + 1))).
Proof.
  intros Hp HT Hlen Hnone.
  pose proof (make_packet_ok pck_num chunk Hlen) as Hmk.
  set (first := byte_of (Z.land pck_num 255)) in *.
  exists (first :: chunk). split; [ exact Hmk | ]. split.
  - destruct (@send_attempts_all_dropped R Rok cfg pck_num (first :: chunk)
                (range 1 (Tx.MAX_RETRIES cfg + 1)) w Hp HT Hnone)
      as (w1 & new & Hrun & Hlog & Hact).
    exists w1, new. split; [ exact Hrun | ]. split; [ exact Hlog | ].
    split; [ exact Hact | ].
    rewrite Hact, length_map, range_length. f_equal. lia.
  - cbn [Tx.main_loop]. unfold bind at 1, lift at 1. rewrite Hmk.
    unfold bind at 1, emit at 1.
    set (w0 := World _ _ _ _ _).
    assert (Hnone0 : TxView.none_confirming pck_num (net w0)) by exact Hnone.
    destruct (@send_attempts_all_dropped R Rok cfg pck_num (first :: chunk)
                (range 1 (Tx.MAX_RETRIES cfg + 1)) w0 Hp HT Hnone0)
      as (w1 & new & Hrun & Hlog & Hact).
    unfold bind at 1. unfold Tx.send_with_retries. rewrite Hrun.
    cbn [negb]. unfold bind at 1, emit at 1, ret.
    eexists. exists ([Tx.EvBuild sent pck_num (first :: chunk)] ++ new ++ [Tx.EvStopEarly]).
    split; [ reflexivity | ]. split.
    + cbn [log]. rewrite Hlog. cbn [log w0]. rewrite <- !app_assoc. reflexivity.
    + rewrite !actions_app, Hact. cbn. rewrite app_nil_r. reflexivity.
Qed.

(** C3, as the code has it.  While the sender waits for the Ack of
    [expected], a 2-byte Ack that echoes another sequence number is skipped:
    nothing is logged, no attempt is used up, and [wait_for_ack] goes on
    exactly as a wait begun when that Ack was received.  The socket timeout
    applies to each receive call, so the wait starts afresh: with nothing
    else arriving it times out a full timeout after the mismatched Ack. *)
Theorem mismatched_ack_restarts_wait {R : PyRandom} (cfg : Tx.config)
  (expected arrival : Z) (dgram : bytes) (rest : list (Z * bytes)) (w : Tx.world) :
  0 < Tx.RTT_TIMEOUT_MS cfg ->
  net w = (arrival, dgram) :: rest ->
  arrival < now w + Tx.RTT_TIMEOUT_MS cfg ->
  length dgram = 2%nat ->
  item 0 dgram <> Z.land expected 255 ->
  let restarted := World (Z.max (now w) arrival) (gen w) rest (vars w) (log w) in
  Tx.wait_for_ack cfg expected w = Tx.wait_for_ack cfg expected restarted /\
  (rest = [] ->
   Tx.wait_for_ack cfg expected w
   = (Ok None, World (Z.max (now w) arrival + Tx.RTT_TIMEOUT_MS cfg)
                 (gen w) [] (vars w) (log w))).
Proof.
  intros HT Hnet Harr Hlen Hnum restarted.
  assert (Hstep :
    Tx.wait_for_ack_on (Tx.RTT_TIMEOUT_MS cfg) expected (now w) ((arrival, dgram) :: rest)
    = Tx.wait_for_ack_on (Tx.RTT_TIMEOUT_MS cfg) expected (Z.max (now w) arrival) rest).
  { assert (Hcut : firstn 1024 dgram = dgram) by (apply firstn_all2; lia).
    assert (Hrecv : recvfrom_timed (Tx.RTT_TIMEOUT_MS cfg) 1024 (now w) arrival dgram
                    = Received (Z.max (now w) arrival) dgram).
    { unfold recvfrom_timed. rewrite Hcut.
      destruct (Z.leb_spec arrival (now w)) as [Hle | Hgt].
      - rewrite Z.max_l by lia. reflexivity.
      - destruct (Z.eqb_spec (Tx.RTT_TIMEOUT_MS cfg) 0) as [He | _]; [ lia | ].
        apply Z.ltb_lt in Harr. rewrite Harr.
        rewrite Z.max_r by lia. reflexivity. }
    cbn [Tx.wait_for_ack_on]. rewrite Hrecv.
    unfold Tx.ACK_LEN. rewrite Hlen. cbn [Nat.eqb negb].
    apply Z.eqb_neq in Hnum. rewrite Hnum. reflexivity. }
  assert (Hfirst : Tx.wait_for_ack cfg expected w = Tx.wait_for_ack cfg expected restarted).
  { unfold Tx.wait_for_ack. rewrite Hnet, Hstep. reflexivity. }
  split; [ exact Hfirst | ].
  intros ->. rewrite Hfirst. unfold Tx.wait_for_ack.
  cbn [now net gen vars log restarted Tx.wait_for_ack_on]. unfold recvfrom_idle.
  destruct (Z.eqb_spec (Tx.RTT_TIMEOUT_MS cfg) 0) as [He | _]; [ lia | ].
  reflexivity.
Qed.

(** C3 as worded fails.  An attempt starts at time 0 with a 1000 ms
    timeout; an Ack for the other sequence number arrives at 900 ms and the
    matching Ack at 1500 ms.  No matching Ack arrives before the 1000 ms
    mark, yet the wait does not time out: it returns status OK at 1500 ms
    and [send_with_retries] reports the first attempt as delivered. *)
Lemma mismatched_ack_outlives_timeout :
  let acks := [(900, Demo.ack 1 0); (1500, Demo.ack 0 0)] in
  (forall a d, In (a, d) acks -> a < 0 + 1000 -> TxView.matching 0 d = false) /\
  Tx.wait_for_ack_on 1000 0 0 acks = (Ok (Some 0), 1500, []) /\
  @Tx.send_with_retries Demo.cyclic Demo.tx_all_lost 0 Demo.packet0
    (Tx.initial 12 acks)
  = (Ok true, @World Demo.cyclic _ _ 1500 13 [] tt
               [Tx.EvDropped 0 1; Tx.EvDelivered 0 1]).
Proof.
  intros acks. split; [ | split ].
  - intros a d [Hin | [Hin | []]] Ha; injection Hin as <- <-.
    + reflexivity.
    + lia.
  - reflexivity.
  - vm_compute. reflexivity.
Qed.

(* ===================================================================== *)
(** * Runs whose channel decisions follow the policy                      *)
(* ===================================================================== *)

Section PolicyTrace.
Context {R : PyRandom}.
Variables U E : Type.
Variable decision_of : E -> list decision.
Variables (p : float) (min_ms max_ms : Z).

Let M := Py.M U E.

Local Abbreviation follows c :=
  (@follows_policy R U E decision_of p min_ms max_ms _ c).

Lemma run_app (k1 k2 : nat) (g : rng) :
  Channel.run p min_ms max_ms (k1 + k2) g
  = (fst (Channel.run p min_ms max_ms k1 g)
     ++ fst (Channel.run p min_ms max_ms k2 (snd (Channel.run p min_ms max_ms k1 g))),
     snd (Channel.run p min_ms max_ms k2 (snd (Channel.run p min_ms max_ms k1 g)))).
Proof.
  revert g. induction k1 as [ | k1 IH ]; intros g.
  - cbn [Nat.add Channel.run fst snd app].
    destruct (Channel.run p min_ms max_ms k2 g). reflexivity.
  - cbn [Nat.add Channel.run].
    destruct (Channel.policy p min_ms max_ms g) as [d g1].
    rewrite IH.
    destruct (Channel.run p min_ms max_ms k1 g1) as [ds g2].
    reflexivity.
Qed.

Lemma run_length (k : nat) (g : rng) :
  length (fst (Channel.run p min_ms max_ms k g)) = k.
Proof.
  revert g. induction k as [ | k IH ]; intros g; [ reflexivity | ].
  cbn [Channel.run].
  destruct (Channel.policy p min_ms max_ms g) as [d g1].
  specialize (IH g1).
  destruct (Channel.run p min_ms max_ms k g1) as [ds g2].
  cbn [fst length] in *. f_equal. exact IH.
Qed.

(** Two prefixes of the same stream agree wherever both are defined. *)
Lemma run_nth_agree (k1 k2 : nat) (g : rng) (i : nat) (d1 d2 : decision) :
  nth_error (fst (Channel.run p min_ms max_ms k1 g)) i = Some d1 ->
  nth_error (fst (Channel.run p min_ms max_ms k2 g)) i = Some d2 ->
  d1 = d2.
Proof.
  revert k2 g i.
  induction k1 as [ | k1 IH ]; intros k2 g i H1 H2.
  - destruct i; discriminate.
  - destruct k2 as [ | k2 ]; [ destruct i; discriminate | ].
    cbn [Channel.run] in H1, H2.
    destruct (Channel.policy p min_ms max_ms g) as [d g1].
    destruct (Channel.run p min_ms max_ms k1 g1) as [ds1 g2] eqn:E1.
    destruct (Channel.run p min_ms max_ms k2 g1) as [ds2 g3] eqn:E2.
    cbn [fst] in H1, H2.
    destruct i as [ | i ]; cbn [nth_error] in H1, H2; [ congruence | ].
    apply (IH k2 g1 i); [ rewrite E1 | rewrite E2 ]; assumption.
Qed.

Lemma follows_policy_ret {A} (a : A) : follows (ret a).
Proof.
  intros w r w' Hrun. injection Hrun as <- <-.
  exists [], 0%nat. rewrite app_nil_r. repeat split.
Qed.

Lemma follows_policy_lift {A} (x : res A) : follows (lift x).
Proof.
  intros w r w' Hrun. injection Hrun as <- <-.
  exists [], 0%nat. rewrite app_nil_r. repeat split.
Qed.

Lemma follows_policy_raise {A} (e : exn) : follows (raise (A := A) e).
Proof.
  intros w r w' Hrun. injection Hrun as <- <-.
  exists [], 0%nat. rewrite app_nil_r. repeat split.
Qed.

Lemma follows_policy_emit (e : E) :
  decision_of e = [] -> follows (emit e).
Proof.
  intros He w r w' Hrun. injection Hrun as <- <-.
  exists [e], 0%nat. cbn [log gen flat_map]. rewrite He. repeat split.
Qed.

Lemma follows_policy_get_vars : follows get_vars.
Proof.
  intros w r w' Hrun. injection Hrun as <- <-.
  exists [], 0%nat. rewrite app_nil_r. repeat split.
Qed.

Lemma follows_policy_set_vars (u : U) : follows (set_vars u).
Proof.
  intros w r w' Hrun. injection Hrun as <- <-.
  exists [], 0%nat. cbn [log gen]. rewrite app_nil_r. repeat split.
Qed.

Lemma follows_policy_bind {A B} (c : M A) (k : A -> M B) :
  follows c -> (forall a, follows (k a)) -> follows (bind c k).
Proof.
  intros Hc Hk w r w' Hrun. unfold bind in Hrun.
  destruct (c w) as [[a | e] w1] eqn:Ec.
  - destruct (Hc _ _ _ Ec) as (new1 & k1 & Hlog1 & Hdec1 & Hgen1).
    destruct (Hk a _ _ _ Hrun) as (new2 & k2 & Hlog2 & Hdec2 & Hgen2).
    exists (new1 ++ new2), (k1 + k2)%nat.
    rewrite run_app. cbn [fst snd].
    rewrite <- (Hgen1 a eq_refl).
    split; [ rewrite Hlog2, Hlog1, app_assoc; reflexivity | ].
    split; [ rewrite flat_map_app, Hdec1, Hdec2; reflexivity | exact Hgen2 ].
  - injection Hrun as <- <-.
    destruct (Hc _ _ _ Ec) as (new1 & k1 & Hlog1 & Hdec1 & _).
    exists new1, k1. split; [ exact Hlog1 | ]. split; [ exact Hdec1 | discriminate ].
Qed.

End PolicyTrace.

Section SenderPolicy.
Context {R : PyRandom}.
Variable cfg : Tx.config.

Let tx_follows {A} (c : Tx.M A) : Prop :=
  follows_policy TxView.decision_of (Tx.LOSS_DATA_PROB cfg)
    (Tx.DATA_DELAY_MS_MIN cfg) (Tx.DATA_DELAY_MS_MAX cfg) c.

Lemma simulate_send_follows (pck_num attempt : Z) (pck : bytes) :
  tx_follows (Tx.simulate_send cfg pck_num attempt pck).
Proof.
  intros w r w' Hrun.
  unfold Tx.simulate_send, bind, random_random in Hrun.
  destruct (random (gen w)) as [x g1] eqn:Ex.
  destruct (x <? Tx.LOSS_DATA_PROB cfg)%float eqn:Elt.
  - injection Hrun as <- <-.
    exists [Tx.EvDropped pck_num attempt], 1%nat.
    cbn [log gen Channel.run flat_map TxView.decision_of app].
    unfold Channel.policy. rewrite Ex, Elt. repeat split.
  - unfold random_delay, bind, random_randint, time_sleep_ms in Hrun.
    cbn [gen now net vars log] in Hrun.
    destruct (Tx.DATA_DELAY_MS_MIN cfg <=? Tx.DATA_DELAY_MS_MAX cfg).
    + destruct (randint (Tx.DATA_DELAY_MS_MIN cfg) (Tx.DATA_DELAY_MS_MAX cfg) g1)
        as [d g2] eqn:Ed.
      cbn [gen now net vars log] in Hrun.
      destruct (time_error d).
      * injection Hrun as <- <-.
        exists [], 0%nat. cbn [log]. rewrite app_nil_r.
        split; [ reflexivity | ]. split; [ reflexivity | discriminate ].
      * injection Hrun as <- <-.
        exists [Tx.EvSendto pck_num attempt d pck], 1%nat.
        cbn [log gen Channel.run flat_map TxView.decision_of app].
        unfold Channel.policy. rewrite Ex, Elt, Ed. repeat split.
    + injection Hrun as <- <-.
      exists [], 0%nat. cbn [log]. rewrite app_nil_r.
      split; [ reflexivity | ]. split; [ reflexivity | discriminate ].
Qed.

Lemma wait_for_ack_follows (expected : Z) : tx_follows (Tx.wait_for_ack cfg expected).
Proof.
  intros w r w' Hrun.
  destruct (wait_for_ack_run cfg expected w) as (r0 & t & rest & _ & Hw).
  rewrite Hw in Hrun. injection Hrun as <- <-.
  exists [], 0%nat. cbn [log gen]. rewrite app_nil_r. repeat split.
Qed.

Ltac tx_silent :=
  first [ apply follows_policy_ret
        | apply follows_policy_lift
        | apply follows_policy_raise
        | apply follows_policy_emit; reflexivity
        | apply simulate_send_follows
        | apply wait_for_ack_follows ].

Lemma send_attempts_follows (pck_num : Z) (pck : bytes) (attempts : list Z) :
  tx_follows (Tx.send_attempts cfg pck_num pck attempts).
Proof.
  induction attempts as [ | attempt later IH ]; cbn [Tx.send_attempts].
  - apply follows_policy_bind; [ tx_silent | intros _; tx_silent ].
  - apply follows_policy_bind; [ tx_silent | intros _ ].
    apply follows_policy_bind; [ tx_silent | intros [ st | ] ].
    + destruct ((st =? 0) || (st =? 1)).
      * apply follows_policy_bind; [ | intros _; tx_silent ].
        destruct (st =? 0); tx_silent.
      * apply follows_policy_bind; [ tx_silent | intros _; exact IH ].
    + apply follows_policy_bind; [ tx_silent | intros _; exact IH ].
Qed.

Lemma main_loop_follows (chunks : list bytes) (pck_num sent success : Z) :
  tx_follows (Tx.main_loop cfg chunks pck_num sent success).
Proof.
  revert pck_num sent success.
  induction chunks as [ | chunk later IH ]; intros pck_num sent success;
    cbn [Tx.main_loop].
  - tx_silent.
  - apply follows_policy_bind; [ tx_silent | intros pck ].
    apply follows_policy_bind; [ tx_silent | intros _ ].
    apply follows_policy_bind; [ apply send_attempts_follows | intros success' ].
    destruct success'; cbn [negb].
    + apply IH.
    + apply follows_policy_bind; [ tx_silent | intros _; tx_silent ].
Qed.

Lemma main_body_follows (input_file : bytes) : tx_follows (Tx.main_body cfg input_file).
Proof.
  unfold Tx.main_body.
  apply follows_policy_bind; [ | intros _ ].
  { unfold Tx.settimeout. destruct (time_error (Tx.RTT_TIMEOUT_MS cfg)); tx_silent. }
  apply follows_policy_bind; [ tx_silent | intros chunks ].
  apply follows_policy_bind; [ apply main_loop_follows | intros counts ].
  apply follows_policy_bind; [ tx_silent | intros _; tx_silent ].
Qed.

(** The decisions a run of the sender logs are the first decisions of the
    policy stream of its seed. *)
Lemma tx_decisions_of_seed (seed_arg : Z) (input_file : bytes) (acks : list (Z * bytes)) :
  exists k,
    TxView.decisions (log (snd (Tx.main cfg seed_arg input_file acks)))
    = Channel.decisions (Tx.LOSS_DATA_PROB cfg) (Tx.DATA_DELAY_MS_MIN cfg)
        (Tx.DATA_DELAY_MS_MAX cfg) k (seed seed_arg).
Proof.
  unfold Tx.main.
  destruct (Tx.main_body cfg input_file (Tx.initial seed_arg acks)) as [r w'] eqn:Hrun.
  destruct (main_body_follows input_file _ Hrun) as (new & k & Hlog & Hdec & _).
  exists k. cbn [snd]. rewrite Hlog. exact Hdec.
Qed.

End SenderPolicy.

(* ===================================================================== *)
(** * Steps that log nothing of a given kind                              *)
(* ===================================================================== *)

Section Quiet.
Context {R : PyRandom}.
Variables U E X : Type.
Variable view : E -> list X.

Let M := Py.M U E.

Local Abbreviation silent c := (@quiet R U E X view _ c).

Lemma quiet_ret {A} (a : A) : silent (ret a).
Proof.
  intros w r w' Hrun. injection Hrun as <- <-.
  split; [ reflexivity | ]. exists []. rewrite app_nil_r. split; reflexivity.
Qed.

Lemma quiet_emit (e : E) : view e = [] -> silent (emit e).
Proof.
  intros He w r w' Hrun. injection Hrun as <- <-.
  split; [ reflexivity | ]. exists [e]. cbn [log flat_map]. rewrite He.
  split; reflexivity.
Qed.

Lemma quiet_random_random : silent random_random.
Proof.
  intros w r w' Hrun. unfold random_random in Hrun.
  destruct (random (gen w)) as [x g]. injection Hrun as <- <-.
  split; [ reflexivity | ]. exists []. cbn [log]. rewrite app_nil_r.
  split; reflexivity.
Qed.

Lemma quiet_bind {A B} (c : M A) (k : A -> M B) :
  silent c -> (forall a, silent (k a)) -> silent (bind c k).
Proof.
  intros Hc Hk w r w' Hrun. unfold bind in Hrun.
  destruct (c w) as [[a | e] w1] eqn:Ec.
  - destruct (Hc _ _ _ Ec) as (Hnet1 & new1 & Hlog1 & Hv1).
    destruct (Hk a _ _ _ Hrun) as (Hnet2 & new2 & Hlog2 & Hv2).
    split; [ congruence | ].
    exists (new1 ++ new2).
    split; [ rewrite Hlog2, Hlog1, app_assoc; reflexivity | ].
    rewrite flat_map_app, Hv1, Hv2. reflexivity.
  - injection Hrun as <- <-. exact (Hc _ _ _ Ec).
Qed.

Lemma quiet_random_delay (min_ms max_ms : Z) : silent (random_delay min_ms max_ms).
Proof.
  unfold random_delay. apply quiet_bind.
  - intros w r w' Hrun. unfold random_randint in Hrun.
    destruct (min_ms <=? max_ms).
    + destruct (randint min_ms max_ms (gen w)) as [d g]. injection Hrun as <- <-.
      split; [ reflexivity | ]. exists []. cbn [log]. rewrite app_nil_r.
      split; reflexivity.
    + injection Hrun as <- <-.
      split; [ reflexivity | ]. exists []. rewrite app_nil_r. split; reflexivity.
  - intros d. apply quiet_bind; [ | intros _; apply quiet_ret ].
    intros w r w' Hrun. unfold time_sleep_ms in Hrun.
    destruct (time_error d); injection Hrun as <- <-;
      (split; [ reflexivity | ]; exists []; cbn [log]; rewrite app_nil_r;
       split; reflexivity).
Qed.

End Quiet.

Section SenderMarks.
Context {R : PyRandom}.
Import TxView.
Variable cfg : Tx.config.

Lemma simulate_send_quiet (pck_num attempt : Z) (pck : bytes) :
  quiet mark_of (Tx.simulate_send cfg pck_num attempt pck).
Proof.
  unfold Tx.simulate_send.
  apply quiet_bind; [ apply quiet_random_random | intros x ].
  destruct (x <? Tx.LOSS_DATA_PROB cfg)%float.
  - apply quiet_emit. reflexivity.
  - apply quiet_bind; [ apply quiet_random_delay | intros d ].
    apply quiet_emit. reflexivity.
Qed.

(** The datagrams a wait leaves are a suffix of those it started with. *)
Lemma wait_for_ack_on_suffix (timeout_ms expected now : Z) (net : list (Z * bytes))
  (r : res (option Z)) (t : Z) (net' : list (Z * bytes)) :
  Tx.wait_for_ack_on timeout_ms expected now net = (r, t, net') ->
  exists consumed, net = consumed ++ net'.
Proof.
  revert now.
  induction net as [ | [arrival dgram] rest IH ]; intros now Hrun;
    cbn [Tx.wait_for_ack_on] in Hrun.
  - destruct (recvfrom_idle timeout_ms now); injection Hrun as _ _ <-;
      exists []; reflexivity.
  - destruct (recvfrom_timed timeout_ms 1024 now arrival dgram) as [t0 ack | t0 | ].
    + assert (Hskip : forall now0, Tx.wait_for_ack_on timeout_ms expected now0 rest
                                   = (r, t, net') ->
                      exists consumed, (arrival, dgram) :: rest = consumed ++ net').
      { intros now0 H0. destruct (IH _ H0) as (consumed & ->).
        exists ((arrival, dgram) :: consumed). reflexivity. }
      destruct (negb (length ack =? Tx.ACK_LEN)%nat); [ exact (Hskip _ Hrun) | ].
      destruct (negb (item 0 ack =? Z.land expected 255)); [ exact (Hskip _ Hrun) | ].
      injection Hrun as _ _ <-. exists [(arrival, dgram)]. reflexivity.
    + injection Hrun as _ _ <-. exists []. reflexivity.
    + injection Hrun as _ _ <-. exists []. reflexivity.
Qed.

(** What [send_with_retries] contributes: a confirmation mark exactly when
    it returns [True], and then a confirming Ack was among the datagrams. *)
Lemma send_attempts_marks (pck_num : Z) (pck : bytes) (attempts : list Z)
  (w : Tx.world) (r : res bool) (w' : Tx.world) :
  Tx.send_attempts cfg pck_num pck attempts w = (r, w') ->
  exists new,
    log w' = log w ++ new /\
    marks new = match r with Ok true => [Confirmed pck_num] | _ => [] end /\
    (exists consumed, net w = consumed ++ net w') /\
    (r = Ok true ->
     exists arrival dgram, In (arrival, dgram) (net w) /\ confirming pck_num dgram = true).
Proof.
  revert w r w'.
  induction attempts as [ | attempt later IH ]; intros w r w' Hrun;
    cbn [Tx.send_attempts] in Hrun.
  - injection Hrun as <- <-. exists [Tx.EvFailed pck_num].
    split; [ reflexivity | ]. split; [ reflexivity | ].
    split; [ exists []; reflexivity | discriminate ].
  - unfold bind at 1 in Hrun.
    destruct (Tx.simulate_send cfg pck_num attempt pck w) as [[[] | e] w1] eqn:Esim.
    2:{ injection Hrun as <- <-.
        destruct (simulate_send_quiet _ _ _ _ Esim) as (Hnet & new & Hlog & Hm).
        exists new. split; [ exact Hlog | ]. split; [ exact Hm | ].
        split; [ exists []; symmetry; exact Hnet | discriminate ]. }
    destruct (simulate_send_quiet _ _ _ _ Esim) as (Hnet1 & new1 & Hlog1 & Hm1).
    change (marks new1 = []) in Hm1.
    unfold bind at 1 in Hrun.
    destruct (wait_for_ack_run cfg pck_num w1) as (r0 & t & rest & Hon & Hw).
    rewrite Hw in Hrun. clear Hw. rewrite Hnet1 in Hon.
    destruct (wait_for_ack_on_suffix _ _ _ _ Hon) as (consumed0 & Hsuf0).
    set (w2 := World t (gen w1) rest (vars w1) (log w1)) in *.
    assert (Hlater : forall e0 r1 w3,
      Tx.send_attempts cfg pck_num pck later
        (World (now w2) (gen w2) (net w2) (vars w2) (log w2 ++ [e0])) = (r1, w3) ->
      mark_of e0 = [] ->
      exists new,
        log w3 = log w ++ new /\
        marks new = match r1 with Ok true => [Confirmed pck_num] | _ => [] end /\
        (exists consumed, net w = consumed ++ net w3) /\
        (r1 = Ok true ->
         exists arrival dgram,
           In (arrival, dgram) (net w) /\ confirming pck_num dgram = true)).
    { intros e0 r1 w3 H3 He0.
      destruct (IH _ _ _ H3) as (new3 & Hlog3 & Hm3 & (consumed3 & Hsuf3) & Hconf3).
      cbn [log net w2] in Hlog3, Hsuf3, Hconf3.
      exists (new1 ++ [e0] ++ new3). split.
      - rewrite Hlog3, Hlog1, <- !app_assoc. reflexivity.
      - split.
        + rewrite !marks_app, Hm1, Hm3. unfold marks at 1. cbn [flat_map].
          rewrite He0. reflexivity.
        + split.
          * exists (consumed0 ++ consumed3).
            rewrite Hsuf0, Hsuf3, app_assoc. reflexivity.
          * intros Hr. destruct (Hconf3 Hr) as (a & d & Hin & Hc).
            exists a, d. split; [ | exact Hc ].
            rewrite Hsuf0. apply in_or_app. right. exact Hin. }
    destruct r0 as [[st | ] | e].
    + destruct ((st =? 0) || (st =? 1)) eqn:Est.
      * assert (Hfin : exists e0,
                  mark_of e0 = [Confirmed pck_num] /\
                  (r, w') = (Ok true, World (now w2) (gen w2) (net w2) (vars w2)
                                        (log w2 ++ [e0]))).
        { destruct (st =? 0); unfold bind, emit, ret in Hrun;
            injection Hrun as <- <-; eexists; (split; [ | reflexivity ]); reflexivity. }
        destruct Hfin as (e0 & He0 & Heq). injection Heq as -> ->.
        exists (new1 ++ [e0]). cbn [log net w2]. split.
        -- rewrite Hlog1, <- app_assoc. reflexivity.
        -- split.
           ++ rewrite marks_app, Hm1. unfold marks. cbn [flat_map app].
              rewrite He0. reflexivity.
           ++ split; [ exists consumed0; exact Hsuf0 | ].
              intros _.
              destruct (wait_for_ack_on_status _ _ _ _ Hon) as (a & d & Hin & Hmt & Hst).
              exists a, d. split; [ exact Hin | ].
              unfold confirming. unfold matching in Hmt.
              rewrite Hmt, Hst, Est. reflexivity.
      * unfold bind at 1, emit at 1 in Hrun.
        apply (Hlater _ _ _ Hrun). reflexivity.
    + unfold bind at 1, emit at 1 in Hrun.
      apply (Hlater _ _ _ Hrun). reflexivity.
    + injection Hrun as <- <-.
      exists new1. cbn [log net w2]. split; [ exact Hlog1 | ].
      split; [ exact Hm1 | ].
      split; [ exists consumed0; exact Hsuf0 | discriminate ].
Qed.

End SenderMarks.

Section SenderSequence.
Context {R : PyRandom}.
Import TxView.
Variable cfg : Tx.config.

Lemma flip_mod_2 (k : Z) : Z.lxor (k mod 2) 1 = (k + 1) mod 2.
Proof.
  pose proof (Z.mod_pos_bound k 2 ltac:(lia)) as Hk.
  assert (Hcase : k mod 2 = 0 \/ k mod 2 = 1) by lia.
  destruct Hcase as [H0 | H1].
  - rewrite H0. cbn. symmetry.
    rewrite Z.add_mod, H0 by lia. reflexivity.
  - rewrite H1. cbn. symmetry.
    rewrite Z.add_mod, H1 by lia. reflexivity.
Qed.

(** The loop of [main] from chunk [sent] on: chunks are built and confirmed
    in turn, each under (chunk index mod 2); at most the last chunk built
    is left unconfirmed. *)
Lemma main_loop_marks (chunks : list bytes) (pck_num sent success : Z)
  (w : Tx.world) (r : res (Z * Z)) (w' : Tx.world) :
  Tx.main_loop cfg chunks pck_num sent success w = (r, w') ->
  pck_num = sent mod 2 ->
  exists new n tail,
    log w' = log w ++ new /\
    marks new = alternating sent n ++ tail /\
    (tail = [] \/ tail = [Built (sent + Z.of_nat n) ((sent + Z.of_nat n) mod 2)]) /\
    (forall a b, r = Ok (a, b) ->
       b = success + Z.of_nat n /\
       a = sent + Z.of_nat n + Z.of_nat (length tail)).
Proof.
  revert pck_num sent success w r w'.
  induction chunks as [ | chunk later IH ]; intros pck_num sent success w r w' Hrun Hnum;
    cbn [Tx.main_loop] in Hrun.
  - injection Hrun as <- <-. exists [], 0%nat, [].
    rewrite app_nil_r. split; [ reflexivity | ]. split; [ reflexivity | ].
    split; [ left; reflexivity | ].
    intros a b Hab. injection Hab as <- <-. cbn [length]. lia.
  - unfold bind at 1, lift at 1 in Hrun.
    destruct (Tx.make_packet pck_num chunk) as [pck | e].
    2:{ injection Hrun as <- <-. exists [], 0%nat, [].
        rewrite app_nil_r. split; [ reflexivity | ]. split; [ reflexivity | ].
        split; [ left; reflexivity | discriminate ]. }
    unfold bind at 1, emit at 1 in Hrun.
    set (w0 := World _ _ _ _ _) in Hrun.
    unfold bind at 1 in Hrun. unfold Tx.send_with_retries in Hrun.
    destruct (Tx.send_attempts cfg pck_num pck (range 1 (Tx.MAX_RETRIES cfg + 1)) w0)
      as [r1 w1] eqn:Esend.
    destruct (send_attempts_marks _ _ _ _ _ Esend) as (new1 & Hlog1 & Hm1 & _ & _).
    cbn [log w0] in Hlog1.
    assert (Hbuilt : marks [Tx.EvBuild sent pck_num pck] = [Built sent (sent mod 2)])
      by (rewrite Hnum; reflexivity).
    destruct r1 as [[ | ] | e].
    + cbn [negb] in Hrun.
      destruct (IH _ _ _ _ _ _ Hrun) as (new2 & n & tail & Hlog2 & Hm2 & Htail & Hres).
      { rewrite Hnum. apply flip_mod_2. }
      exists ([Tx.EvBuild sent pck_num pck] ++ new1 ++ new2), (S n), tail.
      split; [ rewrite Hlog2, Hlog1, <- !app_assoc; reflexivity | ].
      split.
      * rewrite !marks_app, Hbuilt, Hm1, Hm2, Hnum. reflexivity.
      * replace (sent + Z.of_nat (S n)) with (sent + 1 + Z.of_nat n) by lia.
        split; [ exact Htail | ].
        intros a b Hab. destruct (Hres a b Hab) as [Hb Ha]. lia.
    + cbn [negb] in Hrun. unfold bind, emit, ret in Hrun.
      injection Hrun as <- <-.
      exists ([Tx.EvBuild sent pck_num pck] ++ new1 ++ [Tx.EvStopEarly]), 0%nat,
             [Built sent (sent mod 2)].
      cbn [log]. split; [ rewrite Hlog1, <- !app_assoc; reflexivity | ].
      split.
      * rewrite !marks_app, Hbuilt, Hm1. reflexivity.
      * replace (sent + Z.of_nat 0) with sent by lia.
        split; [ right; reflexivity | ].
        intros a b Hab. injection Hab as <- <-. cbn [length]. lia.
    + injection Hrun as <- <-.
      exists ([Tx.EvBuild sent pck_num pck] ++ new1), 0%nat, [Built sent (sent mod 2)].
      split; [ rewrite Hlog1, <- !app_assoc; reflexivity | ].
      split.
      * rewrite !marks_app, Hbuilt, Hm1. reflexivity.
      * replace (sent + Z.of_nat 0) with sent by lia.
        split; [ right; reflexivity | discriminate ].
Qed.

Lemma main_marks (seed_arg : Z) (input_file : bytes) (acks : list (Z * bytes))
  (r : res (Z * Z)) (w' : Tx.world) :
  Tx.main cfg seed_arg input_file acks = (r, w') ->
  exists n tail,
    marks (log w') = alternating 0 n ++ tail /\
    (tail = [] \/ tail = [Built (Z.of_nat n) (Z.of_nat n mod 2)]) /\
    (forall sent success,
       r = Ok (sent, success) ->
       success = Z.of_nat n /\ sent = Z.of_nat n + Z.of_nat (length tail)).
Proof.
  unfold Tx.main, Tx.main_body.
  set (w0 := Tx.initial seed_arg acks).
  unfold bind at 1, Tx.settimeout.
  destruct (time_error (Tx.RTT_TIMEOUT_MS cfg)).
  { intros Hrun. injection Hrun as <- <-. exists 0%nat, [].
    split; [ reflexivity | ]. split; [ left; reflexivity | discriminate ]. }
  unfold ret at 1. unfold bind at 1, lift at 1.
  destruct (Tx.data_for_file input_file) as [chunks | e].
  2:{ intros Hrun. injection Hrun as <- <-. exists 0%nat, [].
      split; [ reflexivity | ]. split; [ left; reflexivity | discriminate ]. }
  unfold bind at 1.
  destruct (Tx.main_loop cfg chunks 0 0 0 w0) as [r1 w1] eqn:Eloop.
  destruct (@main_loop_marks chunks 0 0 0 w0 r1 w1 Eloop eq_refl)
    as (new & n & tail & Hlog & Hm & Htail & Hres).
  cbn [log w0 Tx.initial app] in Hlog. rewrite Z.add_0_l in Htail.
  intros Hrun. exists n, tail.
  destruct r1 as [[a b] | e].
  - unfold bind, emit, ret in Hrun. injection Hrun as <- <-. cbn [log].
    split.
    + rewrite Hlog, marks_app, Hm. cbn. rewrite app_nil_r. reflexivity.
    + split; [ exact Htail | ].
      intros sent success Heq. injection Heq as <- <-.
      destruct (Hres a b eq_refl) as [Hb Ha]. lia.
  - injection Hrun as <- <-. rewrite Hlog.
    split; [ exact Hm | ]. split; [ exact Htail | discriminate ].
Qed.

End SenderSequence.

(** C7.  In every run of the sender the chunks are built and confirmed in
    turn: chunk 0 with sequence number 0, and chunk [k] with [k mod 2]
    (0,1,0,1,...), each built only after the one before it was confirmed;
    at most the last chunk built stays unconfirmed (failure or crash).  The
    counts [main] reports agree with that, and [send_with_retries] confirms
    a chunk (so that [pck_num] flips) only on a 2-byte Ack that echoes
    [pck_num] with status OK or DUPLICATE. *)
Theorem sequence_numbers_alternate {R : PyRandom} (cfg : Tx.config) (seed_arg : Z)
  (input_file : bytes) (acks : list (Z * bytes)) :
  (exists n tail,
     TxView.marks (log (snd (Tx.main cfg seed_arg input_file acks)))
     = TxView.alternating 0 n ++ tail /\
     (tail = [] \/ tail = [TxView.Built (Z.of_nat n) (Z.of_nat n mod 2)]) /\
     (forall sent success,
        fst (Tx.main cfg seed_arg input_file acks) = Ok (sent, success) ->
        success = Z.of_nat n /\ sent = Z.of_nat n + Z.of_nat (length tail))) /\
  (forall pck_num pck w w',
     Tx.send_with_retries cfg pck_num pck w = (Ok true, w') ->
     exists arrival dgram,
       In (arrival, dgram) (net w) /\ TxView.confirming pck_num dgram = true).
Proof.
  split.
  - destruct (Tx.main cfg seed_arg input_file acks) as [r w'] eqn:Hrun.
    cbn [fst snd]. exact (main_marks _ _ _ _ Hrun).
  - intros pck_num pck w w' Hrun. unfold Tx.send_with_retries in Hrun.
    destruct (send_attempts_marks _ _ _ _ _ Hrun) as (_ & _ & _ & _ & Hconf).
    exact (Hconf eq_refl).
Qed.

(* ===================================================================== *)
(** * The receiver                                                        *)
(* ===================================================================== *)

Section FloatOrder.

Lemma SFcompare_antisym (a b : SpecFloat.spec_float) :
  SpecFloat.SFcompare b a = option_map CompOpp (SpecFloat.SFcompare a b).
Proof.
  destruct a as [sa | sa | | sa ma ea], b as [sb | sb | | sb mb eb]; cbn;
    try reflexivity;
    try (destruct sa; reflexivity);
    try (destruct sb; reflexivity);
    try (destruct sa, sb; reflexivity).
  f_equal.
  destruct sa, sb; try reflexivity.
  - rewrite (Z.compare_antisym eb ea).
    destruct (eb ?= ea)%Z; cbn; try reflexivity.
    rewrite !Pos.compare_cont_spec, (Pos.compare_antisym ma mb).
    destruct (ma ?= mb)%positive; reflexivity.
  - rewrite (Z.compare_antisym eb ea).
    destruct (eb ?= ea)%Z; cbn; try reflexivity.
    rewrite !Pos.compare_cont_spec, (Pos.compare_antisym ma mb).
    destruct (ma ?= mb)%positive; reflexivity.
Qed.

Lemma leb_true_comparable (a b : float) :
  (a <=? b)%float = true ->
  SpecFloat.SFcompare (Prim2SF a) (Prim2SF b) <> None.
Proof.
  rewrite leb_spec. unfold SpecFloat.SFleb.
  destruct (SpecFloat.SFcompare (Prim2SF a) (Prim2SF b)); [ discriminate | discriminate ].
Qed.

Lemma SFcompare_none (a b c : SpecFloat.spec_float) :
  SpecFloat.SFcompare a b = None ->
  SpecFloat.SFcompare c a = None \/ SpecFloat.SFcompare c b = None.
Proof.
  destruct a, b, c; cbn; intros H; try discriminate; auto.
Qed.

(** On numbers (no NaN), [p <= x] is the negation of [x < p]. *)
Lemma leb_negb_ltb (p x : float) :
  (0 <=? p)%float = true ->
  (0 <=? x)%float = true ->
  (p <=? x)%float = negb (x <? p)%float.
Proof.
  intros Hp Hx.
  apply leb_true_comparable in Hp. apply leb_true_comparable in Hx.
  rewrite leb_spec, ltb_spec. unfold SpecFloat.SFleb, SpecFloat.SFltb.
  rewrite (SFcompare_antisym (Prim2SF p) (Prim2SF x)).
  destruct (SpecFloat.SFcompare (Prim2SF p) (Prim2SF x)) as [[ | | ] | ] eqn:Ec;
    try reflexivity.
  destruct (SFcompare_none _ _ (Prim2SF 0) Ec); contradiction.
Qed.

End FloatOrder.

Section ReceiverSteps.
Context {R : PyRandom}.
Import RxView.
Variable cfg : Rx.config.

Lemma echo_byte (b : byte) : byte_of (Z.land (byte.unsigned b) 255) = b.
Proof.
  apply byte.unsigned_inj. rewrite byte_of_land_255.
  pose proof (byte.unsigned_range b). apply Z.mod_small.
  change (2 ^ 8) with 256 in *. lia.
Qed.

Lemma echo_item_0 (pck : bytes) : byte_of (Z.land (item 0 pck) 255) = hd Byte.x00 pck.
Proof. unfold item. destruct pck as [ | b rest ]; cbn [nth hd]; apply echo_byte. Qed.

Lemma random_delay_inv (min_ms max_ms : Z) (w : Rx.world) (r : res Z) (w' : Rx.world) :
  random_delay min_ms max_ms w = (r, w') ->
  vars w' = vars w /\ net w' = net w /\ log w' = log w.
Proof.
  unfold random_delay, bind, random_randint, time_sleep_ms, ret. intros Hrun.
  destruct (min_ms <=? max_ms).
  - destruct (randint min_ms max_ms (gen w)) as [d g]. cbn [now gen net vars log] in Hrun.
    destruct (time_error d); injection Hrun as <- <-; repeat split.
  - injection Hrun as <- <-. repeat split.
Qed.

Lemma send_ack_inv (ack : bytes) (w : Rx.world) (r : res bool) (w' : Rx.world) :
  Rx.send_ack cfg ack w = (r, w') ->
  vars w' = vars w /\ net w' = net w /\
  exists o,
    log w' = log w ++ reply_events ack o /\
    r = match o with Dropped => Ok true | Sent _ => Ok false | Crashed e => Raise e end.
Proof.
  unfold Rx.send_ack, bind at 1, random_random. intros Hrun.
  destruct (random (gen w)) as [x g].
  destruct (x <? Rx.LOSS_ACK_PROB cfg)%float.
  - unfold bind, emit, ret in Hrun. injection Hrun as <- <-.
    split; [ reflexivity | ]. split; [ reflexivity | ].
    exists Dropped. split; reflexivity.
  - unfold bind at 1 2 in Hrun.
    set (w1 := World _ _ _ _ _) in Hrun.
    destruct (random_delay (Rx.ACK_DELAY_MS_MIN cfg) (Rx.ACK_DELAY_MS_MAX cfg) w1)
      as [[d | e] w2] eqn:Ed;
      destruct (random_delay_inv _ _ _ Ed) as (Hv & Hn & Hl).
    + unfold emit, ret in Hrun. injection Hrun as <- <-. cbn [vars net log].
      split; [ exact Hv | ]. split; [ exact Hn | ].
      exists (Sent d). rewrite Hl. split; reflexivity.
    + injection Hrun as <- <-.
      split; [ exact Hv | ]. split; [ exact Hn | ].
      exists (Crashed e). rewrite Hl. cbn [reply_events log w1]. rewrite app_nil_r.
      split; reflexivity.
Qed.

Lemma send_bad_len_ack_inv (ack : bytes) (w : Rx.world) (r : res unit) (w' : Rx.world) :
  Rx.send_bad_len_ack cfg ack w = (r, w') ->
  vars w' = vars w /\ net w' = net w /\
  exists o,
    log w' = log w ++ reply_events ack o /\
    r = match o with Crashed e => Raise e | _ => Ok tt end.
Proof.
  unfold Rx.send_bad_len_ack, bind at 1, random_random. intros Hrun.
  destruct (random (gen w)) as [x g].
  destruct (Rx.LOSS_ACK_PROB cfg <=? x)%float.
  - unfold bind at 1 in Hrun.
    set (w1 := World _ _ _ _ _) in Hrun.
    destruct (random_delay (Rx.ACK_DELAY_MS_MIN cfg) (Rx.ACK_DELAY_MS_MAX cfg) w1)
      as [[d | e] w2] eqn:Ed;
      destruct (random_delay_inv _ _ _ Ed) as (Hv & Hn & Hl).
    + unfold emit in Hrun. injection Hrun as <- <-. cbn [vars net log].
      split; [ exact Hv | ]. split; [ exact Hn | ].
      exists (Sent d). rewrite Hl. split; reflexivity.
    + injection Hrun as <- <-.
      split; [ exact Hv | ]. split; [ exact Hn | ].
      exists (Crashed e). rewrite Hl. cbn [reply_events log w1]. rewrite app_nil_r.
      split; reflexivity.
  - unfold emit in Hrun. injection Hrun as <- <-.
    split; [ reflexivity | ]. split; [ reflexivity | ].
    exists Dropped. split; reflexivity.
Qed.

(** A datagram of the wrong length: the variables are untouched, and the
    diagnostic Ack is built and handed to the loss policy. *)
Lemma loop_body_bad_len (pck : bytes) (w : Rx.world) (r : res Rx.control) (w' : Rx.world) :
  length pck <> 32%nat ->
  Rx.loop_body cfg pck w = (r, w') ->
  let ack := [hd Byte.x00 pck; Byte.x02] in
  vars w' = vars w /\ net w' = net w /\
  exists o,
    log w' = log w ++ Rx.EvAck ack :: reply_events ack o /\
    r = match o with Crashed e => Raise e | _ => Ok Rx.Continue end.
Proof.
  intros Hlen Hrun ack. unfold Rx.loop_body, Rx.DATA_PCK_LEN in Hrun.
  apply Nat.eqb_neq in Hlen. rewrite Hlen in Hrun. cbn [negb] in Hrun.
  assert (Hack : [byte_of (Z.land (if (1 <=? length pck)%nat then item 0 pck else 0) 255);
                  byte_of 2] = ack).
  { unfold ack. f_equal.
    destruct pck as [ | b rest ]; [ reflexivity | ].
    cbn [length Nat.leb hd]. apply (echo_item_0 (b :: rest)). }
  rewrite Hack in Hrun.
  unfold bind at 1, emit at 1 in Hrun.
  set (w1 := World _ _ _ _ _) in Hrun.
  unfold bind in Hrun.
  destruct (Rx.send_bad_len_ack cfg ack w1) as [r2 w2] eqn:Esend.
  destruct (send_bad_len_ack_inv _ _ Esend) as (Hv & Hn & o & Hl & Hr).
  cbn [vars net log w1] in Hv, Hn, Hl.
  assert (Hw : w' = w2) by (destruct r2; injection Hrun as _ <-; reflexivity).
  subst w'. split; [ exact Hv | ]. split; [ exact Hn | ].
  exists o. split; [ rewrite Hl, <- app_assoc; reflexivity | ].
  subst r2. destruct o; unfold ret in Hrun; injection Hrun as <-; reflexivity.
Qed.

End ReceiverSteps.

Ltac rx_unfold H :=
  cbv [Rx.accept_new Rx.modify Rx.out_f_write Rx.out_f_close
       bind ret get_vars set_vars lift emit raise
       Rx.set_last_delivered_pck_num Rx.set_expected_total_len
       Rx.set_bytes_written Rx.set_done
       vars now gen net log
       Rx.expected_total_len Rx.bytes_written Rx.out_f_closed Rx.out_f Rx.done
       Rx.last_delivered_pck_num] in H.

Ltac rx_fields :=
  cbn [vars now gen net log
       Rx.expected_total_len Rx.bytes_written Rx.out_f_closed Rx.out_f Rx.done
       Rx.last_delivered_pck_num].

Section ReceiverAccept.
Context {R : PyRandom}.
Import RxView.
Variable cfg : Rx.config.

Lemma take_len_le (k : Z) (b : bytes) : 0 <= k -> len (take k b) <= k.
Proof.
  intros Hk. unfold len, take.
  pose proof (firstn_le_length (Z.to_nat k) b). lia.
Qed.

Lemma struct_unpack_I_header (data : bytes) :
  length data = 31%nat ->
  exists total, 0 <= total /\ struct_unpack_I (take 4 data) = Ok total.
Proof.
  intros Hlen. unfold struct_unpack_I, take.
  assert (H4 : length (firstn (Z.to_nat 4) data) = 4%nat)
    by (rewrite length_firstn, Hlen; reflexivity).
  rewrite H4. cbn [Nat.eqb].
  eexists. split; [ | reflexivity ].
  apply le_combine_bound.
Qed.

(** What accepting a new packet does to the variables and the log. *)
Lemma accept_new_inv (pck_num : Z) (data : bytes) (w : Rx.world)
  (r : res unit) (w' : Rx.world) :
  length data = 31%nat ->
  Rx.accept_new pck_num data w = (r, w') ->
  net w' = net w /\ gen w' = gen w /\
  Rx.last_delivered_pck_num (vars w') = Some pck_num /\
  exists total,
    (Rx.expected_total_len (vars w) = None -> 0 <= total) /\
    Rx.expected_total_len (vars w') = Some total /\
    (forall L, Rx.expected_total_len (vars w) = Some L -> L = total) /\
    ((r = Raise ValueError /\
      Rx.out_f_closed (vars w) = true /\
      Rx.bytes_written (vars w') = Rx.bytes_written (vars w) /\
      Rx.out_f (vars w') = Rx.out_f (vars w) /\
      Rx.done (vars w') = Rx.done (vars w) /\
      Rx.out_f_closed (vars w') = true /\
      log w' = log w)
     \/
     (r = Ok tt /\
      Rx.out_f_closed (vars w) = false /\
      exists to_write,
        len to_write <= Z.max 0 (total - Rx.bytes_written (vars w)) /\
        Rx.bytes_written (vars w') = Rx.bytes_written (vars w) + len to_write /\
        Rx.out_f (vars w') = Rx.out_f (vars w) ++ to_write /\
        ((total <= Rx.bytes_written (vars w') /\
          Rx.done (vars w') = true /\ Rx.out_f_closed (vars w') = true /\
          log w' = log w ++ [Rx.EvAccepted pck_num (len to_write); Rx.EvComplete pck_num])
         \/
         (Rx.bytes_written (vars w') < total /\
          Rx.done (vars w') = false /\ Rx.out_f_closed (vars w') = false /\
          log w' = log w ++ [Rx.EvAccepted pck_num (len to_write)])))).
Proof.
  intros Hlen Hrun.
  destruct (struct_unpack_I_header data Hlen) as (total0 & Htotal0 & Hunpack).
  destruct w as [t g n [last expected written finished content closed] l].
  rx_fields.
  destruct expected as [total | ].
  - (* the total length is already known *)
    destruct closed.
    + rx_unfold Hrun. injection Hrun as <- <-. rx_fields.
      do 3 (split; [ reflexivity | ]). exists total.
      split; [ discriminate | ]. split; [ reflexivity | ].
      split; [ intros L HL; congruence | ].
      left. repeat split.
    + rx_unfold Hrun.
      set (to_write := take (Z.max 0 (total - written)) data) in *.
      assert (Hle : len to_write <= Z.max 0 (total - written))
        by (apply take_len_le; lia).
      destruct (Z.leb_spec total (written + len to_write)) as [Hdone | Hmore];
        rx_unfold Hrun; injection Hrun as <- <-; rx_fields;
        (do 3 (split; [ reflexivity | ])); exists total;
        (split; [ discriminate | ]); (split; [ reflexivity | ]);
        (split; [ intros L HL; congruence | ]);
        right; (split; [ reflexivity | ]); (split; [ reflexivity | ]);
        exists to_write; (split; [ exact Hle | ]);
        (split; [ reflexivity | ]); (split; [ reflexivity | ]).
      * left. split; [ exact Hdone | ]. split; [ reflexivity | ].
        split; [ reflexivity | ]. rewrite <- app_assoc. reflexivity.
      * right. repeat split. exact Hmore.
  - (* first packet: the payload starts with the total length *)
    rx_unfold Hrun. rewrite Hunpack in Hrun.
    destruct closed.
    + rx_unfold Hrun. injection Hrun as <- <-. rx_fields.
      do 3 (split; [ reflexivity | ]). exists total0.
      split; [ intros _; exact Htotal0 | ]. split; [ reflexivity | ].
      split; [ discriminate | ].
      left. repeat split.
    + rx_unfold Hrun.
      set (to_write := take (Z.max 0 (total0 - written)) (skipn 4 data)) in *.
      assert (Hle : len to_write <= Z.max 0 (total0 - written))
        by (apply take_len_le; lia).
      destruct (Z.leb_spec total0 (written + len to_write)) as [Hdone | Hmore];
        rx_unfold Hrun; injection Hrun as <- <-; rx_fields;
        (do 3 (split; [ reflexivity | ])); exists total0;
        (split; [ intros _; exact Htotal0 | ]); (split; [ reflexivity | ]);
        (split; [ discriminate | ]);
        right; (split; [ reflexivity | ]); (split; [ reflexivity | ]);
        exists to_write; (split; [ exact Hle | ]);
        (split; [ reflexivity | ]); (split; [ reflexivity | ]).
      * left. split; [ exact Hdone | ]. split; [ reflexivity | ].
        split; [ reflexivity | ]. rewrite <- app_assoc. reflexivity.
      * right. repeat split. exact Hmore.
Qed.

End ReceiverAccept.

Section ReceiverPacket.
Context {R : PyRandom}.
Import RxView.
Variable cfg : Rx.config.

(** A 32-byte packet that repeats the last delivered sequence number: the
    variables are untouched and a DUPLICATE Ack is built and handed to the
    loss policy; the loop is left only if the file was complete and the Ack
    went out. *)
Lemma loop_body_duplicate (pck : bytes) (w : Rx.world) (r : res Rx.control)
  (w' : Rx.world) :
  length pck = 32%nat ->
  Rx.last_delivered_pck_num (vars w) = Some (item 0 pck) ->
  Rx.loop_body cfg pck w = (r, w') ->
  let ack := [hd Byte.x00 pck; Byte.x01] in
  vars w' = vars w /\ net w' = net w /\
  exists o,
    log w' = log w ++ [Rx.EvDuplicate (item 0 pck); Rx.EvAck ack] ++ reply_events ack o /\
    r = match o with
        | Dropped => Ok Rx.Continue
        | Sent _ => Ok (if Rx.done (vars w) then Rx.Break else Rx.Continue)
        | Crashed e => Raise e
        end.
Proof.
  intros Hlen Hlast Hrun ack. unfold Rx.loop_body, Rx.DATA_PCK_LEN in Hrun.
  rewrite Hlen in Hrun. cbn [Nat.eqb negb] in Hrun.
  unfold bind at 1, get_vars at 1 in Hrun.
  unfold Rx.is_last_delivered in Hrun. rewrite Hlast, Z.eqb_refl in Hrun.
  unfold bind at 1 2, emit at 1, ret at 1 in Hrun.
  rewrite echo_item_0 in Hrun. change (byte_of 1) with Byte.x01 in Hrun.
  fold ack in Hrun.
  unfold bind at 1, emit at 1 in Hrun.
  set (w1 := World _ _ _ _ _) in Hrun.
  unfold bind at 1 in Hrun.
  destruct (Rx.send_ack cfg ack w1) as [r2 w2] eqn:Esend.
  destruct (send_ack_inv _ _ _ Esend) as (Hv & Hn & o & Hl & Hr).
  cbn [vars net log w1] in Hv, Hn, Hl.
  assert (Hw : w' = w2).
  { destruct r2; [ | injection Hrun as _ <-; reflexivity ].
    unfold bind, get_vars, ret in Hrun.
    destruct (Rx.done (vars w2) && negb a); injection Hrun as _ <-; reflexivity. }
  subst w'. split; [ exact Hv | ]. split; [ exact Hn | ].
  exists o. split; [ rewrite Hl, <- !app_assoc; reflexivity | ].
  subst r2. destruct o; unfold bind, get_vars, ret in Hrun; rewrite ?Hv in Hrun.
  - rewrite andb_false_r in Hrun. injection Hrun as <-. reflexivity.
  - rewrite andb_true_r in Hrun.
    destruct (Rx.done (vars w)); injection Hrun as <-; reflexivity.
  - injection Hrun as <-. reflexivity.
Qed.

(** A 32-byte packet with another sequence number: it is accepted as new
    data, then an OK Ack is built and handed to the loss policy. *)
Lemma loop_body_new (pck : bytes) (w : Rx.world) (r : res Rx.control) (w' : Rx.world) :
  length pck = 32%nat ->
  Rx.last_delivered_pck_num (vars w) <> Some (item 0 pck) ->
  Rx.loop_body cfg pck w = (r, w') ->
  let ack := [hd Byte.x00 pck; Byte.x00] in
  exists r1 w1,
    Rx.accept_new (item 0 pck) (skipn 1 pck) w = (r1, w1) /\
    ((exists e, r1 = Raise e /\ r = Raise e /\ w' = w1)
     \/
     (r1 = Ok tt /\ vars w' = vars w1 /\ net w' = net w1 /\
      exists o,
        log w' = log w1 ++ Rx.EvAck ack :: reply_events ack o /\
        r = match o with
            | Dropped => Ok Rx.Continue
            | Sent _ => Ok (if Rx.done (vars w1) then Rx.Break else Rx.Continue)
            | Crashed e => Raise e
            end)).
Proof.
  intros Hlen Hlast Hrun ack. unfold Rx.loop_body, Rx.DATA_PCK_LEN in Hrun.
  rewrite Hlen in Hrun. cbn [Nat.eqb negb] in Hrun.
  unfold bind at 1, get_vars at 1 in Hrun.
  assert (Hnot : Rx.is_last_delivered (vars w) (item 0 pck) = false).
  { unfold Rx.is_last_delivered.
    destruct (Rx.last_delivered_pck_num (vars w)) as [l | ]; [ | reflexivity ].
    apply Z.eqb_neq. congruence. }
  rewrite Hnot in Hrun.
  unfold bind at 1 2 in Hrun.
  destruct (Rx.accept_new (item 0 pck) (skipn 1 pck) w) as [r1 w1] eqn:Eacc.
  exists r1, w1. split; [ reflexivity | ].
  destruct r1 as [[] | e].
  2:{ left. exists e. injection Hrun as <- <-. repeat split. }
  right. split; [ reflexivity | ].
  unfold ret at 1 in Hrun.
  rewrite echo_item_0 in Hrun. change (byte_of 0) with Byte.x00 in Hrun.
  fold ack in Hrun.
  unfold bind at 1, emit at 1 in Hrun.
  set (w2 := World _ _ _ _ _) in Hrun.
  unfold bind at 1 in Hrun.
  destruct (Rx.send_ack cfg ack w2) as [r3 w3] eqn:Esend.
  destruct (send_ack_inv _ _ _ Esend) as (Hv & Hn & o & Hl & Hr).
  cbn [vars net log w2] in Hv, Hn, Hl.
  assert (Hw : w' = w3).
  { destruct r3; [ | injection Hrun as _ <-; reflexivity ].
    unfold bind, get_vars, ret in Hrun.
    destruct (Rx.done (vars w3) && negb a); injection Hrun as _ <-; reflexivity. }
  subst w'. split; [ exact Hv | ]. split; [ exact Hn | ].
  exists o. split; [ rewrite Hl, <- !app_assoc; reflexivity | ].
  subst r3. destruct o; unfold bind, get_vars, ret in Hrun; rewrite ?Hv in Hrun.
  - rewrite andb_false_r in Hrun. injection Hrun as <-. reflexivity.
  - rewrite andb_true_r in Hrun.
    destruct (Rx.done (vars w1)); injection Hrun as <-; reflexivity.
  - injection Hrun as <-. reflexivity.
Qed.

(** [recvfrom] hands over the datagram, cut to 4096 bytes, and removes it
    from the datagrams still to come; nothing else changes. *)
Lemma receive_one_inv (arrival : Z) (dgram : bytes) (later : list (Z * bytes))
  (w : Rx.world) (r : res Rx.control) (w' : Rx.world) :
  Rx.receive_one cfg arrival dgram later w = (r, w') ->
  exists w0,
    vars w0 = vars w /\ log w0 = log w /\ gen w0 = gen w /\ net w0 = later /\
    Rx.loop_body cfg (firstn 4096 dgram) w0 = (r, w').
Proof.
  unfold Rx.receive_one, bind, Rx.recvfrom. intros Hrun.
  eexists. split; [ | split; [ | split; [ | split; [ | exact Hrun ] ] ] ]; reflexivity.
Qed.

Lemma cut_length_32 (dgram : bytes) :
  length (firstn 4096 dgram) = 32%nat <-> length dgram = 32%nat.
Proof. rewrite length_firstn. lia. Qed.

Lemma cut_hd (dgram : bytes) : hd Byte.x00 (firstn 4096 dgram) = hd Byte.x00 dgram.
Proof. destruct dgram; reflexivity. Qed.

Lemma cut_item_0 (dgram : bytes) : item 0 (firstn 4096 dgram) = item 0 dgram.
Proof. destruct dgram; reflexivity. Qed.

End ReceiverPacket.

(* ===================================================================== *)
(** * The receive loop: reachable states and invariants                   *)
(* ===================================================================== *)

Section ReceiverInvariants.
Context {R : PyRandom}.
Import RxView.
Variable cfg : Rx.config.

Lemma completes_app (l1 l2 : list Rx.event) :
  completes (l1 ++ l2) = completes l1 ++ completes l2.
Proof. apply flat_map_app. Qed.

Lemma completes_reply (ack : bytes) (o : reply) : completes (reply_events ack o) = [].
Proof. destruct o; reflexivity. Qed.

Lemma option_eq_dec_Z (a b : option Z) : {a = b} + {a <> b}.
Proof. decide equality. apply Z.eq_dec. Qed.

Lemma byte_of_item_0 (pck : bytes) :
  length pck = 32%nat -> byte_of (item 0 pck) = hd Byte.x00 pck.
Proof.
  destruct pck as [ | b rest ]; [ discriminate | ]. intros _.
  unfold item, byte_of. cbn [nth hd]. apply byte.of_Z_unsigned.
Qed.

(** One iteration, whatever the datagram and however it ends, keeps the
    session counters consistent and never changes a known total length;
    it also leaves the datagrams to come as [recvfrom] left them. *)
Lemma receive_one_session (arrival : Z) (dgram : bytes) (later : list (Z * bytes))
  (w : Rx.world) (r : res Rx.control) (w' : Rx.world) :
  session_ok (vars w) ->
  Rx.receive_one cfg arrival dgram later w = (r, w') ->
  session_ok (vars w') /\
  (forall total, Rx.expected_total_len (vars w) = Some total ->
                 Rx.expected_total_len (vars w') = Some total) /\
  net w' = later.
Proof.
  intros [Hin Hzero] Hrun.
  destruct (receive_one_inv _ _ _ _ _ Hrun) as (w0 & Hv0 & Hl0 & _ & Hn0 & Hbody).
  rewrite <- Hv0 in Hin, Hzero |- *. clear Hrun.
  set (pck := firstn 4096 dgram) in *.
  destruct (Nat.eq_dec (length pck) 32) as [Hlen | Hlen].
  - destruct (option_eq_dec_Z (Rx.last_delivered_pck_num (vars w0)) (Some (item 0 pck)))
      as [Hdup | Hnew].
    + destruct (loop_body_duplicate _ _ _ Hlen Hdup Hbody) as (Hv & Hn & _).
      rewrite Hv, Hn. split; [ split; assumption | ]. split; [ auto | exact Hn0 ].
    + destruct (loop_body_new _ _ _ Hlen Hnew Hbody) as (r1 & w1 & Hacc & Hcases).
      assert (Hdata : length (skipn 1 pck) = 31%nat) by (rewrite length_skipn; lia).
      destruct (accept_new_inv _ _ _ Hdata Hacc)
        as (Hn1 & _ & _ & total & Hpos & Hexp & Hsame & Hres).
      assert (Hgoal1 : session_ok (vars w1) /\
                (forall L, Rx.expected_total_len (vars w0) = Some L ->
                           Rx.expected_total_len (vars w1) = Some L)).
      { split.
        - split; [ | congruence ].
          intros L HL. rewrite Hexp in HL. injection HL as <-.
          assert (Hbefore : Rx.bytes_written (vars w0) <= total).
          { destruct (Rx.expected_total_len (vars w0)) as [L0 | ] eqn:E0.
            - rewrite <- (Hsame L0 eq_refl). apply Hin. exact E0.
            - rewrite (Hzero eq_refl). apply Hpos. reflexivity. }
          destruct Hres as [(_ & _ & Hw & _) | (_ & _ & tw & Hle & Hw & _)]; lia.
        - intros L HL. rewrite Hexp, (Hsame L HL). reflexivity. }
      destruct Hcases as [(e & _ & _ & ->) | (_ & Hv & Hn & _)].
      * split; [ apply Hgoal1 | ]. split; [ apply Hgoal1 | congruence ].
      * rewrite Hv. split; [ apply Hgoal1 | ]. split; [ apply Hgoal1 | congruence ].
  - destruct (loop_body_bad_len _ _ _ Hlen Hbody) as (Hv & Hn & _).
    rewrite Hv, Hn. split; [ split; assumption | ]. split; [ auto | exact Hn0 ].
Qed.

End ReceiverInvariants.

Section ReceiverCompletion.
Context {R : PyRandom}.
Import RxView.
Variable cfg : Rx.config.

Lemma completion_ok_ext (w w0 : Rx.world) :
  vars w0 = vars w -> log w0 = log w -> completion_ok w -> completion_ok w0.
Proof. unfold completion_ok. intros -> ->. exact (fun H => H). Qed.

(** An iteration that does not raise keeps flag, file and log in agreement;
    and it leaves the loop only on a 32-byte packet whose OK or DUPLICATE
    Ack was sent while the file was complete. *)
Lemma receive_one_completion (arrival : Z) (dgram : bytes) (later : list (Z * bytes))
  (w : Rx.world) (c : Rx.control) (w' : Rx.world) :
  completion_ok w ->
  Rx.receive_one cfg arrival dgram later w = (Ok c, w') ->
  completion_ok w' /\
  (c = Rx.Break ->
   Rx.done (vars w') = true /\
   exists seq st d pre,
     (st = 0 \/ st = 1) /\
     Rx.last_delivered_pck_num (vars w') = Some seq /\
     log w' = pre ++ [Rx.EvAckSent [byte_of seq; byte_of st] d]).
Proof.
  intros Hok Hrun.
  destruct (receive_one_inv _ _ _ _ _ Hrun) as (w0 & Hv0 & Hl0 & _ & _ & Hbody).
  apply (@completion_ok_ext w w0 Hv0 Hl0) in Hok. clear Hrun Hv0 Hl0.
  set (pck := firstn 4096 dgram) in *.
  destruct (Nat.eq_dec (length pck) 32) as [Hlen | Hlen].
  - destruct (option_eq_dec_Z (Rx.last_delivered_pck_num (vars w0)) (Some (item 0 pck)))
      as [Hdup | Hnew].
    + (* duplicate *)
      destruct (loop_body_duplicate _ _ _ Hlen Hdup Hbody) as (Hv & _ & o & Hl & Hr).
      assert (Hc : completes (log w') = completes (log w0)).
      { rewrite Hl, !completes_app, completes_reply. cbn. apply app_nil_r. }
      split.
      * unfold completion_ok. rewrite Hv, Hc. exact Hok.
      * intros ->. destruct o as [ | d | e ]; try discriminate.
        destruct (Rx.done (vars w0)) eqn:Edone; [ | discriminate ].
        rewrite Hv. split; [ exact Edone | ].
        exists (item 0 pck), 1, d,
               (log w0 ++ [Rx.EvDuplicate (item 0 pck);
                           Rx.EvAck [hd Byte.x00 pck; Byte.x01]]).
        split; [ right; reflexivity | ]. split; [ exact Hdup | ].
        rewrite Hl, (byte_of_item_0 _ Hlen), <- !app_assoc. reflexivity.
    + (* new data *)
      destruct (loop_body_new _ _ _ Hlen Hnew Hbody) as (r1 & w1 & Hacc & Hcases).
      assert (Hdata : length (skipn 1 pck) = 31%nat) by (rewrite length_skipn; lia).
      destruct (accept_new_inv _ _ _ Hdata Hacc)
        as (_ & _ & Hlast & total & _ & Hexp & _ & Hres).
      destruct Hcases as [(e & _ & He & _) | (-> & Hv & _ & o & Hl & Hr)];
        [ discriminate | ].
      destruct Hres as [(Hbad & _) | (_ & Hopen & tw & _ & _ & _ & Hfin)];
        [ discriminate | ].
      assert (Hfresh : completes (log w0) = []).
      { destruct Hok as [Hd Hnd].
        destruct (Rx.done (vars w0)) eqn:Edone.
        - destruct (Hd eq_refl) as (Hclosed & _). congruence.
        - apply (Hnd eq_refl). }
      assert (Hc : completes (log w') = completes (log w1)).
      { rewrite Hl. change (?a :: ?l) with ([a] ++ l).
        rewrite !completes_app, completes_reply. cbn. apply app_nil_r. }
      destruct Hfin as [(Hfull & Hdone & Hclosed & Hlog1) | (Hpart & Hdone & Hclosed & Hlog1)].
      * assert (Hc1 : completes (log w1) = [item 0 pck]).
        { rewrite Hlog1, completes_app, Hfresh. reflexivity. }
        split.
        -- unfold completion_ok. rewrite Hv, Hc, Hdone. split; [ | discriminate ].
           intros _. split; [ exact Hclosed | ]. split.
           ++ exists total. split; assumption.
           ++ exists (item 0 pck). split; assumption.
        -- intros ->. destruct o as [ | d | e ]; try discriminate.
           rewrite Hv. split; [ exact Hdone | ].
           exists (item 0 pck), 0, d, (log w1 ++ [Rx.EvAck [hd Byte.x00 pck; Byte.x00]]).
           split; [ left; reflexivity | ]. split; [ exact Hlast | ].
           rewrite Hl, (byte_of_item_0 _ Hlen), <- !app_assoc. reflexivity.
      * assert (Hc1 : completes (log w1) = []).
        { rewrite Hlog1, completes_app, Hfresh. reflexivity. }
        split.
        -- unfold completion_ok. rewrite Hv, Hc, Hdone. split; [ discriminate | ].
           intros _. split; [ exact Hclosed | ]. split; [ exact Hc1 | ].
           intros (t & Ht & Hle). rewrite Hexp in Ht. injection Ht as <-. lia.
        -- intros ->. destruct o as [ | d | e ]; try discriminate.
           rewrite Hdone in Hr. discriminate.
  - (* wrong length *)
    destruct (loop_body_bad_len _ _ _ Hlen Hbody) as (Hv & _ & o & Hl & Hr).
    assert (Hc : completes (log w') = completes (log w0)).
    { rewrite Hl. change (?a :: ?l) with ([a] ++ l).
      rewrite !completes_app, completes_reply. cbn. apply app_nil_r. }
    split.
    + unfold completion_ok. rewrite Hv, Hc. exact Hok.
    + intros ->. destruct o; discriminate.
Qed.

Lemma running_session_ok (w : Rx.world) : running cfg w -> session_ok (vars w).
Proof.
  induction 1 as [ seed_arg arrivals | w arrival dgram later w' _ IH _ Hstep ].
  - split; [ intros total H; discriminate | reflexivity ].
  - apply (@receive_one_session _ cfg arrival dgram later w _ _ IH Hstep).
Qed.

Lemma running_completion_ok (w : Rx.world) : running cfg w -> completion_ok w.
Proof.
  induction 1 as [ seed_arg arrivals | w arrival dgram later w' _ IH _ Hstep ].
  - split; [ discriminate | intros _ ].
    split; [ reflexivity | ]. split; [ reflexivity | ].
    intros (t & Ht & _). discriminate.
  - apply (@receive_one_completion arrival dgram later w _ _ IH Hstep).
Qed.

(** One unfolding of the loop. *)
Lemma main_loop_cons (arrival : Z) (dgram : bytes) (later : list (Z * bytes))
  (w : Rx.world) :
  Rx.main_loop cfg ((arrival, dgram) :: later) w
  = match Rx.receive_one cfg arrival dgram later w with
    | (Ok Rx.Continue, w1) => Rx.main_loop cfg later w1
    | (Ok Rx.Break, w1) => (Ok Rx.Stopped, w1)
    | (Raise e, w1) => (Raise e, w1)
    end.
Proof.
  cbn [Rx.main_loop]. unfold bind at 1.
  destruct (Rx.receive_one cfg arrival dgram later w) as [[[ | ] | e] w1]; reflexivity.
Qed.

(** How a run of the loop ends: blocked in [recvfrom] in a running world,
    or in the world that the last iteration (from a running world) left,
    by [break] or by an exception. *)
Lemma main_loop_ends (w : Rx.world) (r : res Rx.outcome) (w' : Rx.world) :
  running cfg w ->
  Rx.main_loop cfg (net w) w = (r, w') ->
  (r = Ok Rx.Listening /\ running cfg w')
  \/
  (exists w0 arrival dgram later r0,
     running cfg w0 /\
     net w0 = (arrival, dgram) :: later /\
     Rx.receive_one cfg arrival dgram later w0 = (r0, w') /\
     ((r0 = Ok Rx.Break /\ r = Ok Rx.Stopped) \/ (exists e, r0 = Raise e /\ r = Raise e))).
Proof.
  remember (net w) as arrivals eqn:Hnet. revert w Hnet.
  induction arrivals as [ | [arrival dgram] later IH ]; intros w Hnet Hrun Hloop.
  - cbn [Rx.main_loop] in Hloop.
    injection Hloop as <- <-. left. split; [ reflexivity | exact Hrun ].
  - rewrite main_loop_cons in Hloop.
    destruct (Rx.receive_one cfg arrival dgram later w) as [[[ | ] | e] w1] eqn:Estep.
    + (* Continue *)
      assert (Hrun1 : running cfg w1)
        by exact (@running_continue _ cfg w arrival dgram later w1 Hrun (eq_sym Hnet) Estep).
      destruct (@receive_one_session _ cfg arrival dgram later w _ _
                  (@running_session_ok w Hrun) Estep)
        as (_ & _ & Hnet1).
      apply (IH w1 (eq_sym Hnet1) Hrun1 Hloop).
    + (* Break *)
      injection Hloop as <- <-. right.
      exists w, arrival, dgram, later, (Ok Rx.Break).
      split; [ exact Hrun | ]. split; [ symmetry; exact Hnet | ].
      split; [ exact Estep | left; split; reflexivity ].
    + injection Hloop as <- <-. right.
      exists w, arrival, dgram, later, (Raise e).
      split; [ exact Hrun | ]. split; [ symmetry; exact Hnet | ].
      split; [ exact Estep | right; exists e; split; reflexivity ].
Qed.

End ReceiverCompletion.

(** C5.  Processing a datagram whose length is not 32 bytes leaves every
    variable of the receiver as it was (expected total length, bytes
    written, last delivered sequence number, output bytes), whatever the
    datagram holds; the receiver builds the Ack [first byte or 0; 2]
    (BAD_LENGTH) and hands it to the loss policy, and stays in the loop. *)
Theorem bad_length_never_mutates {R : PyRandom} (cfg : Rx.config)
  (arrival : Z) (dgram : bytes) (later : list (Z * bytes))
  (w : Rx.world) (r : res Rx.control) (w' : Rx.world) :
  length dgram <> 32%nat ->
  Rx.receive_one cfg arrival dgram later w = (r, w') ->
  let seq := match dgram with b :: _ => byte.unsigned b | [] => 0 end in
  let ack := [byte_of seq; byte_of 2] in
  vars w' = vars w /\
  RxView.same_session (vars w) (vars w') /\
  exists o,
    log w' = log w ++ Rx.EvAck ack :: RxView.reply_events ack o /\
    r = match o with RxView.Crashed e => Raise e | _ => Ok Rx.Continue end.
Proof.
  intros Hlen Hrun seq ack.
  destruct (receive_one_inv _ _ _ _ _ Hrun) as (w0 & Hv0 & Hl0 & _ & _ & Hbody).
  assert (Hcut : length (firstn 4096 dgram) <> 32%nat)
    by (rewrite cut_length_32; exact Hlen).
  destruct (loop_body_bad_len _ _ _ Hcut Hbody) as (Hv & _ & o & Hl & Hr).
  assert (Hack : [hd Byte.x00 (firstn 4096 dgram); Byte.x02] = ack).
  { unfold ack, seq. rewrite cut_hd. f_equal.
    destruct dgram as [ | b rest ]; [ reflexivity | ].
    cbn [hd]. symmetry. apply byte.of_Z_unsigned. }
  rewrite Hack in Hl. rewrite Hv0 in Hv. rewrite Hl0 in Hl.
  split; [ exact Hv | ].
  split; [ unfold RxView.same_session; rewrite Hv; repeat split | ].
  exists o. split; [ exact Hl | exact Hr ].
Qed.


(** C6.  In every state the receiver reaches -- the states in which the
    loop is about to receive, the state any single iteration leaves behind
    (also when it leaves the loop or raises), and the state a whole run of
    [main] ends in -- [bytes_written] does not exceed the expected total
    length once that is known; and no iteration changes an expected total
    length that is known. *)
Theorem session_invariant {R : PyRandom} (cfg : Rx.config) :
  (forall seed_arg arrivals,
     RxView.within_total (vars (snd (Rx.main cfg seed_arg arrivals)))) /\
  (forall w,
     running cfg w ->
     RxView.within_total (vars w) /\
     forall arrival dgram later r w',
       Rx.receive_one cfg arrival dgram later w = (r, w') ->
       RxView.within_total (vars w') /\
       forall total,
         Rx.expected_total_len (vars w) = Some total ->
         Rx.expected_total_len (vars w') = Some total).
Proof.
  assert (Hstep : forall w, running cfg w ->
            forall arrival dgram later r w',
              Rx.receive_one cfg arrival dgram later w = (r, w') ->
              RxView.within_total (vars w') /\
              forall total,
                Rx.expected_total_len (vars w) = Some total ->
                Rx.expected_total_len (vars w') = Some total).
  { intros w Hrun arrival dgram later r w' Hone.
    destruct (@receive_one_session _ cfg arrival dgram later w r w'
                (running_session_ok Hrun) Hone) as ((Hin & _) & Hkeep & _).
    split; assumption. }
  split.
  - intros seed_arg arrivals. unfold Rx.main.
    destruct (Rx.main_loop cfg arrivals (Rx.initial seed_arg arrivals)) as [r w'] eqn:Hloop.
    cbn [snd].
    destruct (@main_loop_ends _ cfg (Rx.initial seed_arg arrivals) r w'
                (running_initial cfg seed_arg arrivals) Hloop)
      as [(_ & Hrun) | (w0 & arrival & dgram & later & r0 & Hrun & _ & Hone & _)].
    + apply (running_session_ok Hrun).
    + apply (Hstep w0 Hrun _ _ _ _ _ Hone).
  - intros w Hrun. split; [ apply (running_session_ok Hrun) | exact (Hstep w Hrun) ].
Qed.

Section FinalAck.
Context {R : PyRandom}.
Import RxView.
Variable cfg : Rx.config.

(** In a running world the data is complete exactly when [done] is set. *)
Lemma running_done_iff (w : Rx.world) :
  running cfg w -> (Rx.done (vars w) = true <-> data_complete (vars w)).
Proof.
  intros Hrun. destruct (running_completion_ok Hrun) as [Hd Hnd].
  split.
  - intros H. apply (Hd H).
  - intros Hc. destruct (Rx.done (vars w)); [ reflexivity | ].
    destruct (Hnd eq_refl) as (_ & _ & Hno). contradiction.
Qed.

(** The last thing an iteration logged tells how its Ack fared. *)
Lemma reply_dropped_last (ack ack' : bytes) (o : reply) (before new : list Rx.event) :
  before ++ Rx.EvAck ack :: reply_events ack o = new ++ [Rx.EvAckDropped ack'] ->
  o = Dropped.
Proof.
  destruct o as [ | d | e ]; cbn [reply_events]; intros H; [ reflexivity | | ].
  - change (before ++ Rx.EvAck ack :: [Rx.EvAckSent ack d])
      with (before ++ [Rx.EvAck ack] ++ [Rx.EvAckSent ack d]) in H.
    rewrite app_assoc in H. apply app_inj_tail in H. destruct H as [_ H]. discriminate.
  - change (before ++ [Rx.EvAck ack]) with (before ++ [Rx.EvAck ack]) in H.
    apply app_inj_tail in H. destruct H as [_ H]. discriminate.
Qed.

(** An iteration whose last logged event is a dropped Ack goes on. *)
Lemma dropped_ack_continues (arrival : Z) (dgram : bytes) (later : list (Z * bytes))
  (w : Rx.world) (r : res Rx.control) (w' : Rx.world) (new : list Rx.event) (ack : bytes) :
  Rx.receive_one cfg arrival dgram later w = (r, w') ->
  log w' = log w ++ new ++ [Rx.EvAckDropped ack] ->
  r = Ok Rx.Continue.
Proof.
  intros Hrun Hlog.
  destruct (receive_one_inv _ _ _ _ _ Hrun) as (w0 & _ & Hl0 & _ & _ & Hbody).
  rewrite <- Hl0 in Hlog. clear Hrun.
  set (pck := firstn 4096 dgram) in *.
  destruct (Nat.eq_dec (length pck) 32) as [Hlen | Hlen].
  - destruct (option_eq_dec_Z (Rx.last_delivered_pck_num (vars w0)) (Some (item 0 pck)))
      as [Hdup | Hnew].
    + destruct (loop_body_duplicate _ _ _ Hlen Hdup Hbody) as (_ & _ & o & Hl & Hr).
      rewrite Hl in Hlog. apply app_inv_head in Hlog.
      change ([Rx.EvDuplicate (item 0 pck); Rx.EvAck [hd Byte.x00 pck; Byte.x01]]
              ++ reply_events [hd Byte.x00 pck; Byte.x01] o)
        with ([Rx.EvDuplicate (item 0 pck)]
              ++ Rx.EvAck [hd Byte.x00 pck; Byte.x01]
                 :: reply_events [hd Byte.x00 pck; Byte.x01] o) in Hlog.
      apply reply_dropped_last in Hlog. subst o. exact Hr.
    + destruct (loop_body_new _ _ _ Hlen Hnew Hbody) as (r1 & w1 & Hacc & Hcases).
      assert (Hdata : length (skipn 1 pck) = 31%nat) by (rewrite length_skipn; lia).
      destruct (accept_new_inv _ _ _ Hdata Hacc)
        as (_ & _ & _ & total & _ & _ & _ & Hres).
      destruct Hcases as [(e & -> & _ & ->) | (-> & _ & _ & o & Hl & Hr)].
      * destruct Hres as [(_ & _ & _ & _ & _ & _ & Hl1) | (Hbad & _)];
          [ | discriminate ].
        rewrite Hl1 in Hlog. rewrite <- (app_nil_r (log w0)) in Hlog at 1.
        apply app_inv_head in Hlog. destruct new; discriminate.
      * destruct Hres as [(Hbad & _) | (_ & _ & tw & _ & _ & _ & Hfin)];
          [ discriminate | ].
        assert (Hl1 : exists mid, log w1 = log w0 ++ mid).
        { destruct Hfin as [(_ & _ & _ & H) | (_ & _ & _ & H)];
            eexists; exact H. }
        destruct Hl1 as (mid & Hl1).
        rewrite Hl, Hl1, <- app_assoc in Hlog. apply app_inv_head in Hlog.
        apply reply_dropped_last in Hlog. subst o. exact Hr.
  - destruct (loop_body_bad_len _ _ _ Hlen Hbody) as (_ & _ & o & Hl & Hr).
    rewrite Hl in Hlog. apply app_inv_head in Hlog.
    change (Rx.EvAck ?a :: ?l) with ([] ++ Rx.EvAck a :: l) in Hlog.
    apply reply_dropped_last in Hlog. subst o. exact Hr.
Qed.

End FinalAck.

(** X15.  The exits of the receiver loop by [break].  (1) When a run of
    the receiver returns -- the loop was left by [break], not by an
    exception -- the data is complete
    ([bytes_written >= expected_total_len]) and the last thing it did was
    to send -- not drop -- an Ack with status OK or DUPLICATE that echoes
    the sequence number of the packet that completed the file.  (2) An
    iteration that ends with its Ack dropped never leaves the loop: the
    receiver goes on receiving.  (3) While the loop runs with the data
    complete, a 32-byte retransmission of the completing packet changes
    nothing, is answered with a DUPLICATE Ack attempt, and ends the loop
    exactly if that Ack is sent. *)
Theorem loop_ends_only_on_sent_final_ack {R : PyRandom} (cfg : Rx.config) :
  (forall seed_arg arrivals w',
     Rx.main cfg seed_arg arrivals = (Ok Rx.Stopped, w') ->
     RxView.data_complete (vars w') /\
     exists seq st d before,
       (st = 0 \/ st = 1) /\
       RxView.completes (log w') = [seq] /\
       log w' = before ++ [Rx.EvAckSent [byte_of seq; byte_of st] d]) /\
  (forall w arrival dgram later r w' new ack,
     running cfg w ->
     net w = (arrival, dgram) :: later ->
     Rx.receive_one cfg arrival dgram later w = (r, w') ->
     log w' = log w ++ new ++ [Rx.EvAckDropped ack] ->
     r = Ok Rx.Continue /\ running cfg w') /\
  (forall w,
     running cfg w ->
     RxView.data_complete (vars w) ->
     exists seq,
       RxView.completes (log w) = [seq] /\
       forall arrival dgram later r w',
         length dgram = 32%nat ->
         item 0 dgram = seq ->
         Rx.receive_one cfg arrival dgram later w = (r, w') ->
         let ack := [byte_of seq; byte_of 1] in
         vars w' = vars w /\
         exists o,
           log w' = log w ++ [Rx.EvDuplicate seq; Rx.EvAck ack]
                          ++ RxView.reply_events ack o /\
           r = match o with
               | RxView.Dropped => Ok Rx.Continue
               | RxView.Sent _ => Ok Rx.Break
               | RxView.Crashed e => Raise e
               end).
Proof.
  split; [ | split ].
  - intros seed_arg arrivals w' Hmain. unfold Rx.main in Hmain.
    destruct (@main_loop_ends _ cfg (Rx.initial seed_arg arrivals) _ w'
                (running_initial cfg seed_arg arrivals) Hmain)
      as [(Hr & _) | (w0 & arrival & dgram & later & r0 & Hrun & _ & Hone & Hend)];
      [ discriminate | ].
    destruct Hend as [(-> & _) | (e & _ & He)]; [ | discriminate ].
    destruct (@receive_one_completion _ cfg arrival dgram later w0 _ w'
                (running_completion_ok Hrun) Hone) as (Hok & Hbreak).
    destruct (Hbreak eq_refl) as (Hdone & seq & st & d & before & Hst & Hlast & Hlog).
    destruct (proj1 Hok Hdone) as (_ & Hcomplete & c & Hc & Hcs).
    split; [ exact Hcomplete | ].
    exists seq, st, d, before. split; [ exact Hst | ].
    split; [ | exact Hlog ].
    rewrite Hcs. congruence.
  - intros w arrival dgram later r w' new ack Hrun Hnet Hone Hlog.
    assert (Hr : r = Ok Rx.Continue)
      by exact (@dropped_ack_continues _ cfg arrival dgram later w r w' new ack Hone Hlog).
    split; [ exact Hr | ]. subst r.
    exact (@running_continue _ cfg w arrival dgram later w' Hrun Hnet Hone).
  - intros w Hrun Hcomplete.
    assert (Hdone : Rx.done (vars w) = true)
      by (apply (running_done_iff Hrun); exact Hcomplete).
    destruct (proj1 (running_completion_ok Hrun) Hdone) as (_ & _ & seq & Hlast & Hcs).
    exists seq. split; [ exact Hcs | ].
    intros arrival dgram later r w' Hlen Hseq Hone ack.
    destruct (receive_one_inv _ _ _ _ _ Hone) as (w0 & Hv0 & Hl0 & _ & _ & Hbody).
    assert (Hcut : length (firstn 4096 dgram) = 32%nat)
      by (rewrite cut_length_32; exact Hlen).
    assert (Hlast0 : Rx.last_delivered_pck_num (vars w0)
                     = Some (item 0 (firstn 4096 dgram)))
      by (rewrite Hv0, cut_item_0, Hseq; exact Hlast).
    destruct (loop_body_duplicate _ _ _ Hcut Hlast0 Hbody) as (Hv & _ & o & Hl & Hr).
    rewrite <- (byte_of_item_0 _ Hcut), cut_item_0, Hseq in Hl.
    rewrite Hv0 in Hv, Hr. rewrite Hl0 in Hl. rewrite Hdone in Hr.
    split; [ exact Hv | ]. exists o. split; [ exact Hl | exact Hr ].
Qed.

Section ReceiverPolicy.
Context {R : PyRandom} {Rok : PyRandomOk R}.
Variable cfg : Rx.config.
Hypothesis loss_is_a_probability : (0 <=? Rx.LOSS_ACK_PROB cfg)%float = true.

Let rx_follows {A} (c : Rx.M A) : Prop :=
  follows_policy RxView.decision_of (Rx.LOSS_ACK_PROB cfg)
    (Rx.ACK_DELAY_MS_MIN cfg) (Rx.ACK_DELAY_MS_MAX cfg) c.

(** The two ways the receiver consults the policy, for a drop test [dropped]
    that agrees with [x < LOSS_ACK_PROB]. *)
Lemma reply_follows {A} (ack : bytes) (test : float -> bool) (result : bool -> A) :
  (forall g, test (fst (random g)) = (fst (random g) <? Rx.LOSS_ACK_PROB cfg)%float) ->
  rx_follows
    (x <- random_random ;;
     (if test x
      then emit (Rx.EvAckDropped ack)
      else d <- random_delay (Rx.ACK_DELAY_MS_MIN cfg) (Rx.ACK_DELAY_MS_MAX cfg) ;;
           emit (Rx.EvAckSent ack d)) ;;;
     ret (result (test x))).
Proof.
  intros Htest w r w' Hrun.
  unfold bind at 1, random_random in Hrun.
  pose proof (Htest (gen w)) as Ht.
  destruct (random (gen w)) as [x g1] eqn:Ex. cbn [fst] in Ht.
  destruct (test x) eqn:Etest.
  - unfold bind, emit, ret in Hrun. injection Hrun as <- <-.
    exists [Rx.EvAckDropped ack], 1%nat.
    cbn [log gen Channel.run flat_map RxView.decision_of app].
    unfold Channel.policy. rewrite Ex, <- Ht. repeat split.
  - unfold bind at 1 2, random_delay, bind, random_randint, time_sleep_ms in Hrun.
    cbn [gen now net vars log] in Hrun.
    destruct (Rx.ACK_DELAY_MS_MIN cfg <=? Rx.ACK_DELAY_MS_MAX cfg).
    + destruct (randint (Rx.ACK_DELAY_MS_MIN cfg) (Rx.ACK_DELAY_MS_MAX cfg) g1)
        as [d g2] eqn:Ed.
      cbn [gen now net vars log] in Hrun.
      destruct (time_error d).
      * injection Hrun as <- <-.
        exists [], 0%nat. cbn [log]. rewrite app_nil_r.
        split; [ reflexivity | ]. split; [ reflexivity | discriminate ].
      * unfold emit, ret in Hrun. injection Hrun as <- <-.
        exists [Rx.EvAckSent ack d], 1%nat.
        cbn [log gen Channel.run flat_map RxView.decision_of app].
        unfold Channel.policy. rewrite Ex, <- Ht, Ed. repeat split.
    + injection Hrun as <- <-.
      exists [], 0%nat. cbn [log]. rewrite app_nil_r.
      split; [ reflexivity | ]. split; [ reflexivity | discriminate ].
Qed.

Lemma send_ack_follows (ack : bytes) : rx_follows (Rx.send_ack cfg ack).
Proof.
  exact (@reply_follows bool ack (fun x => (x <? Rx.LOSS_ACK_PROB cfg)%float)
           (fun b => b) (fun g => eq_refl)).
Qed.

Lemma send_bad_len_ack_follows (ack : bytes) : rx_follows (Rx.send_bad_len_ack cfg ack).
Proof.
  pose proof (@reply_follows unit ack
                (fun x => negb (Rx.LOSS_ACK_PROB cfg <=? x)%float) (fun _ => tt)) as H.
  assert (Htest : forall g,
            negb (Rx.LOSS_ACK_PROB cfg <=? fst (random g))%float
            = (fst (random g) <? Rx.LOSS_ACK_PROB cfg)%float).
  { intros g.
    rewrite (@leb_negb_ltb (Rx.LOSS_ACK_PROB cfg) (fst (random g))
               loss_is_a_probability (random_ge_0 g)).
    apply negb_involutive. }
  specialize (H Htest).
  intros w r w' Hrun. apply (H w r w'). clear H.
  rewrite <- Hrun. unfold Rx.send_bad_len_ack, bind, random_random.
  destruct (random (gen w)) as [x g1].
  destruct (Rx.LOSS_ACK_PROB cfg <=? x)%float; cbn [negb].
  - match goal with |- context [random_delay ?a ?b ?w0] =>
      destruct (random_delay a b w0) as [[d | e] w2] end; reflexivity.
  - reflexivity.
Qed.

Ltac rx_silent :=
  first [ apply follows_policy_ret
        | apply follows_policy_lift
        | apply follows_policy_raise
        | apply follows_policy_get_vars
        | apply follows_policy_set_vars
        | apply follows_policy_emit; reflexivity
        | apply send_ack_follows
        | apply send_bad_len_ack_follows ].

Lemma modify_follows (f : Rx.state -> Rx.state) : rx_follows (Rx.modify f).
Proof.
  unfold Rx.modify. apply follows_policy_bind; [ rx_silent | intros s; rx_silent ].
Qed.

Lemma out_f_write_follows (data : bytes) : rx_follows (Rx.out_f_write data).
Proof.
  unfold Rx.out_f_write. apply follows_policy_bind; [ rx_silent | intros s ].
  destruct (Rx.out_f_closed s); rx_silent.
Qed.

Lemma accept_new_follows (pck_num : Z) (data : bytes) :
  rx_follows (Rx.accept_new pck_num data).
Proof.
  unfold Rx.accept_new.
  apply follows_policy_bind; [ apply modify_follows | intros _ ].
  apply follows_policy_bind; [ rx_silent | intros s ].
  apply follows_policy_bind.
  - destruct (Rx.expected_total_len s) as [total | ].
    + apply follows_policy_bind; [ apply out_f_write_follows | intros _ ].
      apply follows_policy_bind; [ apply modify_follows | intros _; rx_silent ].
    + apply follows_policy_bind; [ rx_silent | intros total ].
      apply follows_policy_bind; [ apply modify_follows | intros _ ].
      apply follows_policy_bind; [ apply out_f_write_follows | intros _ ].
      apply follows_policy_bind; [ apply modify_follows | intros _; rx_silent ].
  - intros _. apply follows_policy_bind; [ rx_silent | intros s' ].
    destruct (Rx.expected_total_len s') as [total | ]; [ | apply modify_follows ].
    destruct (total <=? Rx.bytes_written s'); [ | apply modify_follows ].
    apply follows_policy_bind; [ rx_silent | intros _ ].
    apply follows_policy_bind; [ apply modify_follows | intros _; apply modify_follows ].
Qed.

Lemma loop_body_follows (pck : bytes) : rx_follows (Rx.loop_body cfg pck).
Proof.
  unfold Rx.loop_body.
  destruct (negb (length pck =? Rx.DATA_PCK_LEN)%nat).
  - apply follows_policy_bind; [ rx_silent | intros _ ].
    apply follows_policy_bind; [ rx_silent | intros _; rx_silent ].
  - apply follows_policy_bind; [ rx_silent | intros s ].
    apply follows_policy_bind.
    + destruct (Rx.is_last_delivered s (item 0 pck)).
      * apply follows_policy_bind; [ rx_silent | intros _; rx_silent ].
      * apply follows_policy_bind; [ apply accept_new_follows | intros _; rx_silent ].
    + intros status.
      apply follows_policy_bind; [ rx_silent | intros _ ].
      apply follows_policy_bind; [ rx_silent | intros ack_dropped ].
      apply follows_policy_bind; [ rx_silent | intros s' ].
      destruct (Rx.done s' && negb ack_dropped); rx_silent.
Qed.

Lemma rx_main_loop_follows (arrivals : list (Z * bytes)) :
  rx_follows (Rx.main_loop cfg arrivals).
Proof.
  induction arrivals as [ | [arrival dgram] later IH ]; cbn [Rx.main_loop].
  - rx_silent.
  - apply follows_policy_bind.
    + unfold Rx.receive_one.
      apply follows_policy_bind; [ | intros pck; apply loop_body_follows ].
      intros w r w' Hrun. unfold Rx.recvfrom in Hrun. injection Hrun as <- <-.
      exists [], 0%nat. cbn [log gen]. rewrite app_nil_r. repeat split.
    + intros [ | ]; [ exact IH | rx_silent ].
Qed.

(** The decisions a run of the receiver logs are the first decisions of
    the policy stream of its seed. *)
Lemma rx_decisions_of_seed (seed_arg : Z) (arrivals : list (Z * bytes)) :
  exists k,
    RxView.decisions (log (snd (Rx.main cfg seed_arg arrivals)))
    = Channel.decisions (Rx.LOSS_ACK_PROB cfg) (Rx.ACK_DELAY_MS_MIN cfg)
        (Rx.ACK_DELAY_MS_MAX cfg) k (seed seed_arg).
Proof.
  unfold Rx.main.
  destruct (Rx.main_loop cfg arrivals (Rx.initial seed_arg arrivals)) as [r w'] eqn:Hrun.
  destruct (rx_main_loop_follows arrivals _ Hrun) as (new & k & Hlog & Hdec & _).
  exists k. cbn [snd]. rewrite Hlog. exact Hdec.
Qed.

End ReceiverPolicy.

(** C9.  With the seed, the loss probability and the delay bounds fixed,
    the drop/deliver decisions of a run (with their delays) are the first
    decisions of one stream that the seed alone determines: decision [i]
    is the policy applied to the generator state that decisions [0..i-1]
    left, whatever the input file, the inbound traffic and its timing.  So
    two runs of the sender, or of the receiver, make the same [i]-th
    decision whenever both make one, and over the same input they make the
    same decisions and end with the same result and output.  (The loss
    probability is a number from 0 up; the receiver tests it in two ways
    that differ on NaN.) *)
Theorem decisions_are_a_function_of_the_seed {R : PyRandom} {Rok : PyRandomOk R} :
  (forall cfg seed_arg input_file acks,
     let made := TxView.decisions (log (snd (Tx.main cfg seed_arg input_file acks))) in
     made = Channel.decisions (Tx.LOSS_DATA_PROB cfg) (Tx.DATA_DELAY_MS_MIN cfg)
              (Tx.DATA_DELAY_MS_MAX cfg) (length made) (seed seed_arg)) /\
  (forall cfg seed_arg arrivals,
     (0 <=? Rx.LOSS_ACK_PROB cfg)%float = true ->
     let made := RxView.decisions (log (snd (Rx.main cfg seed_arg arrivals))) in
     made = Channel.decisions (Rx.LOSS_ACK_PROB cfg) (Rx.ACK_DELAY_MS_MIN cfg)
              (Rx.ACK_DELAY_MS_MAX cfg) (length made) (seed seed_arg)) /\
  (forall cfg seed_arg file1 acks1 file2 acks2 i d1 d2,
     nth_error (TxView.decisions (log (snd (Tx.main cfg seed_arg file1 acks1)))) i = Some d1 ->
     nth_error (TxView.decisions (log (snd (Tx.main cfg seed_arg file2 acks2)))) i = Some d2 ->
     d1 = d2) /\
  (forall cfg seed_arg arrivals1 arrivals2 i d1 d2,
     (0 <=? Rx.LOSS_ACK_PROB cfg)%float = true ->
     nth_error (RxView.decisions (log (snd (Rx.main cfg seed_arg arrivals1)))) i = Some d1 ->
     nth_error (RxView.decisions (log (snd (Rx.main cfg seed_arg arrivals2)))) i = Some d2 ->
     d1 = d2) /\
  (forall cfg seed_arg arrivals run1 run2,
     run1 = Rx.main cfg seed_arg arrivals ->
     run2 = Rx.main cfg seed_arg arrivals ->
     RxView.decisions (log (snd run1)) = RxView.decisions (log (snd run2)) /\
     Rx.out_f (vars (snd run1)) = Rx.out_f (vars (snd run2)) /\
     fst run1 = fst run2).
Proof.
  split; [ | split; [ | split; [ | split ] ] ].
  - intros cfg seed_arg input_file acks made.
    destruct (tx_decisions_of_seed cfg seed_arg input_file acks) as (k & Hk).
    fold made in Hk. rewrite Hk at 2. unfold Channel.decisions in *.
    rewrite run_length. exact Hk.
  - intros cfg seed_arg arrivals Hp made.
    destruct (rx_decisions_of_seed cfg Hp seed_arg arrivals) as (k & Hk).
    fold made in Hk. rewrite Hk at 2. unfold Channel.decisions in *.
    rewrite run_length. exact Hk.
  - intros cfg seed_arg file1 acks1 file2 acks2 i d1 d2 H1 H2.
    destruct (tx_decisions_of_seed cfg seed_arg file1 acks1) as (k1 & Hk1).
    destruct (tx_decisions_of_seed cfg seed_arg file2 acks2) as (k2 & Hk2).
    rewrite Hk1 in H1. rewrite Hk2 in H2.
    exact (run_nth_agree _ _ _ _ _ _ _ H1 H2).
  - intros cfg seed_arg arrivals1 arrivals2 i d1 d2 Hp H1 H2.
    destruct (rx_decisions_of_seed cfg Hp seed_arg arrivals1) as (k1 & Hk1).
    destruct (rx_decisions_of_seed cfg Hp seed_arg arrivals2) as (k2 & Hk2).
    rewrite Hk1 in H1. rewrite Hk2 in H2.
    exact (run_nth_agree _ _ _ _ _ _ _ H1 H2).
  - intros cfg seed_arg arrivals run1 run2 -> ->. repeat split.
Qed.

(* ===================================================================== *)
(** * Further properties: what the chunks carry                           *)
(* ===================================================================== *)

Section ChunkStream.

(** The payloads of the later chunks, cut to what is left of the stream,
    are the stream from [offset] on. *)
Lemma rest_chunks_concat (data_r : bytes) (total_len offset : nat) :
  total_len = length data_r ->
  firstn (total_len - offset) (concat (Tx.rest_chunks data_r total_len offset))
  = skipn offset data_r.
Proof.
  funelim (Tx.rest_chunks data_r total_len offset); intros Hlen.
  - cbn [concat]. unfold ljust, slice.
    replace (offset + 31 - offset)%nat with 31%nat by lia.
    set (piece := firstn 31 (skipn offset data_r)).
    assert (Hpiece : length piece = Nat.min 31 (total_len - offset)).
    { unfold piece. rewrite length_firstn, length_skipn. lia. }
    destruct (Nat.le_gt_cases 31 (total_len - offset)) as [Hfull | Hlast].
    + replace (31 - length piece)%nat with 0%nat by lia.
      cbn [repeat]. rewrite app_nil_r.
      rewrite firstn_app, Hpiece, Nat.min_l by exact Hfull.
      rewrite (firstn_all2 (n := (total_len - offset)%nat) piece) by lia.
      replace (total_len - offset - 31)%nat with (total_len - (offset + 31))%nat by lia.
      match goal with IH : _ -> firstn _ _ = _ |- _ => rewrite (IH Hlen) end.
      replace (skipn (offset + 31) data_r) with (skipn 31 (skipn offset data_r))
        by (rewrite skipn_skipn; f_equal; lia).
      unfold piece. apply firstn_skipn.
    + rewrite <- app_assoc, firstn_app, Hpiece.
      rewrite Nat.min_r by lia.
      replace (total_len - offset - (total_len - offset))%nat with 0%nat by lia.
      cbn [firstn]. rewrite app_nil_r.
      rewrite firstn_all2 by lia.
      unfold piece. apply firstn_all2. rewrite length_skipn. lia.
  - replace (total_len - offset)%nat with 0%nat by lia.
    cbn [firstn]. symmetry. apply skipn_all2. lia.
Qed.

End ChunkStream.

(** X1.  The chunks carry the stream and nothing else: for a stream of
    [N < 2^32] bytes, the first four bytes of the first chunk decode
    (little-endian) to [N], and the bytes after them, through all chunks
    in order, start with the [N] bytes of the stream; what follows is
    padding. *)
Theorem chunks_carry_the_stream (data : bytes) :
  Z.of_nat (length data) < 2 ^ 32 ->
  exists first later,
    Tx.data_for_file data = Ok (first :: later) /\
    le_combine (firstn 4 first) = Z.of_nat (length data) /\
    firstn (length data) (skipn 4 (concat (first :: later))) = data.
Proof.
  intros Hlen. unfold Tx.data_for_file.
  rewrite struct_pack_I_ok by lia.
  set (header := le_split 4 (Z.of_nat (length data))).
  assert (Hhdr : length header = 4%nat) by apply length_le_split.
  do 2 eexists. split; [ reflexivity | ].
  rewrite (first_chunk_shape header data Hhdr).
  split.
  - rewrite <- !app_assoc, firstn_app, Hhdr.
    replace (4 - 4)%nat with 0%nat by reflexivity.
    rewrite firstn_O, app_nil_r, firstn_all2 by lia.
    unfold header. rewrite le_combine_split.
    apply Z.mod_small. change (2 ^ (Z.of_nat 4 * 8)) with (2 ^ 32). lia.
  - cbn [concat]. rewrite <- !app_assoc.
    rewrite skipn_app, Hhdr.
    replace (4 - 4)%nat with 0%nat by reflexivity.
    rewrite skipn_all2, skipn_O by lia. cbn [app].
    set (head := firstn (Nat.min 27 (length data)) data).
    assert (Hhead : length head = Nat.min 27 (length data)).
    { unfold head. rewrite length_firstn. lia. }
    rewrite firstn_app, Hhead.
    destruct (Nat.le_gt_cases 27 (length data)) as [Hbig | Hsmall].
    + rewrite Nat.min_l by exact Hbig.
      replace (27 - 27)%nat with 0%nat by reflexivity. cbn [repeat app].
      rewrite (@rest_chunks_concat data (length data) 27%nat eq_refl).
      rewrite firstn_all2 by lia.
      unfold head. rewrite Nat.min_l by exact Hbig.
      apply firstn_skipn.
    + rewrite Nat.min_r by lia.
      replace (length data - length data)%nat with 0%nat by lia.
      rewrite firstn_O, app_nil_r.
      rewrite firstn_all2 by lia.
      unfold head. rewrite Nat.min_r by lia. apply firstn_all.
Qed.

(* ===================================================================== *)
(** * Further properties of the receiver: the output file                 *)
(* ===================================================================== *)

Section ReceiverOutput.
Context {R : PyRandom}.
Import RxView.
Variable cfg : Rx.config.

(** Accepting a new packet while the output file is open, computed: the
    total is the known one or the header of this first payload, and what is
    written is the payload cut to what the total still allows. *)
Lemma accept_new_open (pck_num : Z) (data : bytes) (w : Rx.world) :
  Rx.out_f_closed (vars w) = false ->
  length data = 31%nat ->
  let s := vars w in
  let total := match Rx.expected_total_len s with
               | Some t => t
               | None => le_combine (firstn 4 data)
               end in
  let payload := match Rx.expected_total_len s with
                 | Some _ => data
                 | None => skipn 4 data
                 end in
  let to_write := take (Z.max 0 (total - Rx.bytes_written s)) payload in
  let written := Rx.bytes_written s + len to_write in
  let complete := total <=? written in
  Rx.accept_new pck_num data w
  = (Ok tt,
     World (now w) (gen w) (net w)
       (Rx.State (Some pck_num) (Some total) written complete
          (Rx.out_f s ++ to_write) complete)
       (log w ++ Rx.EvAccepted pck_num (len to_write)
              :: if complete then [Rx.EvComplete pck_num] else [])).
Proof.
  intros Hopen Hlen.
  destruct w as [t g n [last expected written finished content closed] l].
  cbn [vars Rx.out_f_closed] in Hopen. subst closed.
  cbv zeta. rx_fields.
  destruct expected as [total | ].
  - cbv [Rx.accept_new Rx.modify Rx.out_f_write Rx.out_f_close
         bind ret get_vars set_vars lift emit raise
         Rx.set_last_delivered_pck_num Rx.set_expected_total_len
         Rx.set_bytes_written Rx.set_done
         vars now gen net log
         Rx.expected_total_len Rx.bytes_written Rx.out_f_closed Rx.out_f Rx.done
         Rx.last_delivered_pck_num].
    destruct (total <=? written + len (take (Z.max 0 (total - written)) data));
      rewrite <- ?app_assoc; reflexivity.
  - assert (Hunpack : struct_unpack_I (take 4 data) = Ok (le_combine (firstn 4 data))).
    { unfold struct_unpack_I, take.
      change (Z.to_nat 4) with 4%nat.
      rewrite length_firstn, Hlen. reflexivity. }
    cbv [Rx.accept_new Rx.modify Rx.out_f_write Rx.out_f_close
         bind ret get_vars set_vars lift emit raise
         Rx.set_last_delivered_pck_num Rx.set_expected_total_len
         Rx.set_bytes_written Rx.set_done
         vars now gen net log
         Rx.expected_total_len Rx.bytes_written Rx.out_f_closed Rx.out_f Rx.done
         Rx.last_delivered_pck_num].
    rewrite Hunpack.
    destruct (le_combine (firstn 4 data)
              <=? written + len (take (Z.max 0 (le_combine (firstn 4 data) - written))
                                   (skipn 4 data)));
      rewrite <- ?app_assoc; reflexivity.
Qed.

(** An invariant of the iterations holds where the loop ends, however it
    ends. *)
Lemma main_loop_invariant (P : Rx.world -> Prop) :
  (forall w arrival dgram later r w',
     P w -> Rx.receive_one cfg arrival dgram later w = (r, w') -> P w') ->
  forall arrivals w r w',
    P w -> Rx.main_loop cfg arrivals w = (r, w') -> P w'.
Proof.
  intros Hstep.
  induction arrivals as [ | [arrival dgram] later IH ]; intros w r w' HP Hloop.
  - cbn [Rx.main_loop] in Hloop. injection Hloop as <- <-. exact HP.
  - rewrite main_loop_cons in Hloop.
    destruct (Rx.receive_one cfg arrival dgram later w) as [[[ | ] | e] w1] eqn:Estep;
      pose proof (Hstep _ _ _ _ _ _ HP Estep) as HP1.
    + exact (IH _ _ _ HP1 Hloop).
    + injection Hloop as <- <-. exact HP1.
    + injection Hloop as <- <-. exact HP1.
Qed.

(** Whatever the datagram and however the iteration ends, the output file
    only grows, and [bytes_written] grows by what was appended. *)
Lemma receive_one_output (arrival : Z) (dgram : bytes) (later : list (Z * bytes))
  (w : Rx.world) (r : res Rx.control) (w' : Rx.world) :
  Rx.receive_one cfg arrival dgram later w = (r, w') ->
  exists more,
    Rx.out_f (vars w') = Rx.out_f (vars w) ++ more /\
    Rx.bytes_written (vars w') = Rx.bytes_written (vars w) + len more.
Proof.
  intros Hrun.
  destruct (receive_one_inv _ _ _ _ _ Hrun) as (w0 & Hv0 & _ & _ & _ & Hbody).
  rewrite <- Hv0. clear Hrun Hv0.
  set (pck := firstn 4096 dgram) in *.
  assert (Hsame : vars w' = vars w0 ->
            exists more,
              Rx.out_f (vars w') = Rx.out_f (vars w0) ++ more /\
              Rx.bytes_written (vars w') = Rx.bytes_written (vars w0) + len more).
  { intros ->. exists []. rewrite app_nil_r. split; [ reflexivity | ].
    unfold len. cbn [length]. lia. }
  destruct (Nat.eq_dec (length pck) 32) as [Hlen | Hlen].
  - destruct (option_eq_dec_Z (Rx.last_delivered_pck_num (vars w0)) (Some (item 0 pck)))
      as [Hdup | Hnew].
    + destruct (loop_body_duplicate _ _ _ Hlen Hdup Hbody) as (Hv & _). exact (Hsame Hv).
    + destruct (loop_body_new _ _ _ Hlen Hnew Hbody) as (r1 & w1 & Hacc & Hcases).
      assert (Hdata : length (skipn 1 pck) = 31%nat) by (rewrite length_skipn; lia).
      destruct (accept_new_inv _ _ _ Hdata Hacc)
        as (_ & _ & _ & total & _ & _ & _ & Hres).
      assert (Hv : vars w' = vars w1).
      { destruct Hcases as [(e & _ & _ & ->) | (_ & Hv & _)]; [ reflexivity | exact Hv ]. }
      rewrite Hv.
      destruct Hres as [(_ & _ & Hw & Ho & _) | (_ & _ & tw & _ & Hw & Ho & _)].
      * exists []. rewrite app_nil_r. split; [ exact Ho | ].
        rewrite Hw. unfold len. cbn [length]. lia.
      * exists tw. split; assumption.
  - destruct (loop_body_bad_len _ _ _ Hlen Hbody) as (Hv & _). exact (Hsame Hv).
Qed.

End ReceiverOutput.

(** X2.  The output file only ever grows, and [bytes_written] counts its
    bytes: every iteration, however it ends, appends to the file exactly as
    many bytes as it adds to [bytes_written]; so at the end of every run the
    length of the output is [bytes_written]. *)
Theorem bytes_written_counts_the_output {R : PyRandom} (cfg : Rx.config) :
  (forall arrival dgram later w r w',
     Rx.receive_one cfg arrival dgram later w = (r, w') ->
     exists more,
       Rx.out_f (vars w') = Rx.out_f (vars w) ++ more /\
       Rx.bytes_written (vars w') = Rx.bytes_written (vars w) + len more) /\
  (forall seed_arg arrivals,
     len (Rx.out_f (vars (snd (Rx.main cfg seed_arg arrivals))))
     = Rx.bytes_written (vars (snd (Rx.main cfg seed_arg arrivals)))).
Proof.
  split.
  - intros arrival dgram later w r w' Hrun.
    exact (@receive_one_output R cfg arrival dgram later w r w' Hrun).
  - intros seed_arg arrivals. unfold Rx.main.
    destruct (Rx.main_loop cfg arrivals (Rx.initial seed_arg arrivals)) as [r w'] eqn:Hloop.
    cbn [snd].
    refine (@main_loop_invariant _ cfg
              (fun w => len (Rx.out_f (vars w)) = Rx.bytes_written (vars w))
              _ arrivals _ r w' _ Hloop).
    + intros w arrival dgram later r0 w0 HP Hrun.
      destruct (@receive_one_output R cfg arrival dgram later w r0 w0 Hrun)
        as (more & Ho & Hw).
      rewrite Ho, Hw, <- HP. unfold len. rewrite length_app. lia.
    + reflexivity.
Qed.

(** X3.  Once the file is complete it is closed, and the loop goes on only
    because the final Ack was dropped.  A 32-byte packet that then carries
    another sequence number than the completing one is taken as new data:
    the write to the closed file raises ValueError.  No Ack is built,
    nothing is logged, and [last_delivered_pck_num] is already overwritten. *)
Theorem new_packet_after_completion_raises {R : PyRandom} (cfg : Rx.config)
  (w : Rx.world) (arrival : Z) (dgram : bytes) (later : list (Z * bytes)) :
  running cfg w ->
  RxView.data_complete (vars w) ->
  length dgram = 32%nat ->
  Rx.last_delivered_pck_num (vars w) <> Some (item 0 dgram) ->
  exists w',
    Rx.receive_one cfg arrival dgram later w = (Raise ValueError, w') /\
    Rx.last_delivered_pck_num (vars w') = Some (item 0 dgram) /\
    Rx.expected_total_len (vars w') = Rx.expected_total_len (vars w) /\
    Rx.bytes_written (vars w') = Rx.bytes_written (vars w) /\
    Rx.out_f (vars w') = Rx.out_f (vars w) /\
    log w' = log w.
Proof.
  intros Hrun Hcomplete Hlen Hnew.
  assert (Hdone : Rx.done (vars w) = true)
    by (apply (running_done_iff Hrun); exact Hcomplete).
  destruct (proj1 (running_completion_ok Hrun) Hdone) as (Hclosed & _).
  destruct Hcomplete as (total & Htotal & _).
  destruct (Rx.receive_one cfg arrival dgram later w) as [r w'] eqn:Hone.
  exists w'.
  destruct (receive_one_inv _ _ _ _ _ Hone) as (w0 & Hv0 & Hl0 & _ & _ & Hbody).
  assert (Hcut : length (firstn 4096 dgram) = 32%nat)
    by (rewrite cut_length_32; exact Hlen).
  rewrite <- Hv0, <- (cut_item_0 dgram) in Hnew.
  rewrite <- Hv0 in Hclosed, Htotal. rewrite <- Hv0, <- Hl0. clear Hone Hv0 Hl0.
  destruct (loop_body_new _ _ _ Hcut Hnew Hbody) as (r1 & w1 & Hacc & Hcases).
  assert (Hdata : length (skipn 1 (firstn 4096 dgram)) = 31%nat)
    by (rewrite length_skipn; lia).
  destruct (accept_new_inv _ _ _ Hdata Hacc)
    as (_ & _ & Hlast & total' & _ & Hexp & Hsame & Hres).
  destruct Hres as [(-> & _ & Hw & Ho & _ & _ & Hl) | (_ & Hopen & _)];
    [ | congruence ].
  destruct Hcases as [(e & He & -> & ->) | (Hbad & _)]; [ | discriminate ].
  injection He as <-.
  rewrite cut_item_0 in Hlast.
  split; [ reflexivity | ]. split; [ exact Hlast | ].
  split; [ rewrite Hexp, Htotal, (Hsame total Htotal); reflexivity | ].
  split; [ exact Hw | ]. split; [ exact Ho | exact Hl ].
Qed.

Section ReceiverNeverRaises.
Context {R : PyRandom} {Rok : PyRandomOk R}.
Import RxView.
Variable cfg : Rx.config.
Hypothesis delay_bounds :
  0 <= Rx.ACK_DELAY_MS_MIN cfg <= Rx.ACK_DELAY_MS_MAX cfg /\
  Rx.ACK_DELAY_MS_MAX cfg <= INT_MAX.

(** A duration of at most [INT_MAX] milliseconds converts. *)
Lemma time_error_none (ms : Z) : 0 <= ms <= INT_MAX -> time_error ms = None.
Proof.
  unfold INT_MAX. intros [H0 H1]. unfold time_error, TIME_MAX_MS. cbn [Z.opp].
  assert (Hlow : (ms <? - 9223372036854) = false) by (apply Z.ltb_ge; lia).
  assert (Hhigh : (9223372036854 <? ms) = false) by (apply Z.ltb_ge; lia).
  assert (Hneg : (ms <? 0) = false) by (apply Z.ltb_ge; lia).
  rewrite Hlow, Hhigh, Hneg. reflexivity.
Qed.

(** With a non-empty range of non-negative delays that the platform can
    sleep, the delay never raises. *)
Lemma random_delay_returns (U E : Type) (min_ms max_ms : Z) (w : Py.world U E) :
  0 <= min_ms <= max_ms /\ max_ms <= INT_MAX ->
  exists d w', random_delay min_ms max_ms w = (Ok d, w') /\ min_ms <= d <= max_ms.
Proof.
  intros [[Hmin Hle] Hmax].
  unfold random_delay, bind, random_randint, time_sleep_ms, ret.
  apply Z.leb_le in Hle as Hle'. rewrite Hle'.
  pose proof (@randint_range R Rok min_ms max_ms (gen w) Hle) as Hd.
  destruct (randint min_ms max_ms (gen w)) as [d g]. cbn [fst] in Hd.
  cbn [now gen net vars log].
  rewrite time_error_none by lia.
  do 2 eexists. split; [ reflexivity | exact Hd ].
Qed.

Lemma send_ack_returns (ack : bytes) (w : Rx.world) (r : res bool) (w' : Rx.world) :
  Rx.send_ack cfg ack w = (r, w') -> exists dropped, r = Ok dropped.
Proof.
  unfold Rx.send_ack, bind at 1, random_random. intros Hrun.
  destruct (random (gen w)) as [x g].
  destruct (x <? Rx.LOSS_ACK_PROB cfg)%float.
  - unfold bind, emit, ret in Hrun. injection Hrun as <- _. eexists. reflexivity.
  - unfold bind at 1 2 in Hrun.
    match type of Hrun with context [random_delay _ _ ?w1] =>
      destruct (random_delay_returns w1 delay_bounds) as (d & w2 & Hd & _) end.
    rewrite Hd in Hrun. unfold emit, ret in Hrun.
    injection Hrun as <- _. eexists. reflexivity.
Qed.


(** With valid delay bounds the reply to a datagram never crashes. *)
Lemma reply_not_crashed (ack : bytes) (w : Rx.world) (r : res bool) (w' : Rx.world)
  (o : reply) :
  Rx.send_ack cfg ack w = (r, w') ->
  r = match o with Dropped => Ok true | Sent _ => Ok false | Crashed e => Raise e end ->
  forall e, o <> Crashed e.
Proof.
  intros Hrun Hr e ->. destruct (send_ack_returns _ _ Hrun) as (b & Hb). congruence.
Qed.

End ReceiverNeverRaises.

Section ReceiverRaises.
Context {R : PyRandom} {Rok : PyRandomOk R}.
Import RxView.
Variable cfg : Rx.config.
Hypothesis delay_bounds :
  0 <= Rx.ACK_DELAY_MS_MIN cfg <= Rx.ACK_DELAY_MS_MAX cfg /\
  Rx.ACK_DELAY_MS_MAX cfg <= INT_MAX.



End ReceiverRaises.


(* ===================================================================== *)
(** * Further properties: the receiver rebuilds what the sender cut up    *)
(* ===================================================================== *)

Section Reassembly.
Context {R : PyRandom}.
Import RxView Wire.
Variable cfg : Rx.config.
Variable data : bytes.

Lemma rest_chunks_more (total_len offset : nat) :
  (offset < total_len)%nat ->
  Tx.rest_chunks data total_len offset
  = ljust 31 Byte.x00 (slice offset (offset + 31) data)
    :: Tx.rest_chunks data total_len (offset + 31).
Proof.
  intros Hlt. funelim (Tx.rest_chunks data total_len offset).
  - reflexivity.
  - lia.
Qed.

Lemma rest_chunks_none (total_len offset : nat) :
  (total_len <= offset)%nat -> Tx.rest_chunks data total_len offset = [].
Proof.
  intros Hle. funelim (Tx.rest_chunks data total_len offset).
  - lia.
  - reflexivity.
Qed.

Lemma firstn_plus (A : Type) (a b : nat) (l : list A) :
  firstn (a + b) l = firstn a l ++ firstn b (skipn a l).
Proof.
  revert l. induction a as [ | a IH ]; intros l.
  - reflexivity.
  - destruct l as [ | x l ]; cbn [Nat.add firstn skipn app].
    + rewrite firstn_nil. reflexivity.
    + rewrite IH. reflexivity.
Qed.

(** A later chunk, cut to what the total still allows, is the next (up to)
    31 bytes of the stream. *)
Lemma chunk_cut (off : nat) :
  (off < length data)%nat ->
  take (Z.max 0 (Z.of_nat (length data) - Z.of_nat off))
       (ljust 31 Byte.x00 (slice off (off + 31) data))
  = firstn 31 (skipn off data).
Proof.
  intros Hlt. unfold take, ljust, slice.
  replace (off + 31 - off)%nat with 31%nat by lia.
  replace (Z.to_nat (Z.max 0 (Z.of_nat (length data) - Z.of_nat off)))
    with (length data - off)%nat by lia.
  set (piece := firstn 31 (skipn off data)).
  assert (Hpiece : length piece = Nat.min 31 (length data - off)).
  { unfold piece. rewrite length_firstn, length_skipn. reflexivity. }
  rewrite firstn_app, Hpiece.
  destruct (Nat.le_gt_cases 31 (length data - off)) as [Hfull | Hlast].
  - rewrite Nat.min_l by exact Hfull.
    replace (31 - 31)%nat with 0%nat by reflexivity.
    cbn [repeat]. rewrite firstn_nil, app_nil_r.
    apply firstn_all2. lia.
  - rewrite Nat.min_r by lia.
    replace (length data - off - (length data - off))%nat with 0%nat by lia.
    rewrite firstn_O, app_nil_r.
    apply firstn_all2. lia.
Qed.

Lemma bit_item (seq : Z) (chunk : bytes) :
  seq = 0 \/ seq = 1 -> item 0 (byte_of (Z.land seq 255) :: chunk) = seq.
Proof.
  intros Hseq. unfold item. cbn [nth]. rewrite byte_of_land_255.
  apply Z.mod_small. lia.
Qed.

Lemma bit_flip (seq : Z) :
  seq = 0 \/ seq = 1 ->
  (Z.lxor seq 1 = 0 \/ Z.lxor seq 1 = 1) /\ Z.lxor seq 1 <> seq.
Proof. intros [-> | ->]; cbn; split; try lia; discriminate. Qed.

(** Accepting the chunk at offset [off] moves the receiver to offset
    [off + 31]. *)
Lemma accept_next_chunk (off : nat) (seq seq' : Z) (w : Rx.world) :
  (off < length data)%nat ->
  taken_in data off seq (vars w) ->
  exists w1,
    Rx.accept_new seq' (ljust 31 Byte.x00 (slice off (off + 31) data)) w = (Ok tt, w1) /\
    taken_in data (off + 31) seq' (vars w1).
Proof.
  intros Hlt (Hlast & Hexp & Hbw & Hout & Hclosed & Hdone).
  assert (Hopen : Rx.out_f_closed (vars w) = false).
  { rewrite Hclosed. apply Nat.leb_gt. exact Hlt. }
  assert (Hlen : length (ljust 31 Byte.x00 (slice off (off + 31) data)) = 31%nat).
  { apply ljust_length. pose proof (slice_length_le off (off + 31) data). lia. }
  eexists. split; [ apply (accept_new_open _ _ _ Hopen Hlen) | ].
  rewrite Hexp, Hbw, Hout. rewrite Nat.min_r by lia.
  rewrite chunk_cut by exact Hlt.
  set (piece := firstn 31 (skipn off data)).
  assert (Hpiece : len piece = Z.of_nat (Nat.min 31 (length data - off))).
  { unfold len, piece. rewrite length_firstn, length_skipn. reflexivity. }
  assert (Hfin : (Z.of_nat (length data) <=? Z.of_nat off + len piece)
                 = (length data <=? off + 31)%nat).
  { rewrite Hpiece.
    destruct (Z.leb_spec (Z.of_nat (length data))
                (Z.of_nat off + Z.of_nat (Nat.min 31 (length data - off))));
      destruct (Nat.leb_spec (length data) (off + 31)); try reflexivity; lia. }
  unfold taken_in. cbn [vars Rx.last_delivered_pck_num Rx.expected_total_len
                        Rx.bytes_written Rx.out_f Rx.out_f_closed Rx.done].
  split; [ reflexivity | ]. split; [ reflexivity | ].
  split; [ rewrite Hpiece; lia | ].
  split; [ symmetry; apply firstn_plus | ].
  split; exact Hfin.
Qed.

(** The first chunk carries the total length and the first 27 bytes. *)
Lemma accept_first_chunk (seq' : Z) (w : Rx.world) :
  Z.of_nat (length data) < 2 ^ 32 ->
  vars w = Rx.initial_state ->
  let header := le_split 4 (Z.of_nat (length data)) in
  exists w1,
    Rx.accept_new seq' (ljust 31 Byte.x00 (header ++ slice 0 27 data)) w = (Ok tt, w1) /\
    taken_in data 27 seq' (vars w1).
Proof.
  intros HN Hinit header.
  assert (Hhdr : length header = 4%nat) by apply length_le_split.
  assert (Hopen : Rx.out_f_closed (vars w) = false) by (rewrite Hinit; reflexivity).
  assert (Hlen : length (ljust 31 Byte.x00 (header ++ slice 0 27 data)) = 31%nat).
  { apply ljust_length. rewrite length_app, Hhdr.
    pose proof (slice_length_le 0 27 data). lia. }
  eexists. split; [ apply (accept_new_open _ _ _ Hopen Hlen) | ].
  rewrite Hinit.
  cbn [Rx.initial_state Rx.expected_total_len Rx.bytes_written Rx.out_f app].
  rewrite (first_chunk_shape header data Hhdr).
  set (head := firstn (Nat.min 27 (length data)) data).
  set (pad := repeat Byte.x00 (27 - Nat.min 27 (length data))).
  assert (Hhead : length head = Nat.min 27 (length data)).
  { unfold head. rewrite length_firstn. lia. }
  assert (Htotal : le_combine (firstn 4 ((header ++ head) ++ pad))
                   = Z.of_nat (length data)).
  { rewrite <- !app_assoc, firstn_app, Hhdr.
    replace (4 - 4)%nat with 0%nat by reflexivity.
    rewrite firstn_O, app_nil_r, firstn_all2 by lia.
    unfold header. rewrite le_combine_split.
    apply Z.mod_small. change (2 ^ (Z.of_nat 4 * 8)) with (2 ^ 32). lia. }
  assert (Hpayload : skipn 4 ((header ++ head) ++ pad) = head ++ pad).
  { rewrite <- !app_assoc, skipn_app, Hhdr.
    replace (4 - 4)%nat with 0%nat by reflexivity.
    rewrite skipn_all2 by lia. reflexivity. }
  rewrite Htotal, Hpayload.
  assert (Hcut : take (Z.max 0 (Z.of_nat (length data) - 0)) (head ++ pad) = head).
  { unfold take.
    replace (Z.to_nat (Z.max 0 (Z.of_nat (length data) - 0))) with (length data) by lia.
    rewrite firstn_app, Hhead.
    replace (length data - Nat.min 27 (length data))%nat
      with (length data - 27)%nat by lia.
    destruct (Nat.le_gt_cases 27 (length data)) as [Hbig | Hsmall].
    - unfold pad. rewrite Nat.min_l by exact Hbig.
      replace (27 - 27)%nat with 0%nat by reflexivity.
      cbn [repeat]. rewrite firstn_nil, app_nil_r. apply firstn_all2. lia.
    - replace (length data - 27)%nat with 0%nat by lia.
      rewrite firstn_O, app_nil_r. apply firstn_all2. lia. }
  rewrite Hcut.
  assert (Hlenhead : len head = Z.of_nat (Nat.min (length data) 27)).
  { unfold len. rewrite Hhead. lia. }
  assert (Hfin : (Z.of_nat (length data) <=? 0 + len head) = (length data <=? 27)%nat).
  { rewrite Hlenhead.
    destruct (Z.leb_spec (Z.of_nat (length data))
                (0 + Z.of_nat (Nat.min (length data) 27)));
      destruct (Nat.leb_spec (length data) 27); try reflexivity; lia. }
  unfold taken_in. cbn [vars Rx.last_delivered_pck_num Rx.expected_total_len
                        Rx.bytes_written Rx.out_f Rx.out_f_closed Rx.done].
  split; [ reflexivity | ]. split; [ reflexivity | ].
  split; [ rewrite Hlenhead; lia | ].
  split.
  - unfold head. destruct (Nat.le_gt_cases 27 (length data)) as [Hbig | Hsmall].
    + rewrite Nat.min_l by exact Hbig. reflexivity.
    + rewrite Nat.min_r by lia. rewrite !firstn_all2 by lia. reflexivity.
  - split; exact Hfin.
Qed.

Lemma in_order_nil_inv (last : option bytes) (ps left : list bytes) :
  in_order last ps [] left -> left = ps.
Proof. intros H. inversion H. reflexivity. Qed.

Lemma in_order_cons_inv (last : option bytes) (ps : list bytes) (d : bytes)
  (ds left : list bytes) :
  in_order last ps (d :: ds) left ->
  (length d <> 32%nat /\ in_order last ps ds left)
  \/ (last = Some d /\ in_order (Some d) ps ds left)
  \/ (exists ps', ps = d :: ps' /\ in_order (Some d) ps' ds left).
Proof.
  intros H. inversion H; subst.
  - left. split; assumption.
  - right. left. split; [ reflexivity | assumption ].
  - right. right. eexists. split; [ reflexivity | assumption ].
Qed.

(** How a run over in-order traffic may end. *)
Let ends_well (left : list bytes) (r : res Rx.outcome) (w' : Rx.world) : Prop :=
  (exists k, Rx.out_f (vars w') = firstn k data) /\
  (r = Ok Rx.Stopped -> Rx.out_f (vars w') = data) /\
  (left = [] -> r = Ok Rx.Listening -> Rx.out_f (vars w') = data).

(** An iteration on a datagram of the wrong length. *)
Lemma receive_stray (arrival : Z) (d : bytes) (later : list (Z * bytes))
  (w : Rx.world) (r : res Rx.control) (w' : Rx.world) :
  length d <> 32%nat ->
  Rx.receive_one cfg arrival d later w = (r, w') ->
  vars w' = vars w /\ r <> Ok Rx.Break.
Proof.
  intros Hlen Hone.
  destruct (receive_one_inv _ _ _ _ _ Hone) as (w0 & Hv0 & _ & _ & _ & Hbody).
  assert (Hcut : length (firstn 4096 d) <> 32%nat) by (rewrite cut_length_32; exact Hlen).
  destruct (loop_body_bad_len _ _ _ Hcut Hbody) as (Hv & _ & o & _ & Hr).
  split; [ congruence | ]. destruct o; subst r; discriminate.
Qed.

(** An iteration on a repetition of the last delivered packet. *)
Lemma receive_again (arrival : Z) (p : bytes) (later : list (Z * bytes))
  (w : Rx.world) (r : res Rx.control) (w' : Rx.world) :
  length p = 32%nat ->
  Rx.last_delivered_pck_num (vars w) = Some (item 0 p) ->
  Rx.receive_one cfg arrival p later w = (r, w') ->
  vars w' = vars w /\ (r = Ok Rx.Break -> Rx.done (vars w) = true).
Proof.
  intros Hlen Hlast Hone.
  destruct (receive_one_inv _ _ _ _ _ Hone) as (w0 & Hv0 & _ & _ & _ & Hbody).
  assert (Hcut : length (firstn 4096 p) = 32%nat) by (rewrite cut_length_32; exact Hlen).
  rewrite <- Hv0, <- (cut_item_0 p) in Hlast.
  destruct (loop_body_duplicate _ _ _ Hcut Hlast Hbody) as (Hv & _ & o & _ & Hr).
  split; [ congruence | ]. rewrite <- Hv0.
  destruct o; subst r; try discriminate.
  destruct (Rx.done (vars w0)); [ reflexivity | discriminate ].
Qed.

(** An iteration on a packet under another sequence number, when accepting
    its payload succeeds. *)
Lemma receive_next (arrival : Z) (seq' : Z) (chunk : bytes) (later : list (Z * bytes))
  (w : Rx.world) (r : res Rx.control) (w' : Rx.world) (P : Rx.state -> Prop) :
  length chunk = 31%nat ->
  seq' = 0 \/ seq' = 1 ->
  Rx.last_delivered_pck_num (vars w) <> Some seq' ->
  (forall w0, vars w0 = vars w ->
     exists w1, Rx.accept_new seq' chunk w0 = (Ok tt, w1) /\ P (vars w1)) ->
  Rx.receive_one cfg arrival (byte_of (Z.land seq' 255) :: chunk) later w = (r, w') ->
  P (vars w') /\ (r = Ok Rx.Break -> Rx.done (vars w') = true).
Proof.
  intros Hlen Hseq Hnew Hacc Hone.
  set (p := byte_of (Z.land seq' 255) :: chunk) in *.
  assert (Hp : length p = 32%nat) by (unfold p; cbn [length]; lia).
  destruct (receive_one_inv _ _ _ _ _ Hone) as (w0 & Hv0 & _ & _ & _ & Hbody).
  assert (Hcut : firstn 4096 p = p) by (apply firstn_all2; lia).
  rewrite Hcut in Hbody.
  assert (Hitem : item 0 p = seq') by (apply bit_item; exact Hseq).
  assert (Hnew0 : Rx.last_delivered_pck_num (vars w0) <> Some (item 0 p))
    by (rewrite Hv0, Hitem; exact Hnew).
  destruct (loop_body_new _ _ _ Hp Hnew0 Hbody) as (r1 & w1 & Hrun1 & Hcases).
  rewrite Hitem in Hrun1. change (skipn 1 p) with chunk in Hrun1.
  destruct (Hacc w0 Hv0) as (w1' & Hrun1' & HP).
  rewrite Hrun1' in Hrun1. injection Hrun1 as <- <-.
  destruct Hcases as [(e & He & _) | (_ & Hv & _ & o & _ & Hr)]; [ discriminate | ].
  rewrite Hv. split; [ exact HP | ].
  destruct o; subst r; try discriminate.
  destruct (Rx.done (vars w1')); [ reflexivity | discriminate ].
Qed.

(** The run from the second packet on. *)
Lemma main_loop_in_order (arrivals : list (Z * bytes)) :
  forall (w : Rx.world) (last : bytes) (off : nat) (seq : Z) (left : list bytes)
         (r : res Rx.outcome) (w' : Rx.world),
    in_order (Some last)
      (packets_from (Z.lxor seq 1) (Tx.rest_chunks data (length data) off))
      (map snd arrivals) left ->
    seq = 0 \/ seq = 1 ->
    length last = 32%nat ->
    item 0 last = seq ->
    taken_in data off seq (vars w) ->
    Rx.main_loop cfg arrivals w = (r, w') ->
    ends_well left r w'.
Proof.
  induction arrivals as [ | [arrival d] later IH ];
    intros w last off seq left r w' Hord Hseq Hlast32 Hitem Hin Hloop.
  - cbn [Rx.main_loop] in Hloop. injection Hloop as <- <-.
    cbn [map] in Hord. apply in_order_nil_inv in Hord.
    destruct Hin as (_ & _ & _ & Hout & _).
    split; [ exists off; exact Hout | ]. split; [ discriminate | ].
    intros Hleft _. rewrite Hout. apply firstn_all2.
    destruct (Nat.le_gt_cases (length data) off) as [Hle | Hlt]; [ exact Hle | ].
    rewrite Hleft, (rest_chunks_more Hlt) in Hord. discriminate.
  - rewrite main_loop_cons in Hloop. cbn [map snd] in Hord.
    assert (Hstop : forall w1 : Rx.world, taken_in data off seq (vars w1) ->
              Rx.done (vars w1) = true -> Rx.out_f (vars w1) = data).
    { intros w1 (_ & _ & _ & Hout & _ & Hdone) Hd. rewrite Hout.
      apply firstn_all2. apply Nat.leb_le. congruence. }
    assert (Hcrash : forall e (w1 : Rx.world) k, Rx.out_f (vars w1) = firstn k data ->
              ends_well left (Raise e) w1).
    { intros e w1 k Hout. split; [ exists k; exact Hout | ].
      split; [ discriminate | intros _; discriminate ]. }
    destruct (in_order_cons_inv Hord)
      as [(Hlen & Hrest) | [(Hd & Hrest) | (ps' & Hps & Hrest)]].
    + (* a datagram of the wrong length *)
      destruct (Rx.receive_one cfg arrival d later w) as [r0 w1] eqn:Hone.
      destruct (@receive_stray arrival d later w r0 w1 Hlen Hone) as (Hv & Hnb).
      rewrite <- Hv in Hin.
      destruct r0 as [[ | ] | e].
      * exact (IH _ _ _ _ _ _ _ Hrest Hseq Hlast32 Hitem Hin Hloop).
      * congruence.
      * injection Hloop as <- <-.
        apply (Hcrash e w1 off). apply Hin.
    + (* the last packet again *)
      injection Hd as <-.
      destruct (Rx.receive_one cfg arrival last later w) as [r0 w1] eqn:Hone.
      assert (Hl : Rx.last_delivered_pck_num (vars w) = Some (item 0 last))
        by (destruct Hin as (Hl & _); rewrite Hitem; exact Hl).
      destruct (@receive_again arrival last later w r0 w1 Hlast32 Hl Hone) as (Hv & Hbreak).
      rewrite <- Hv in Hin, Hbreak.
      destruct r0 as [[ | ] | e].
      * exact (IH _ _ _ _ _ _ _ Hrest Hseq Hlast32 Hitem Hin Hloop).
      * injection Hloop as <- <-.
        pose proof (Hstop w1 Hin (Hbreak eq_refl)) as Hout.
        split; [ exists (length data); rewrite Hout; symmetry; apply firstn_all | ].
        split; [ intros _; exact Hout | discriminate ].
      * injection Hloop as <- <-.
        apply (Hcrash e w1 off). apply Hin.
    + (* the next packet *)
      destruct (Nat.le_gt_cases (length data) off) as [Hle | Hlt].
      { rewrite (rest_chunks_none Hle) in Hps. discriminate. }
      rewrite (rest_chunks_more Hlt) in Hps. cbn [packets_from] in Hps.
      injection Hps as <- <-.
      set (seq' := Z.lxor seq 1) in *.
      set (chunk := ljust 31 Byte.x00 (slice off (off + 31) data)) in *.
      destruct (bit_flip Hseq) as (Hseq' & Hdiff). fold seq' in Hseq', Hdiff.
      assert (Hchunk : length chunk = 31%nat).
      { apply ljust_length. pose proof (slice_length_le off (off + 31) data). lia. }
      destruct (Rx.receive_one cfg arrival (byte_of (Z.land seq' 255) :: chunk) later w)
        as [r0 w1] eqn:Hone.
      assert (Hnew : Rx.last_delivered_pck_num (vars w) <> Some seq').
      { destruct Hin as (Hl & _). rewrite Hl. congruence. }
      destruct (@receive_next arrival seq' chunk later w r0 w1
                  (taken_in data (off + 31) seq') Hchunk Hseq' Hnew) as (Hin1 & Hbreak).
      { intros w0 Hv0. apply (@accept_next_chunk off seq seq' w0 Hlt).
        rewrite Hv0. exact Hin. }
      { exact Hone. }
      destruct r0 as [[ | ] | e].
      * refine (IH _ _ _ seq' _ _ _ Hrest Hseq' _ _ Hin1 Hloop).
        -- cbn [length]. lia.
        -- apply bit_item. exact Hseq'.
      * injection Hloop as <- <-.
        assert (Hout : Rx.out_f (vars w1) = data).
        { destruct Hin1 as (_ & _ & _ & Hout & _ & Hdone). rewrite Hout.
          apply firstn_all2. apply Nat.leb_le. rewrite <- Hdone. exact (Hbreak eq_refl). }
        split; [ exists (length data); rewrite Hout; symmetry; apply firstn_all | ].
        split; [ intros _; exact Hout | discriminate ].
      * injection Hloop as <- <-.
        apply (Hcrash e w1 (off + 31)%nat). apply Hin1.
Qed.

(** The run from the start, before any packet was accepted. *)
Lemma main_loop_in_order_start (arrivals : list (Z * bytes)) :
  forall (w : Rx.world) (p0 : bytes) (rest left : list bytes)
         (r : res Rx.outcome) (w' : Rx.world),
    Z.of_nat (length data) < 2 ^ 32 ->
    p0 = byte_of (Z.land 0 255)
         :: ljust 31 Byte.x00 (le_split 4 (Z.of_nat (length data)) ++ slice 0 27 data) ->
    rest = packets_from (Z.lxor 0 1) (Tx.rest_chunks data (length data) 27) ->
    in_order None (p0 :: rest) (map snd arrivals) left ->
    vars w = Rx.initial_state ->
    Rx.main_loop cfg arrivals w = (r, w') ->
    ends_well left r w'.
Proof.
  induction arrivals as [ | [arrival d] later IH ];
    intros w p0 rest left r w' HN Hp0 Hrest0 Hord Hinit Hloop.
  - cbn [Rx.main_loop] in Hloop. injection Hloop as <- <-.
    cbn [map] in Hord. apply in_order_nil_inv in Hord.
    unfold ends_well. rewrite Hinit. cbn [Rx.initial_state Rx.out_f].
    split; [ exists 0%nat; reflexivity | ].
    split; [ discriminate | intros Hleft; rewrite Hleft in Hord; discriminate ].
  - rewrite main_loop_cons in Hloop. cbn [map snd] in Hord.
    destruct (in_order_cons_inv Hord)
      as [(Hlen & Hrest) | [(Hd & _) | (ps' & Hps & Hrest)]]; [ | discriminate | ].
    + destruct (Rx.receive_one cfg arrival d later w) as [r0 w1] eqn:Hone.
      destruct (@receive_stray arrival d later w r0 w1 Hlen Hone) as (Hv & Hnb).
      rewrite <- Hv in Hinit.
      destruct r0 as [[ | ] | e].
      * exact (IH _ _ _ _ _ _ HN Hp0 Hrest0 Hrest Hinit Hloop).
      * congruence.
      * injection Hloop as <- <-. unfold ends_well. rewrite Hinit.
        split; [ exists 0%nat; reflexivity | ].
        split; [ discriminate | intros _; discriminate ].
    + injection Hps as <- <-.
      set (chunk := ljust 31 Byte.x00
                      (le_split 4 (Z.of_nat (length data)) ++ slice 0 27 data)) in *.
      assert (Hchunk : length chunk = 31%nat).
      { apply ljust_length. rewrite length_app, length_le_split.
        pose proof (slice_length_le 0 27 data). lia. }
      destruct (Rx.receive_one cfg arrival p0 later w) as [r0 w1] eqn:Hone.
      assert (Hnew : Rx.last_delivered_pck_num (vars w) <> Some 0)
        by (rewrite Hinit; discriminate).
      assert (Hp32 : length p0 = 32%nat) by (rewrite Hp0; cbn [length]; lia).
      assert (Hitem : item 0 p0 = 0)
        by (rewrite Hp0; apply bit_item; left; reflexivity).
      rewrite Hp0 in Hone.
      destruct (@receive_next arrival 0 chunk later w r0 w1
                  (taken_in data 27 0) Hchunk (or_introl eq_refl) Hnew) as (Hin1 & Hbreak).
      { intros w0 Hv0. apply (@accept_first_chunk 0 w0 HN). congruence. }
      { exact Hone. }
      destruct r0 as [[ | ] | e].
      * rewrite Hrest0 in Hrest.
        exact (@main_loop_in_order later w1 p0 27%nat 0 left r w'
                 Hrest (or_introl eq_refl) Hp32 Hitem Hin1 Hloop).
      * injection Hloop as <- <-.
        assert (Hout : Rx.out_f (vars w1) = data).
        { destruct Hin1 as (_ & _ & _ & Hout & _ & Hdone). rewrite Hout.
          apply firstn_all2. apply Nat.leb_le. rewrite <- Hdone. exact (Hbreak eq_refl). }
        split; [ exists (length data); rewrite Hout; symmetry; apply firstn_all | ].
        split; [ intros _; exact Hout | discriminate ].
      * injection Hloop as <- <-.
        split; [ exists 27%nat; apply Hin1 | ].
        split; [ discriminate | intros _; discriminate ].
Qed.

End Reassembly.

(** X5.  The receiver rebuilds the stream the sender cut up.  Let the
    datagrams reaching the receiver be the packets of [data] in order --
    each one at least once before the next, none skipped, repetitions and
    datagrams of the wrong length allowed -- up to some point.  Then,
    whatever the Ack losses and delays and however the run ends, the output
    file holds an initial part of [data]; it holds exactly [data] when the
    loop was left, and also when every packet arrived and the receiver is
    still listening. *)
Theorem receiver_rebuilds_the_stream {R : PyRandom} (cfg : Rx.config) (seed_arg : Z)
  (data : bytes) (chunks : list bytes) (arrivals : list (Z * bytes))
  (left : list bytes) (r : res Rx.outcome) (w' : Rx.world) :
  Tx.data_for_file data = Ok chunks ->
  Wire.in_order None (Wire.packets_from 0 chunks) (map snd arrivals) left ->
  Rx.main cfg seed_arg arrivals = (r, w') ->
  (exists k, Rx.out_f (vars w') = firstn k data) /\
  (r = Ok Rx.Stopped -> Rx.out_f (vars w') = data) /\
  (left = [] -> r = Ok Rx.Listening -> Rx.out_f (vars w') = data).
Proof.
  intros Hchunks Hord Hmain.
  unfold Tx.data_for_file, struct_pack_I in Hchunks.
  destruct (Z.ltb_spec (Z.of_nat (length data)) (2 ^ 32)) as [HN | HN].
  2:{ rewrite andb_false_r in Hchunks. discriminate. }
  replace (0 <=? Z.of_nat (length data)) with true in Hchunks
    by (symmetry; apply Z.leb_le; lia).
  cbn [andb] in Hchunks. injection Hchunks as <-.
  exact (@main_loop_in_order_start R cfg data arrivals (Rx.initial seed_arg arrivals)
           _ _ left r w' HN eq_refl eq_refl Hord eq_refl Hmain).
Qed.

(* ===================================================================== *)
(** * Further properties of the sender: attempts and traffic              *)
(* ===================================================================== *)

Section SenderTrace.
Context {R : PyRandom}.
Import TxTrace.
Variable cfg : Tx.config.

Lemma attempts_app (l1 l2 : list Tx.event) :
  attempts (l1 ++ l2) = attempts l1 ++ attempts l2.
Proof. apply flat_map_app. Qed.

Lemma wire_app (l1 l2 : list Tx.event) : wire (l1 ++ l2) = wire l1 ++ wire l2.
Proof. apply flat_map_app. Qed.

Lemma built_app (l1 l2 : list Tx.event) : built (l1 ++ l2) = built l1 ++ built l2.
Proof. apply flat_map_app. Qed.

(** One simulated send logs the attempt, dropped or sent with the packet
    as given, unless computing the delay raised. *)
Lemma simulate_send_log (pck_num attempt : Z) (pck : bytes) (w : Tx.world)
  (r : res unit) (w1 : Tx.world) :
  Tx.simulate_send cfg pck_num attempt pck w = (r, w1) ->
  net w1 = net w /\
  exists new,
    log w1 = log w ++ new /\
    ((r = Ok tt /\
      (new = [Tx.EvDropped pck_num attempt]
       \/ exists d, new = [Tx.EvSendto pck_num attempt d pck]))
     \/ (exists e, r = Raise e /\ new = [])).
Proof.
  unfold Tx.simulate_send, bind at 1, random_random. intros Hrun.
  destruct (random (gen w)) as [x g].
  destruct (x <? Tx.LOSS_DATA_PROB cfg)%float.
  - unfold emit in Hrun. injection Hrun as <- <-. cbn [net log].
    split; [ reflexivity | ]. eexists. split; [ reflexivity | ].
    left. split; [ reflexivity | left; reflexivity ].
  - unfold bind at 1 in Hrun.
    set (w0 := World _ _ _ _ _) in Hrun.
    destruct (random_delay (Tx.DATA_DELAY_MS_MIN cfg) (Tx.DATA_DELAY_MS_MAX cfg) w0)
      as [[d | e] w2] eqn:Ed.
    + assert (Hkeep : net w2 = net w /\ log w2 = log w).
      { unfold random_delay, bind, random_randint, time_sleep_ms, ret in Ed.
        destruct (Tx.DATA_DELAY_MS_MIN cfg <=? Tx.DATA_DELAY_MS_MAX cfg);
          [ | discriminate ].
        destruct (randint _ _ (gen w0)) as [d0 g0]. cbn [now gen net vars log] in Ed.
        destruct (time_error d0); [ discriminate | ].
        injection Ed as _ <-. split; reflexivity. }
      destruct Hkeep as (Hn & Hl).
      unfold emit in Hrun. injection Hrun as <- <-. cbn [net log].
      split; [ exact Hn | ]. eexists. split; [ rewrite Hl; reflexivity | ].
      left. split; [ reflexivity | right; exists d; reflexivity ].
    + assert (Hkeep : net w2 = net w /\ log w2 = log w).
      { unfold random_delay, bind, random_randint, time_sleep_ms, ret in Ed.
        destruct (Tx.DATA_DELAY_MS_MIN cfg <=? Tx.DATA_DELAY_MS_MAX cfg).
        - destruct (randint _ _ (gen w0)) as [d0 g0]. cbn [now gen net vars log] in Ed.
          destruct (time_error d0); [ | discriminate ].
          injection Ed as _ <-. split; reflexivity.
        - injection Ed as _ <-. split; reflexivity. }
      destruct Hkeep as (Hn & Hl).
      injection Hrun as <- <-.
      split; [ exact Hn | ]. exists []. rewrite app_nil_r.
      split; [ exact Hl | ]. right. exists e. split; reflexivity.
Qed.

(** The attempts of [send_with_retries], from any point of its loop: the
    attempts logged are the first of those still to run, each one a drop
    or a send of [pck] itself; failure is reported only when all were
    used, success only after at least one. *)
Lemma send_attempts_trace (pck_num : Z) (pck : bytes) (todo : list Z)
  (w : Tx.world) (r : res bool) (w' : Tx.world) :
  Tx.send_attempts cfg pck_num pck todo w = (r, w') ->
  exists new used rest j,
    log w' = log w ++ new /\
    todo = used ++ rest /\
    attempts new = used /\
    wire new = repeat pck j /\
    (j <= length used)%nat /\
    built new = [] /\
    (r = Ok false -> rest = []) /\
    (r = Ok true -> used <> []).
Proof.
  revert w r w'.
  induction todo as [ | attempt later IH ]; intros w r w' Hrun;
    cbn [Tx.send_attempts] in Hrun.
  - unfold bind, emit, ret in Hrun. injection Hrun as <- <-.
    exists [Tx.EvFailed pck_num], [], [], 0%nat. cbn [log].
    repeat split; try reflexivity. discriminate.
  - unfold bind at 1 in Hrun.
    destruct (Tx.simulate_send cfg pck_num attempt pck w) as [r0 w1] eqn:Esim.
    destruct (simulate_send_log _ _ _ _ Esim) as (Hnet1 & new1 & Hlog1 & Hcase).
    destruct Hcase as [(-> & Hnew1) | (e & -> & ->)].
    2:{ injection Hrun as <- <-.
        exists [], [], (attempt :: later), 0%nat.
        repeat split; try reflexivity; try discriminate. exact Hlog1. }
    assert (Hone : attempts new1 = [attempt] /\ built new1 = [] /\
                   exists j1, wire new1 = repeat pck j1 /\ (j1 <= 1)%nat).
    { destruct Hnew1 as [-> | (d & ->)].
      - split; [ reflexivity | ]. split; [ reflexivity | ].
        exists 0%nat. split; [ reflexivity | lia ].
      - split; [ reflexivity | ]. split; [ reflexivity | ].
        exists 1%nat. split; [ reflexivity | lia ]. }
    destruct Hone as (Hatt1 & Hbuilt1 & j1 & Hwire1 & Hj1).
    unfold bind at 1 in Hrun.
    destruct (wait_for_ack_run cfg pck_num w1) as (r1 & t & rest1 & _ & Hw).
    rewrite Hw in Hrun. clear Hw.
    set (w2 := World t (gen w1) rest1 (vars w1) (log w1)) in *.
    assert (Hlater : forall e0 r2 w3,
      Tx.send_attempts cfg pck_num pck later
        (World (now w2) (gen w2) (net w2) (vars w2) (log w2 ++ [e0])) = (r2, w3) ->
      attempt_of e0 = [] -> sent_of e0 = [] -> built_of e0 = [] ->
      exists new used rest j,
        log w3 = log w ++ new /\
        attempt :: later = used ++ rest /\
        attempts new = used /\
        wire new = repeat pck j /\
        (j <= length used)%nat /\
        built new = [] /\
        (r2 = Ok false -> rest = []) /\
        (r2 = Ok true -> used <> [])).
    { intros e0 r2 w3 H3 Ha0 Hs0 Hb0.
      destruct (IH _ _ _ H3)
        as (new3 & used3 & rest3 & j3 & Hlog3 & Htodo3 & Hatt3 & Hwire3 & Hj3 & Hb3 & Hf3 & Ht3).
      cbn [log w2] in Hlog3.
      exists (new1 ++ [e0] ++ new3), (attempt :: used3), rest3, (j1 + j3)%nat.
      split; [ rewrite Hlog3, Hlog1, <- !app_assoc; reflexivity | ].
      split; [ rewrite Htodo3; reflexivity | ].
      split.
      { rewrite !attempts_app, Hatt1, Hatt3. unfold attempts at 1. cbn [flat_map].
        rewrite Ha0. reflexivity. }
      split.
      { rewrite !wire_app, Hwire1, Hwire3. unfold wire at 1. cbn [flat_map].
        rewrite Hs0. cbn [app]. symmetry. apply repeat_app. }
      split; [ cbn [length]; lia | ].
      split.
      { rewrite !built_app, Hbuilt1, Hb3. unfold built. cbn [flat_map].
        rewrite Hb0. reflexivity. }
      split; [ exact Hf3 | discriminate ]. }
    destruct r1 as [[st | ] | e].
    + destruct ((st =? 0) || (st =? 1)) eqn:Est.
      * assert (Hfin : exists e0,
                  attempt_of e0 = [] /\ sent_of e0 = [] /\ built_of e0 = [] /\
                  (r, w') = (Ok true, World (now w2) (gen w2) (net w2) (vars w2)
                                        (log w2 ++ [e0]))).
        { destruct (st =? 0); unfold bind, emit, ret in Hrun;
            injection Hrun as <- <-; eexists;
            (split; [ | split; [ | split; [ | reflexivity ] ] ]); reflexivity. }
        destruct Hfin as (e0 & Ha0 & Hs0 & Hb0 & Heq). injection Heq as -> ->.
        exists (new1 ++ [e0]), [attempt], later, j1. cbn [log w2].
        split; [ rewrite Hlog1, <- app_assoc; reflexivity | ].
        split; [ reflexivity | ].
        split.
        { rewrite attempts_app, Hatt1. unfold attempts. cbn [flat_map].
          rewrite Ha0. reflexivity. }
        split.
        { rewrite wire_app, Hwire1. unfold wire. cbn [flat_map].
          rewrite Hs0. rewrite !app_nil_r. reflexivity. }
        split; [ cbn [length]; lia | ].
        split.
        { rewrite built_app, Hbuilt1. unfold built. cbn [flat_map].
          rewrite Hb0. reflexivity. }
        split; discriminate.
      * unfold bind at 1, emit at 1 in Hrun.
        apply (Hlater _ _ _ Hrun); reflexivity.
    + unfold bind at 1, emit at 1 in Hrun.
      apply (Hlater _ _ _ Hrun); reflexivity.
    + injection Hrun as <- <-.
      exists new1, [attempt], later, j1. cbn [log w2].
      split; [ exact Hlog1 | ]. split; [ reflexivity | ].
      split; [ exact Hatt1 | ]. split; [ exact Hwire1 | ].
      split; [ cbn [length]; lia | ].
      split; [ exact Hbuilt1 | ]. split; discriminate.
Qed.

Lemma firstn_seq_le (k start n : nat) :
  (k <= n)%nat -> firstn k (seq start n) = seq start k.
Proof.
  revert start n. induction k as [ | k IH ]; intros start n Hle.
  - reflexivity.
  - destruct n as [ | n ]; [ lia | ].
    cbn [seq firstn]. rewrite IH by lia. reflexivity.
Qed.

(** A prefix of [range(1, n + 1)] is [range(1, k + 1)]. *)
Lemma range_prefix (hi : Z) (used rest : list Z) :
  range 1 hi = used ++ rest ->
  used = range 1 (Z.of_nat (length used) + 1) /\
  Z.of_nat (length used) + Z.of_nat (length rest) = Z.max 0 (hi - 1).
Proof.
  intros Hsplit.
  assert (Hlen : (length used + length rest)%nat = Z.to_nat (hi - 1)).
  { rewrite <- length_app, <- Hsplit. apply range_length. }
  split; [ | lia ].
  assert (Hused : used = firstn (length used) (range 1 hi)).
  { rewrite Hsplit, firstn_app, Nat.sub_diag, firstn_O, app_nil_r.
    symmetry. apply firstn_all. }
  rewrite Hused at 1. unfold range.
  rewrite firstn_map, firstn_seq_le by lia.
  replace (Z.to_nat (Z.of_nat (length used) + 1 - 1)) with (length used) by lia.
  reflexivity.
Qed.

End SenderTrace.

(** X6.  [send_with_retries] numbers its attempts 1, 2, ... without a gap
    and makes at most [MAX_RETRIES] of them; each attempt is a drop or a
    send of exactly the packet it was given; it reports failure only after
    all [MAX_RETRIES] attempts, and success only after at least one. *)
Theorem attempts_are_numbered_and_bounded {R : PyRandom} (cfg : Tx.config)
  (pck_num : Z) (pck : bytes) (w : Tx.world) (r : res bool) (w' : Tx.world) :
  Tx.send_with_retries cfg pck_num pck w = (r, w') ->
  exists new k j,
    log w' = log w ++ new /\
    TxTrace.attempts new = range 1 (Z.of_nat k + 1) /\
    Z.of_nat k <= Z.max 0 (Tx.MAX_RETRIES cfg) /\
    TxTrace.wire new = repeat pck j /\
    (j <= k)%nat /\
    (r = Ok false -> Z.of_nat k = Z.max 0 (Tx.MAX_RETRIES cfg)) /\
    (r = Ok true -> (1 <= k)%nat).
Proof.
  unfold Tx.send_with_retries. intros Hrun.
  destruct (send_attempts_trace _ _ _ _ _ Hrun)
    as (new & used & rest & j & Hlog & Htodo & Hatt & Hwire & Hj & _ & Hf & Ht).
  destruct (range_prefix _ _ _ Htodo) as (Hused & Hlen).
  replace (Tx.MAX_RETRIES cfg + 1 - 1) with (Tx.MAX_RETRIES cfg) in Hlen by lia.
  exists new, (length used), j.
  split; [ exact Hlog | ]. split; [ rewrite Hatt; exact Hused | ].
  split; [ lia | ]. split; [ exact Hwire | ]. split; [ exact Hj | ].
  split.
  - intros Hr. rewrite (Hf Hr) in Hlen. cbn [length] in Hlen. lia.
  - intros Hr. pose proof (Ht Hr) as Hne.
    destruct used; [ contradiction | cbn [length]; lia ].
Qed.

Section SenderWire.
Context {R : PyRandom}.
Import TxTrace Wire.
Variable cfg : Tx.config.

(** The loop of [main]: the packets built are the first of those of the
    chunks, in order, and the traffic is each of them in turn, repeated at
    most [MAX_RETRIES] times. *)
Lemma main_loop_wire (chunks : list bytes) :
  forall (pck_num sent success : Z) (w : Tx.world) (r : res (Z * Z)) (w' : Tx.world),
    Tx.main_loop cfg chunks pck_num sent success w = (r, w') ->
    exists new ks,
      log w' = log w ++ new /\
      (length ks <= length chunks)%nat /\
      built new = firstn (length ks) (packets_from pck_num chunks) /\
      Forall (fun k => Z.of_nat k <= Z.max 0 (Tx.MAX_RETRIES cfg)) ks /\
      wire new = repeated ks (packets_from pck_num chunks).
Proof.
  induction chunks as [ | chunk later IH ]; intros pck_num sent success w r w' Hrun;
    cbn [Tx.main_loop] in Hrun.
  - injection Hrun as <- <-. exists [], []. rewrite app_nil_r.
    repeat split; try reflexivity. constructor.
  - unfold bind at 1, lift at 1 in Hrun. unfold Tx.make_packet in Hrun.
    destruct (negb (length chunk =? Tx.DATA_BYTES)%nat).
    { injection Hrun as <- <-. exists [], []. rewrite app_nil_r.
      split; [ reflexivity | ]. split; [ cbn [length]; lia | ].
      split; [ reflexivity | ]. split; [ constructor | reflexivity ]. }
    cbn [app] in Hrun.
    set (pck := byte_of (Z.land pck_num 255) :: chunk) in *.
    unfold bind at 1, emit at 1 in Hrun.
    set (w0 := World _ _ _ _ _) in Hrun.
    unfold bind at 1 in Hrun. unfold Tx.send_with_retries in Hrun.
    destruct (Tx.send_attempts cfg pck_num pck (range 1 (Tx.MAX_RETRIES cfg + 1)) w0)
      as [r1 w1] eqn:Esend.
    destruct (send_attempts_trace _ _ _ _ _ Esend)
      as (new1 & used & rest & j & Hlog1 & Htodo & _ & Hwire1 & Hj & Hbuilt1 & _).
    destruct (range_prefix _ _ _ Htodo) as (_ & Hlen).
    assert (Hjmax : Z.of_nat j <= Z.max 0 (Tx.MAX_RETRIES cfg)) by lia.
    cbn [log w0] in Hlog1.
    assert (Hstop : forall new3,
      built new3 = [] -> wire new3 = [] ->
      log w' = (log w ++ [Tx.EvBuild sent pck_num pck]) ++ new1 ++ new3 ->
      exists new ks,
        log w' = log w ++ new /\
        (length ks <= length (chunk :: later))%nat /\
        built new = firstn (length ks) (packets_from pck_num (chunk :: later)) /\
        Forall (fun k => Z.of_nat k <= Z.max 0 (Tx.MAX_RETRIES cfg)) ks /\
        wire new = repeated ks (packets_from pck_num (chunk :: later))).
    { intros new3 Hb3 Hw3 Hlog.
      exists ([Tx.EvBuild sent pck_num pck] ++ new1 ++ new3), [j].
      split; [ rewrite Hlog, <- !app_assoc; reflexivity | ].
      split; [ cbn [length]; lia | ].
      split.
      { rewrite !built_app, Hbuilt1, Hb3. reflexivity. }
      split; [ constructor; [ exact Hjmax | constructor ] | ].
      rewrite !wire_app, Hwire1, Hw3. cbn [packets_from repeated].
      fold pck. cbn [wire flat_map sent_of app]. reflexivity. }
    destruct r1 as [[ | ] | e].
    + cbn [negb] in Hrun.
      destruct (IH _ _ _ _ _ _ Hrun) as (new2 & ks2 & Hlog2 & Hlen2 & Hbuilt2 & Hall2 & Hwire2).
      exists ([Tx.EvBuild sent pck_num pck] ++ new1 ++ new2), (j :: ks2).
      split; [ rewrite Hlog2, Hlog1, <- !app_assoc; reflexivity | ].
      split; [ cbn [length]; lia | ].
      split.
      { rewrite !built_app, Hbuilt1, Hbuilt2. reflexivity. }
      split; [ constructor; assumption | ].
      rewrite !wire_app, Hwire1, Hwire2. reflexivity.
    + cbn [negb] in Hrun. unfold bind, emit, ret in Hrun.
      injection Hrun as <- <-. cbn [log].
      apply (Hstop [Tx.EvStopEarly]); [ reflexivity | reflexivity | ].
      rewrite Hlog1, <- !app_assoc. reflexivity.
    + injection Hrun as <- <-.
      apply (Hstop []); [ reflexivity | reflexivity | ].
      rewrite Hlog1, app_nil_r. reflexivity.
Qed.

Lemma packets_from_length (chunks : list bytes) (pck_num : Z) :
  length (packets_from pck_num chunks) = length chunks.
Proof.
  revert pck_num. induction chunks as [ | c cs IH ]; intros pck_num.
  - reflexivity.
  - cbn [packets_from length]. rewrite IH. reflexivity.
Qed.

Lemma in_order_repeat (p : bytes) (m : nat) (ps ds left : list bytes) :
  in_order (Some p) ps ds left -> in_order (Some p) ps (repeat p m ++ ds) left.
Proof.
  intros H. induction m as [ | m IH ]; [ exact H | ].
  cbn [repeat app]. apply in_order_again. exact IH.
Qed.

(** Traffic in which no packet is missing is in-order traffic. *)
Lemma repeated_in_order (ks : list nat) :
  forall (ps : list bytes) (last : option bytes),
    Forall (fun k => (1 <= k)%nat) ks ->
    (length ks <= length ps)%nat ->
    in_order last ps (repeated ks ps) (skipn (length ks) ps).
Proof.
  induction ks as [ | k ks IH ]; intros ps last Hall Hlen.
  - cbn [repeated length skipn]. destruct ps; apply in_order_end.
  - destruct ps as [ | p ps ]; [ cbn [length] in Hlen; lia | ].
    cbn [repeated length skipn].
    pose proof (Forall_inv Hall) as Hk. pose proof (Forall_inv_tail Hall) as Hks.
    destruct k as [ | k ]; [ lia | ].
    cbn [repeat app]. apply in_order_next. apply in_order_repeat.
    apply IH; [ exact Hks | cbn [length] in Hlen; lia ].
Qed.

End SenderWire.

(** X7.  What the sender puts on the wire.  In every run of [main] the
    packets built are the first [n] packets of the file's chunks, in chunk
    order and under alternating sequence numbers from 0; and the datagrams
    handed to [sendto] are exactly these packets in turn, each one repeated
    at most [MAX_RETRIES] times (possibly zero times): a later packet is
    never sent before an earlier one, and nothing else is ever sent.  When
    no built packet is missing from the wire, the traffic is in order in
    the sense the receiver needs. *)
Theorem sender_traffic {R : PyRandom} (cfg : Tx.config) (seed_arg : Z)
  (input_file : bytes) (acks : list (Z * bytes)) (chunks : list bytes)
  (r : res (Z * Z)) (w' : Tx.world) :
  Tx.data_for_file input_file = Ok chunks ->
  Tx.main cfg seed_arg input_file acks = (r, w') ->
  let packets := Wire.packets_from 0 chunks in
  exists ks,
    (length ks <= length chunks)%nat /\
    TxTrace.built (log w') = firstn (length ks) packets /\
    Forall (fun k => Z.of_nat k <= Z.max 0 (Tx.MAX_RETRIES cfg)) ks /\
    TxTrace.wire (log w') = TxTrace.repeated ks packets /\
    (Forall (fun k => (1 <= k)%nat) ks ->
     Wire.in_order None packets (TxTrace.wire (log w')) (skipn (length ks) packets)).
Proof.
  intros Hchunks Hmain packets.
  assert (Hgoal : exists ks,
    (length ks <= length chunks)%nat /\
    TxTrace.built (log w') = firstn (length ks) packets /\
    Forall (fun k => Z.of_nat k <= Z.max 0 (Tx.MAX_RETRIES cfg)) ks /\
    TxTrace.wire (log w') = TxTrace.repeated ks packets).
  { unfold Tx.main, Tx.main_body in Hmain.
    unfold bind at 1, Tx.settimeout in Hmain.
    destruct (time_error (Tx.RTT_TIMEOUT_MS cfg)).
    { injection Hmain as <- <-. exists [].
      split; [ cbn [length]; lia | ]. split; [ reflexivity | ].
      split; [ constructor | reflexivity ]. }
    unfold ret at 1 in Hmain. unfold bind at 1, lift at 1 in Hmain.
    rewrite Hchunks in Hmain. unfold bind at 1 in Hmain.
    destruct (Tx.main_loop cfg chunks 0 0 0 (Tx.initial seed_arg acks)) as [r1 w1] eqn:Eloop.
    destruct (@main_loop_wire R cfg chunks 0 0 0 _ _ _ Eloop)
      as (new & ks & Hlog & Hlen & Hbuilt & Hall & Hwire).
    cbn [log Tx.initial app] in Hlog.
    exists ks. split; [ exact Hlen | ].
    destruct r1 as [[a b] | e].
    - unfold bind, emit, ret in Hmain. injection Hmain as <- <-. cbn [log].
      rewrite Hlog, built_app, wire_app, Hbuilt, Hwire.
      cbn [TxTrace.built TxTrace.wire flat_map TxTrace.built_of TxTrace.sent_of].
      rewrite !app_nil_r. split; [ reflexivity | ]. split; [ exact Hall | reflexivity ].
    - injection Hmain as <- <-. rewrite Hlog.
      split; [ exact Hbuilt | ]. split; [ exact Hall | exact Hwire ]. }
  destruct Hgoal as (ks & Hlen & Hbuilt & Hall & Hwire).
  exists ks. split; [ exact Hlen | ]. split; [ exact Hbuilt | ].
  split; [ exact Hall | ]. split; [ exact Hwire | ].
  intros Hpos. rewrite Hwire.
  apply repeated_in_order; [ exact Hpos | ].
  unfold packets. rewrite packets_from_length. exact Hlen.
Qed.

Section SenderReturns.
Context {R : PyRandom} {Rok : PyRandomOk R}.
Variable cfg : Tx.config.
Hypothesis timeout_pos : 0 < Tx.RTT_TIMEOUT_MS cfg.
Hypothesis delay_bounds :
  0 <= Tx.DATA_DELAY_MS_MIN cfg <= Tx.DATA_DELAY_MS_MAX cfg /\
  Tx.DATA_DELAY_MS_MAX cfg <= INT_MAX.





End SenderReturns.


(* ===================================================================== *)
(** * Further properties: the two programs agree on what an Ack means     *)
(* ===================================================================== *)

Section AckAgreement.
Context {R : PyRandom}.
Import RxView.
Variable cfg : Rx.config.

Lemma reply_sent (ack a : bytes) (d : Z) (o : reply) :
  In (Rx.EvAckSent a d) (reply_events ack o) -> a = ack.
Proof.
  destruct o as [ | d0 | e ]; cbn [reply_events In]; intros H.
  - destruct H as [H | []]. discriminate.
  - destruct H as [H | []]. injection H as -> _. reflexivity.
  - contradiction.
Qed.

(** The Acks one iteration sends: at most the one it built, which echoes
    the first byte of the datagram, with status 2 for a wrong length and
    0 or 1 for a 32-byte packet. *)
Lemma receive_one_sends (arrival : Z) (dgram : bytes) (later : list (Z * bytes))
  (w : Rx.world) (r : res Rx.control) (w' : Rx.world) :
  Rx.receive_one cfg arrival dgram later w = (r, w') ->
  exists new,
    log w' = log w ++ new /\
    forall a d, In (Rx.EvAckSent a d) new ->
      exists st,
        a = [hd Byte.x00 dgram; byte_of st] /\
        ((length dgram <> 32%nat /\ st = 2)
         \/ (length dgram = 32%nat /\ (st = 0 \/ st = 1))).
Proof.
  intros Hrun.
  destruct (receive_one_inv _ _ _ _ _ Hrun) as (w0 & _ & Hl0 & _ & _ & Hbody).
  rewrite <- Hl0. clear Hrun Hl0.
  set (pck := firstn 4096 dgram) in *.
  assert (Hhd : hd Byte.x00 pck = hd Byte.x00 dgram) by apply cut_hd.
  destruct (Nat.eq_dec (length pck) 32) as [Hlen | Hlen].
  - assert (Hlen' : length dgram = 32%nat) by (apply cut_length_32; exact Hlen).
    destruct (option_eq_dec_Z (Rx.last_delivered_pck_num (vars w0)) (Some (item 0 pck)))
      as [Hdup | Hnew].
    + destruct (loop_body_duplicate _ _ _ Hlen Hdup Hbody) as (_ & _ & o & Hl & _).
      eexists. split; [ exact Hl | ].
      intros a d Hin. cbn [app In] in Hin.
      destruct Hin as [H | [H | Hin]]; try discriminate.
      apply reply_sent in Hin. subst a. exists 1.
      split; [ rewrite Hhd; reflexivity | right; split; [ exact Hlen' | right; reflexivity ] ].
    + destruct (loop_body_new _ _ _ Hlen Hnew Hbody) as (r1 & w1 & Hacc & Hcases).
      assert (Hdata : length (skipn 1 pck) = 31%nat) by (rewrite length_skipn; lia).
      destruct (accept_new_inv _ _ _ Hdata Hacc)
        as (_ & _ & _ & total & _ & _ & _ & Hres).
      destruct Hcases as [(e & -> & _ & ->) | (-> & _ & _ & o & Hl & _)].
      * destruct Hres as [(_ & _ & _ & _ & _ & _ & Hl1) | (Hbad & _)]; [ | discriminate ].
        exists []. rewrite app_nil_r. split; [ exact Hl1 | ].
        intros a d [].
      * destruct Hres as [(Hbad & _) | (_ & _ & tw & _ & _ & _ & Hfin)]; [ discriminate | ].
        assert (Hl1 : exists mid, log w1 = log w0 ++ mid /\
                        forall a d, ~ In (Rx.EvAckSent a d) mid).
        { destruct Hfin as [(_ & _ & _ & H) | (_ & _ & _ & H)];
            eexists; (split; [ exact H | ]);
            intros a d Hin; cbn [In] in Hin;
            repeat (destruct Hin as [Hin | Hin]; [ discriminate | ]); exact Hin. }
        destruct Hl1 as (mid & Hl1 & Hmid).
        eexists. split; [ rewrite Hl, Hl1, <- app_assoc; reflexivity | ].
        intros a d Hin. apply in_app_or in Hin.
        destruct Hin as [Hin | Hin]; [ exfalso; exact (Hmid _ _ Hin) | ].
        cbn [In] in Hin. destruct Hin as [H | Hin]; [ discriminate | ].
        apply reply_sent in Hin. subst a. exists 0.
        split; [ rewrite Hhd; reflexivity | right; split; [ exact Hlen' | left; reflexivity ] ].
  - assert (Hlen' : length dgram <> 32%nat)
      by (intros H; apply Hlen; apply cut_length_32; exact H).
    destruct (loop_body_bad_len _ _ _ Hlen Hbody) as (_ & _ & o & Hl & _).
    eexists. split; [ exact Hl | ].
    intros a d Hin. cbn [In] in Hin.
    destruct Hin as [H | Hin]; [ discriminate | ].
    apply reply_sent in Hin. subst a. exists 2.
    split; [ rewrite Hhd; reflexivity | left; split; [ exact Hlen' | reflexivity ] ].
Qed.

End AckAgreement.

(** X9.  The two programs agree on what an Ack means.  Whatever Ack the
    receiver sends in reply to a packet that the sender's [make_packet]
    built under [pck_num] is a confirmation for [send_with_retries] of
    that [pck_num] (two bytes, the sequence number modulo 256, status OK
    or DUPLICATE); and whatever Ack it sends in reply to a datagram of
    another length confirms nothing, for any sequence number. *)
Theorem acks_mean_the_same_to_both {R : PyRandom} (cfg : Rx.config)
  (arrival : Z) (dgram : bytes) (later : list (Z * bytes))
  (w : Rx.world) (r : res Rx.control) (w' : Rx.world) :
  Rx.receive_one cfg arrival dgram later w = (r, w') ->
  exists new,
    log w' = log w ++ new /\
    forall a d, In (Rx.EvAckSent a d) new ->
      (forall pck_num chunk,
         Tx.make_packet pck_num chunk = Ok dgram ->
         TxView.confirming pck_num a = true) /\
      (length dgram <> 32%nat ->
       forall pck_num, TxView.confirming pck_num a = false).
Proof.
  intros Hrun.
  destruct (@receive_one_sends R cfg arrival dgram later w r w' Hrun) as (new & Hlog & Hsent).
  exists new. split; [ exact Hlog | ].
  intros a d Hin. destruct (Hsent a d Hin) as (st & -> & Hst).
  split.
  - intros pck_num chunk Hmk. unfold Tx.make_packet in Hmk.
    destruct (Nat.eqb_spec (length chunk) Tx.DATA_BYTES) as [Hlen | Hlen];
      cbn [negb] in Hmk; [ | discriminate ].
    injection Hmk as <-. cbn [app hd length] in *.
    destruct Hst as [(Hbad & _) | (_ & Hst)].
    { exfalso. apply Hbad. rewrite Hlen. reflexivity. }
    unfold TxView.confirming. cbn [firstn length Nat.eqb andb].
    unfold item. cbn [nth].
    rewrite byte_of_land_255.
    change 255 with (Z.ones 8). rewrite Z.land_ones by lia.
    change (2 ^ 8) with 256. rewrite Z.eqb_refl. cbn [andb].
    destruct Hst as [-> | ->]; reflexivity.
  - intros Hbad pck_num.
    destruct Hst as [(_ & ->) | (Hlen & _)]; [ | contradiction ].
    unfold TxView.confirming. cbn [firstn length Nat.eqb andb].
    replace ((item 1 [hd Byte.x00 dgram; byte_of 2] =? 0)
             || (item 1 [hd Byte.x00 dgram; byte_of 2] =? 1)) with false
      by reflexivity.
    apply andb_false_r.
Qed.

(* ===================================================================== *)
(** * The file comparison of the GUI                                      *)
(* ===================================================================== *)

Section FileComparison.
Import Gui.
Context {M : PyMemory} {Mok : PyMemoryOk M}.

(** A read of a positive number of bytes that can be allocated. *)
Lemma read_chunk (chunk : Z) (rest : bytes) :
  1 <= chunk <= alloc_max ->
  read chunk rest = Ok (firstn (Z.to_nat chunk) rest, skipn (Z.to_nat chunk) rest).
Proof.
  intros [Hlo Hhi]. pose proof alloc_max_range as [_ Hmax].
  unfold read, read_error. unfold SSIZE_MAX in *.
  change (2 ^ 63 - 1) with 9223372036854775807 in *. cbn [Z.opp] in *.
  assert (H1 : (chunk <? - 9223372036854775807 - 1) = false) by (apply Z.ltb_ge; lia).
  assert (H2 : (9223372036854775807 <? chunk) = false) by (apply Z.ltb_ge; lia).
  assert (H3 : (chunk <? -1) = false) by (apply Z.ltb_ge; lia).
  assert (H4 : (chunk =? -1) = false) by (apply Z.eqb_neq; lia).
  assert (H5 : (9223372036854775807 - 33 <? chunk) = false) by (apply Z.ltb_ge; lia).
  assert (H6 : (alloc_max <? chunk) = false) by (apply Z.ltb_ge; lia).
  rewrite H1, H2, H3, H4, H5, H6. reflexivity.
Qed.

(** A read to the end of a file that fits in memory. *)
Lemma read_all (rest : bytes) :
  len rest <= alloc_max -> read (-1) rest = Ok (rest, []).
Proof.
  intros Hfits. unfold read, read_error.
  assert (H6 : (alloc_max <? len rest) = false) by (apply Z.ltb_ge; lia).
  cbn. rewrite H6. reflexivity.
Qed.

(** A read of no bytes. *)
Lemma read_nothing (rest : bytes) : read 0 rest = Ok ([], rest).
Proof.
  pose proof alloc_max_range as [Hmin _].
  unfold read, read_error.
  assert (H6 : (alloc_max <? 0) = false) by (apply Z.ltb_ge; lia).
  cbn. rewrite H6. reflexivity.
Qed.

Lemma bytes_eqb_eq (a b : bytes) : bytes_eqb a b = true <-> a = b.
Proof.
  revert b. induction a as [ | x a IH ]; intros [ | y b ]; cbn [bytes_eqb];
    try (split; [ discriminate | discriminate ]).
  - split; reflexivity.
  - rewrite andb_true_iff, IH. split.
    + intros [Hx ->]. apply Byte.byte_dec_bl in Hx. subst y. reflexivity.
    + intros H. injection H as -> ->. split; [ apply Byte.byte_dec_lb | ]; reflexivity.
Qed.

Lemma bytes_eqb_neq (a b : bytes) : bytes_eqb a b = false <-> a <> b.
Proof.
  split.
  - intros H Heq. apply bytes_eqb_eq in Heq. congruence.
  - intros H. destruct (bytes_eqb a b) eqn:E; [ | reflexivity ].
    apply bytes_eqb_eq in E. contradiction.
Qed.

(** One round of the loop. *)
Lemma compare_from_round (chunk : Z) (fa fb : bytes) (offset : Z) :
  compare_from chunk fa fb offset
  = match read chunk fa with
    | Raise e => Raise e
    | Ok (a, fa') =>
        match read chunk fb with
        | Raise e => Raise e
        | Ok (b, fb') =>
            if is_empty a && is_empty b then Ok None
            else if bytes_eqb a b
                 then compare_from chunk fa' fb' (offset + len a)
                 else Ok (Some (offset + scan 0 a b))
        end
    end.
Proof.
  funelim (compare_from chunk fa fb offset).
  all: repeat match goal with
       | H : read _ _ = _ |- _ => rewrite H
       | H : is_empty _ && is_empty _ = _ |- _ => rewrite H
       | H : bytes_eqb _ _ = _ |- _ => rewrite H
       end; reflexivity.
Qed.

(** The scan stops where the common prefix ends. *)
Lemma scan_common_prefix (i : Z) (a b : bytes) :
  scan i a b = i + Z.of_nat (common_prefix a b).
Proof.
  revert i b. induction a as [ | x a IH ]; intros i [ | y b ];
    cbn [scan common_prefix]; try lia.
  destruct (Byte.eqb x y); [ rewrite IH | ]; lia.
Qed.

Lemma common_prefix_app (p a b : bytes) :
  common_prefix (p ++ a) (p ++ b) = (length p + common_prefix a b)%nat.
Proof.
  induction p as [ | x p IH ]; [ reflexivity | ].
  cbn [app common_prefix length]. rewrite (@Byte.byte_dec_lb x x eq_refl), IH.
  reflexivity.
Qed.

Lemma common_prefix_split (p ra rb fa fb : bytes) :
  fa = p ++ ra -> fb = p ++ rb ->
  common_prefix fa fb = (length p + common_prefix ra rb)%nat /\
  bytes_eqb fa fb = bytes_eqb ra rb.
Proof.
  intros -> ->. split; [ apply common_prefix_app | ].
  destruct (bytes_eqb ra rb) eqn:E.
  - apply bytes_eqb_eq in E. subst rb. apply bytes_eqb_eq. reflexivity.
  - apply bytes_eqb_neq in E. apply bytes_eqb_neq.
    intros H. apply app_inv_head in H. contradiction.
Qed.

Lemma common_prefix_firstn (n : nat) (a b : bytes) :
  firstn n a <> firstn n b ->
  common_prefix (firstn n a) (firstn n b) = common_prefix a b.
Proof.
  revert a b. induction n as [ | n IH ]; intros a b Hne.
  - exfalso. apply Hne. reflexivity.
  - destruct a as [ | x a ], b as [ | y b ]; cbn [firstn common_prefix] in *;
      try reflexivity.
    destruct (Byte.eqb x y) eqn:Exy; [ | reflexivity ].
    apply Byte.byte_dec_bl in Exy. subst y.
    rewrite IH; [ reflexivity | ]. intros H. apply Hne. rewrite H. reflexivity.
Qed.

(** Two different byte strings agree before their common prefix ends and
    differ there (the end of the shorter one counts as a difference). *)
Lemma common_prefix_first_difference (a b : bytes) :
  a <> b ->
  firstn (common_prefix a b) a = firstn (common_prefix a b) b /\
  nth_error a (common_prefix a b) <> nth_error b (common_prefix a b).
Proof.
  revert b. induction a as [ | x a IH ]; intros [ | y b ] Hne;
    cbn [common_prefix firstn nth_error].
  - contradiction.
  - split; [ reflexivity | discriminate ].
  - split; [ reflexivity | discriminate ].
  - destruct (Byte.eqb x y) eqn:Exy.
    + apply Byte.byte_dec_bl in Exy. subst y.
      destruct (IH b) as (Hpre & Hat); [ congruence | ].
      cbn [firstn nth_error]. rewrite Hpre. split; [ reflexivity | exact Hat ].
    + apply Byte.eqb_false in Exy.
      cbn [firstn nth_error]. split; [ reflexivity | congruence ].
Qed.

Lemma firstn_empty (A : Type) (n : nat) (l : list A) :
  (1 <= n)%nat -> firstn n l = [] -> l = [].
Proof.
  intros Hn H. destruct n as [ | n ]; [ lia | ].
  destruct l; [ reflexivity | discriminate ].
Qed.

Lemma is_empty_nil (b : bytes) : is_empty b = true <-> b = [].
Proof. destruct b; split; try reflexivity; discriminate. Qed.

(** Chunk by chunk, the loop finds the end of the common prefix of what
    is left of the two files. *)
Lemma compare_from_chunks (chunk : Z) (fa fb : bytes) (offset : Z) :
  1 <= chunk <= alloc_max ->
  compare_from chunk fa fb offset
  = Ok (if bytes_eqb fa fb then None
        else Some (offset + Z.of_nat (common_prefix fa fb))).
Proof.
  intros Hchunk.
  remember (length fa) as n eqn:Hn. revert fa fb offset Hn.
  induction n as [n IH] using lt_wf_ind. intros fa fb offset Hn.
  rewrite compare_from_round, !read_chunk by exact Hchunk.
  assert (Hk : (1 <= Z.to_nat chunk)%nat) by lia.
  set (k := Z.to_nat chunk) in *.
  destruct (is_empty (firstn k fa) && is_empty (firstn k fb)) eqn:Eempty.
  - apply andb_prop in Eempty. destruct Eempty as [Ea Eb].
    apply is_empty_nil in Ea, Eb.
    apply (firstn_empty _ Hk) in Ea, Eb. subst fa fb. reflexivity.
  - destruct (bytes_eqb (firstn k fa) (firstn k fb)) eqn:Eeq.
    + apply bytes_eqb_eq in Eeq.
      assert (Hnonempty : firstn k fa <> []).
      { intros Ha. rewrite <- Eeq, Ha in Eempty. discriminate. }
      assert (Hshort : (length (skipn k fa) < n)%nat).
      { rewrite Hn, length_skipn.
        destruct fa as [ | x fa ]; [ rewrite firstn_nil in Hnonempty; contradiction | ].
        cbn [length]. lia. }
      rewrite (IH _ Hshort (skipn k fa) (skipn k fb) _ eq_refl).
      destruct (@common_prefix_split (firstn k fa) (skipn k fa) (skipn k fb) fa fb)
        as (Hcp & Hsame).
      { symmetry. apply firstn_skipn. }
      { rewrite Eeq. symmetry. apply firstn_skipn. }
      rewrite Hcp, Hsame. unfold len.
      destruct (bytes_eqb (skipn k fa) (skipn k fb)); [ reflexivity | ].
      do 2 f_equal. lia.
    + apply bytes_eqb_neq in Eeq.
      assert (Hne : bytes_eqb fa fb = false).
      { apply bytes_eqb_neq. intros H. apply Eeq. rewrite H. reflexivity. }
      rewrite Hne, scan_common_prefix, (@common_prefix_firstn k fa fb Eeq). reflexivity.
Qed.

(** With the two files read whole, the loop compares them at once. *)
Lemma compare_from_whole (fa fb : bytes) (offset : Z) :
  len fa <= alloc_max -> len fb <= alloc_max ->
  compare_from (-1) fa fb offset
  = Ok (if bytes_eqb fa fb then None
        else Some (offset + Z.of_nat (common_prefix fa fb))).
Proof.
  intros Ha Hb. pose proof alloc_max_range as [Hmin _].
  rewrite compare_from_round, !read_all by assumption.
  destruct (is_empty fa && is_empty fb) eqn:Eempty.
  - apply andb_prop in Eempty. destruct Eempty as [Ea Eb].
    apply is_empty_nil in Ea, Eb. subst fa fb. reflexivity.
  - destruct (bytes_eqb fa fb) eqn:Eeq.
    + rewrite compare_from_round, !read_all by (unfold len; cbn [length]; lia).
      reflexivity.
    + rewrite scan_common_prefix. reflexivity.
Qed.

End FileComparison.

(** X10.  With a chunk size that the platform can allocate and that makes
    the reads advance -- a positive one, or -1 with both files fitting in
    memory -- [first_diff_offset] never raises and does what its docstring
    says, whatever the chunk size: it returns [None] exactly when the two
    files are identical, and otherwise the offset of the first difference
    -- the files agree on all bytes before it and differ at it, the end of
    the shorter file counting as a difference. *)
Theorem first_diff_offset_finds_first_difference
  {M : Gui.PyMemory} {Mok : Gui.PyMemoryOk M} (a b : bytes) (chunk : Z) :
  1 <= chunk <= Gui.alloc_max
  \/ (chunk = -1 /\ len a <= Gui.alloc_max /\ len b <= Gui.alloc_max) ->
  exists r,
    Gui.first_diff_offset a b chunk = Ok r /\
    (r = None <-> a = b) /\
    (forall off, r = Some off ->
       0 <= off /\
       firstn (Z.to_nat off) a = firstn (Z.to_nat off) b /\
       nth_error a (Z.to_nat off) <> nth_error b (Z.to_nat off)).
Proof.
  intros Hchunk. unfold Gui.first_diff_offset.
  assert (Hrun : Gui.compare_from chunk a b 0
                 = Ok (if Gui.bytes_eqb a b then None
                       else Some (0 + Z.of_nat (Gui.common_prefix a b)))).
  { destruct Hchunk as [Hpos | (-> & Ha & Hb)].
    - exact (@compare_from_chunks M Mok chunk a b 0 Hpos).
    - exact (@compare_from_whole M Mok a b 0 Ha Hb). }
  rewrite Hrun.
  eexists. split; [ reflexivity | ].
  destruct (Gui.bytes_eqb a b) eqn:Eeq.
  - apply bytes_eqb_eq in Eeq. split.
    + split; [ intros _; exact Eeq | reflexivity ].
    + discriminate.
  - apply bytes_eqb_neq in Eeq. split.
    + split; [ discriminate | contradiction ].
    + intros off Hoff. injection Hoff as <-.
      split; [ lia | ].
      match goal with |- context [Z.to_nat ?z] =>
        replace (Z.to_nat z) with (Gui.common_prefix a b) by lia end.
      apply common_prefix_first_difference. exact Eeq.
Qed.

(** X11.  The other chunk sizes.  With a chunk size of 0 every read
    returns the empty bytes, so any two files are reported as identical.
    Any other chunk size outside the range above makes the first read
    raise: ValueError below -1, OverflowError when the size is no
    index-sized integer or more than a bytes object can hold, MemoryError
    when the buffer cannot be allocated. *)
Theorem first_diff_offset_degenerate_chunk
  {M : Gui.PyMemory} {Mok : Gui.PyMemoryOk M} (a b : bytes) :
  Gui.first_diff_offset a b 0 = Ok None /\
  (forall chunk,
     - Gui.SSIZE_MAX - 1 <= chunk < -1 ->
     Gui.first_diff_offset a b chunk = Raise ValueError) /\
  (forall chunk,
     chunk < - Gui.SSIZE_MAX - 1 \/ Gui.SSIZE_MAX - 33 < chunk ->
     Gui.first_diff_offset a b chunk = Raise OverflowError) /\
  (forall chunk,
     Gui.alloc_max < chunk <= Gui.SSIZE_MAX - 33 ->
     Gui.first_diff_offset a b chunk = Raise MemoryError).
Proof.
  pose proof Gui.alloc_max_range as [Hmin Hmax].
  unfold Gui.first_diff_offset.
  split; [ | split; [ | split ] ].
  - rewrite compare_from_round, !read_nothing. reflexivity.
  - intros chunk [Hlo Hhi]. rewrite compare_from_round.
    unfold Gui.read, Gui.read_error. unfold Gui.SSIZE_MAX in *.
    change (2 ^ 63 - 1) with 9223372036854775807 in *. cbn [Z.opp] in *.
    assert (H1 : (chunk <? - 9223372036854775807 - 1) = false) by (apply Z.ltb_ge; lia).
    assert (H2 : (9223372036854775807 <? chunk) = false) by (apply Z.ltb_ge; lia).
    assert (H3 : (chunk <? -1) = true) by (apply Z.ltb_lt; lia).
    rewrite H1, H2, H3. reflexivity.
  - intros chunk Hout. rewrite compare_from_round.
    unfold Gui.read, Gui.read_error. unfold Gui.SSIZE_MAX in *.
    change (2 ^ 63 - 1) with 9223372036854775807 in *. cbn [Z.opp] in *.
    destruct (Z.ltb_spec chunk (- 9223372036854775807 - 1)) as [Hlow | Hlow];
      [ reflexivity | ].
    destruct (Z.ltb_spec 9223372036854775807 chunk) as [Hhigh | Hhigh];
      [ reflexivity | ].
    cbn [orb].
    assert (H3 : (chunk <? -1) = false) by (apply Z.ltb_ge; lia).
    assert (H4 : (chunk =? -1) = false) by (apply Z.eqb_neq; lia).
    assert (H5 : (9223372036854775807 - 33 <? chunk) = true) by (apply Z.ltb_lt; lia).
    rewrite H3, H4, H5. reflexivity.
  - intros chunk [Hlo Hhi]. rewrite compare_from_round.
    unfold Gui.read, Gui.read_error. unfold Gui.SSIZE_MAX in *.
    change (2 ^ 63 - 1) with 9223372036854775807 in *. cbn [Z.opp] in *.
    assert (H1 : (chunk <? - 9223372036854775807 - 1) = false) by (apply Z.ltb_ge; lia).
    assert (H2 : (9223372036854775807 <? chunk) = false) by (apply Z.ltb_ge; lia).
    assert (H3 : (chunk <? -1) = false) by (apply Z.ltb_ge; lia).
    assert (H4 : (chunk =? -1) = false) by (apply Z.eqb_neq; lia).
    assert (H5 : (9223372036854775807 - 33 <? chunk) = false) by (apply Z.ltb_ge; lia).
    assert (H6 : (Gui.alloc_max <? chunk) = true) by (apply Z.ltb_lt; lia).
    rewrite H1, H2, H3, H4, H5, H6. reflexivity.
Qed.

(* ===================================================================== *)
(** * Further properties of the sender: what a wait returns, and when     *)
(* ===================================================================== *)

Section WaitResult.
Context {R : PyRandom}.
Import TxView TxClock.

Lemma latest_app (now : Z) (l1 l2 : list (Z * bytes)) :
  latest now (l1 ++ l2) = latest (latest now l1) l2.
Proof. apply fold_left_app. Qed.

Lemma latest_ge (l : list (Z * bytes)) (now : Z) : now <= latest now l.
Proof.
  revert now. induction l as [ | ad l IH ]; intros now; cbn [latest fold_left].
  - lia.
  - specialize (IH (Z.max now (fst ad))). unfold latest in IH. lia.
Qed.


End WaitResult.


(* ===================================================================== *)
(** * The file digest of the GUI                                          *)
(* ===================================================================== *)

Section FileHash.
Import Gui.
Context {M : PyMemory} {Mok : PyMemoryOk M} {H : PyHash} {Hok : PyHashOk H}.

(** One round of the loop. *)
Lemma hash_from_round (chunk : Z) (f : bytes) (h : hash_state) :
  hash_from chunk f h
  = match read chunk f with
    | Raise e => Raise e
    | Ok (b, f') => if is_empty b then Ok h else hash_from chunk f' (update h b)
    end.
Proof.
  funelim (hash_from chunk f h).
  all: repeat match goal with
       | E : read _ _ = _ |- _ => rewrite E
       | E : is_empty _ = _ |- _ => rewrite E
       end; reflexivity.
Qed.

(** Chunk by chunk, the loop feeds the hash object what is left of the
    file. *)
Lemma hash_from_chunks (chunk : Z) (f : bytes) (h : hash_state) :
  1 <= chunk <= alloc_max ->
  hash_from chunk f h = Ok (if is_empty f then h else update h f).
Proof.
  intros Hchunk.
  remember (length f) as n eqn:Hn. revert f h Hn.
  induction n as [n IH] using lt_wf_ind. intros f h Hn.
  rewrite hash_from_round, read_chunk by exact Hchunk.
  assert (Hk : (1 <= Z.to_nat chunk)%nat) by lia.
  set (k := Z.to_nat chunk) in *.
  destruct (is_empty (firstn k f)) eqn:Eb.
  - apply is_empty_nil in Eb. apply (firstn_empty _ Hk) in Eb. subst f. reflexivity.
  - assert (Hf : is_empty f = false).
    { destruct f; [ rewrite firstn_nil in Eb; discriminate | reflexivity ]. }
    rewrite Hf.
    assert (Hshort : (length (skipn k f) < n)%nat).
    { rewrite Hn, length_skipn. destruct f; [ discriminate | cbn [length]; lia ]. }
    rewrite (IH _ Hshort (skipn k f) _ eq_refl).
    destruct (is_empty (skipn k f)) eqn:Erest.
    + apply is_empty_nil in Erest.
      pose proof (firstn_skipn k f) as Hsplit.
      rewrite Erest, app_nil_r in Hsplit. rewrite Hsplit. reflexivity.
    + rewrite update_update, firstn_skipn. reflexivity.
Qed.

(** With the file read whole, the hash object is fed it at once. *)
Lemma hash_from_whole (f : bytes) (h : hash_state) :
  len f <= alloc_max ->
  hash_from (-1) f h = Ok (if is_empty f then h else update h f).
Proof.
  intros Hf. pose proof alloc_max_range as [Hmin _].
  rewrite hash_from_round, read_all by assumption.
  destruct (is_empty f) eqn:Ef; [ reflexivity | ].
  rewrite hash_from_round, read_all by (unfold len; cbn [length]; lia).
  reflexivity.
Qed.

End FileHash.

(** X12.  [sha256_of_file] hashes the file and nothing else.  With a
    chunk size that the platform can allocate and that makes the reads
    advance (a positive one, or -1 with the file fitting in memory) it
    never raises and the hash object is fed the whole content, whatever
    the chunk size: the digest is that of one [update] with the content
    (of no [update] at all for an empty file).  With a chunk size of 0 the
    first read is empty and the digest is that of the empty input,
    whatever the file holds. *)
Theorem sha256_of_file_hashes_the_content
  {M : Gui.PyMemory} {Mok : Gui.PyMemoryOk M} {H : Gui.PyHash} {Hok : Gui.PyHashOk H}
  (content : bytes) :
  (forall chunk,
     1 <= chunk <= Gui.alloc_max \/ (chunk = -1 /\ len content <= Gui.alloc_max) ->
     Gui.sha256_of_file content chunk
     = Ok (Gui.hexdigest (if Gui.is_empty content then Gui.sha256
                          else Gui.update Gui.sha256 content))) /\
  Gui.sha256_of_file content 0 = Ok (Gui.hexdigest Gui.sha256).
Proof.
  split.
  - intros chunk Hchunk. unfold Gui.sha256_of_file.
    destruct Hchunk as [Hpos | (-> & Hfits)].
    + rewrite (@hash_from_chunks M Mok H Hok chunk content Gui.sha256 Hpos). reflexivity.
    + rewrite (@hash_from_whole M Mok H content Gui.sha256 Hfits). reflexivity.
  - unfold Gui.sha256_of_file. rewrite hash_from_round, read_nothing. reflexivity.
Qed.

(* ===================================================================== *)
(** * Further properties of the sender: success is decided by Acks alone  *)
(* ===================================================================== *)

Section SuccessWithoutSend.
Context {R : PyRandom} {Rok : PyRandomOk R}.
Variable cfg : Tx.config.



End SuccessWithoutSend.


(* ===================================================================== *)
(** * The theorems on concrete runs                                       *)
(* ===================================================================== *)

Unset Implicit Arguments.

(** The demonstration generator respects the documented ranges. *)
Lemma cyclic_ok : PyRandomOk Demo.cyclic.
Proof.
  constructor.
  - intros s. cbn [random Demo.cyclic fst].
    destruct (Z.to_nat (s mod 4)) as [ | [ | [ | [ | [ | n ] ] ] ] ]; reflexivity.
  - intros s. cbn [random Demo.cyclic fst].
    destruct (Z.to_nat (s mod 4)) as [ | [ | [ | [ | [ | n ] ] ] ] ]; reflexivity.
  - intros a b s Hab. cbn [randint Demo.cyclic fst].
    pose proof (Z.mod_pos_bound s (b - a + 1)). lia.
Qed.

Lemma make_packet_spec_witness :
  exists first,
    Tx.make_packet (-1) (Demo.file 31) = Ok (first :: Demo.file 31) /\
    byte.unsigned first = (-1) mod 256 /\
    length (first :: Demo.file 31) = 32%nat.
Proof.
  apply (proj2 (make_packet_spec (-1) (Demo.file 31))).
  reflexivity.
Defined.

Lemma data_for_file_chunks_witness :
  exists chunks,
    Tx.data_for_file (Demo.file 50) = Ok chunks /\
    length chunks = 2%nat /\
    Forall (fun chunk => length chunk = 31%nat) chunks.
Proof.
  destruct (data_for_file_chunks (Demo.file 50)) as (chunks & Hrun & Hn & Hall & _).
  - vm_compute. reflexivity.
  - exists chunks. split; [ exact Hrun | ]. split; [ exact Hn | exact Hall ].
Defined.

Lemma bounded_retries_then_stop_witness :
  exists w',
    @Tx.main_loop Demo.cyclic Demo.tx_all_lost
      [repeat Byte.x00 31; repeat Byte.x01 31] 0 0 0
      (Tx.initial 12 [(100, Demo.ack 1 0); (200, Demo.ack 0 2)])
    = (Ok (1, 0), w').
Proof.
  destruct (@bounded_retries_then_stop Demo.cyclic cyclic_ok Demo.tx_all_lost
              (repeat Byte.x00 31) [repeat Byte.x01 31] 0 0 0
              (Tx.initial 12 [(100, Demo.ack 1 0); (200, Demo.ack 0 2)]))
    as (pck & _ & _ & (w' & new & Hrun & _)).
  - reflexivity.
  - cbn. lia.
  - reflexivity.
  - repeat constructor.
  - exists w'. exact Hrun.
Defined.

Lemma mismatched_ack_restarts_wait_witness :
  @Tx.wait_for_ack Demo.cyclic Demo.tx_all_lost 0
    (Tx.initial 12 [(900, Demo.ack 1 0)])
  = (Ok None, @World Demo.cyclic _ _ 1900 12 [] tt []).
Proof.
  apply (@mismatched_ack_restarts_wait Demo.cyclic Demo.tx_all_lost 0 900
           (Demo.ack 1 0) [] (Tx.initial 12 [(900, Demo.ack 1 0)])).
  - cbn. lia.
  - reflexivity.
  - cbn. lia.
  - reflexivity.
  - cbn. discriminate.
  - reflexivity.
Defined.

Lemma sequence_numbers_alternate_witness :
  exists arrival dgram,
    In (arrival, dgram) [(350, Demo.ack 0 0)] /\ TxView.confirming 0 dgram = true.
Proof.
  apply (proj2 (@sequence_numbers_alternate Demo.cyclic Demo.tx_lossless 12
                  (Demo.file 5) [(350, Demo.ack 0 0)])
           0 Demo.packet0 (Tx.initial 12 [(350, Demo.ack 0 0)])
           (@World Demo.cyclic _ _ 350 14 [] tt
              [Tx.EvSendto 0 1 313 Demo.packet0; Tx.EvDelivered 0 1])).
  vm_compute. reflexivity.
Defined.

Lemma bad_length_never_mutates_witness :
  vars (snd (@Rx.receive_one Demo.cyclic Demo.rx_lossless 25 [Byte.x07] []
               (Rx.initial 12 [(25, [Byte.x07])])))
  = Rx.initial_state.
Proof.
  refine (proj1 (@bad_length_never_mutates Demo.cyclic Demo.rx_lossless 25 [Byte.x07] []
                   (Rx.initial 12 [(25, [Byte.x07])]) _ _ _ (surjective_pairing _))).
  cbn. discriminate.
Defined.


(** The demonstration world is one the loop reaches: the first iteration
    ended with its Ack dropped. *)
Lemma rx_after_drop_running : running Demo.rx_lossy Demo.rx_after_drop.
Proof.
  unfold Demo.rx_after_drop.
  assert (Hfirst :
    fst (@Rx.receive_one Demo.cyclic Demo.rx_lossy 10 Demo.packet0 [(20, Demo.packet0)]
           (Rx.initial 13 [(10, Demo.packet0); (20, Demo.packet0)]))
    = Ok Rx.Continue) by (vm_compute; reflexivity).
  destruct (@Rx.receive_one Demo.cyclic Demo.rx_lossy 10 Demo.packet0 [(20, Demo.packet0)]
              (Rx.initial 13 [(10, Demo.packet0); (20, Demo.packet0)]))
    as [r w1] eqn:Hrun.
  cbn [fst snd] in *. subst r.
  exact (@running_continue Demo.cyclic Demo.rx_lossy _ _ _ _ _
           (running_initial Demo.rx_lossy 13 [(10, Demo.packet0); (20, Demo.packet0)])
           eq_refl Hrun).
Qed.

Lemma session_invariant_witness :
  RxView.within_total (vars Demo.rx_after_drop).
Proof.
  exact (proj1 (proj2 (@session_invariant Demo.cyclic Demo.rx_lossy)
                  Demo.rx_after_drop rx_after_drop_running)).
Defined.

Lemma loop_ends_only_on_sent_final_ack_witness :
  exists seq,
    RxView.completes (log Demo.rx_after_drop) = [seq] /\
    forall arrival dgram later r w',
      length dgram = 32%nat ->
      item 0 dgram = seq ->
      @Rx.receive_one Demo.cyclic Demo.rx_lossy arrival dgram later Demo.rx_after_drop
      = (r, w') ->
      vars w' = vars Demo.rx_after_drop /\
      exists o,
        log w' = log Demo.rx_after_drop
                 ++ [Rx.EvDuplicate seq; Rx.EvAck [byte_of seq; byte_of 1]]
                 ++ RxView.reply_events [byte_of seq; byte_of 1] o /\
        r = match o with
            | RxView.Dropped => Ok Rx.Continue
            | RxView.Sent _ => Ok Rx.Break
            | RxView.Crashed e => Raise e
            end.
Proof.
  refine (proj2 (proj2 (@loop_ends_only_on_sent_final_ack Demo.cyclic Demo.rx_lossy))
            Demo.rx_after_drop rx_after_drop_running _).
  exists 5. split; vm_compute; [ reflexivity | discriminate ].
Defined.

Lemma decisions_are_a_function_of_the_seed_witness :
  RxView.decisions
    (log (snd (@Rx.main Demo.cyclic Demo.rx_lossy 13
                 [(10, Demo.packet0); (15, [Byte.x07]); (20, Demo.packet0)])))
  = [Suppress; Deliver 40; Deliver 26].
Proof.
  rewrite (proj1 (proj2 (@decisions_are_a_function_of_the_seed Demo.cyclic cyclic_ok))
             Demo.rx_lossy 13
             [(10, Demo.packet0); (15, [Byte.x07]); (20, Demo.packet0)] eq_refl).
  vm_compute. reflexivity.
Defined.

Lemma chunks_carry_the_stream_witness :
  exists first later,
    Tx.data_for_file (Demo.file 50) = Ok (first :: later) /\
    le_combine (firstn 4 first) = Z.of_nat (length (Demo.file 50)) /\
    firstn (length (Demo.file 50)) (skipn 4 (concat (first :: later))) = Demo.file 50.
Proof.
  apply (chunks_carry_the_stream (Demo.file 50)).
  vm_compute. reflexivity.
Defined.

Lemma bytes_written_counts_the_output_witness :
  exists more,
    Rx.out_f (vars (snd (@Rx.receive_one Demo.cyclic Demo.rx_lossless 10 Demo.packet0 []
                           (Rx.initial 12 [(10, Demo.packet0)]))))
    = Rx.out_f (vars (@Rx.initial Demo.cyclic 12 [(10, Demo.packet0)])) ++ more /\
    Rx.bytes_written
      (vars (snd (@Rx.receive_one Demo.cyclic Demo.rx_lossless 10 Demo.packet0 []
                    (Rx.initial 12 [(10, Demo.packet0)]))))
    = Rx.bytes_written (vars (@Rx.initial Demo.cyclic 12 [(10, Demo.packet0)])) + len more.
Proof.
  exact (proj1 (@bytes_written_counts_the_output Demo.cyclic Demo.rx_lossless)
           10 Demo.packet0 [] (Rx.initial 12 [(10, Demo.packet0)]) _ _
           (surjective_pairing _)).
Defined.

Lemma rx_after_drop_complete : RxView.data_complete (vars Demo.rx_after_drop).
Proof. exists 5. split; vm_compute; [ reflexivity | discriminate ]. Qed.

Lemma new_packet_after_completion_raises_witness :
  exists w',
    @Rx.receive_one Demo.cyclic Demo.rx_lossy 20 Sample.packet1 [] Demo.rx_after_drop
    = (Raise ValueError, w') /\
    Rx.last_delivered_pck_num (vars w') = Some 1.
Proof.
  destruct (@new_packet_after_completion_raises Demo.cyclic Demo.rx_lossy
              Demo.rx_after_drop 20 Sample.packet1 []
              rx_after_drop_running rx_after_drop_complete)
    as (w' & Hrun & Hlast & _).
  - reflexivity.
  - vm_compute. discriminate.
  - exists w'. split; [ exact Hrun | exact Hlast ].
Defined.


Lemma receiver_rebuilds_the_stream_witness :
  Rx.out_f (vars (snd (@Rx.main Demo.cyclic Demo.rx_lossless 12 Sample.arrivals50)))
  = Demo.file 50.
Proof.
  refine (proj1 (proj2
    (@receiver_rebuilds_the_stream Demo.cyclic Demo.rx_lossless 12 (Demo.file 50)
       Sample.chunks50 Sample.arrivals50 [] _ _ _ _ (surjective_pairing _))) _).
  - vm_compute. reflexivity.
  - vm_compute.
    apply Wire.in_order_next.
    apply Wire.in_order_stray; [ cbn; discriminate | ].
    apply Wire.in_order_again.
    apply Wire.in_order_next.
    apply Wire.in_order_end.
  - vm_compute. reflexivity.
Defined.

Lemma attempts_are_numbered_and_bounded_witness :
  exists new k j,
    log (snd (@Tx.send_with_retries Demo.cyclic Demo.tx_lossless 0 Demo.packet0
                (Tx.initial 12 [(350, Demo.ack 0 0)])))
    = log (@Tx.initial Demo.cyclic 12 [(350, Demo.ack 0 0)]) ++ new /\
    TxTrace.attempts new = range 1 (Z.of_nat k + 1) /\
    Z.of_nat k <= Z.max 0 (Tx.MAX_RETRIES Demo.tx_lossless) /\
    TxTrace.wire new = repeat Demo.packet0 j /\
    (j <= k)%nat.
Proof.
  destruct (@attempts_are_numbered_and_bounded Demo.cyclic Demo.tx_lossless 0 Demo.packet0
              (Tx.initial 12 [(350, Demo.ack 0 0)]) _ _ (surjective_pairing _))
    as (new & k & j & Hlog & Hatt & Hk & Hwire & Hj & _).
  exists new, k, j. repeat split; assumption.
Defined.

Lemma sender_traffic_witness :
  exists ks : list nat,
    (length ks <= length Sample.chunks50)%nat /\
    TxTrace.built
      (log (snd (@Tx.main Demo.cyclic Demo.tx_lossless 12 (Demo.file 50)
                   [(350, Demo.ack 0 0)])))
    = firstn (length ks) Sample.packets50.
Proof.
  assert (Hchunks : Tx.data_for_file (Demo.file 50) = Ok Sample.chunks50)
    by (vm_compute; reflexivity).
  destruct (@sender_traffic Demo.cyclic Demo.tx_lossless 12 (Demo.file 50)
              [(350, Demo.ack 0 0)] Sample.chunks50 _ _ Hchunks (surjective_pairing _))
    as (ks & Hlen & Hbuilt & _).
  exists ks. split; [ exact Hlen | exact Hbuilt ].
Defined.


Lemma acks_mean_the_same_to_both_witness :
  exists new,
    log (snd (@Rx.receive_one Demo.cyclic Demo.rx_lossless 10 Demo.packet0 []
                (Rx.initial 12 [(10, Demo.packet0)])))
    = log (@Rx.initial Demo.cyclic 12 [(10, Demo.packet0)]) ++ new /\
    forall a d, In (Rx.EvAckSent a d) new ->
      TxView.confirming 0 a = true.
Proof.
  destruct (@acks_mean_the_same_to_both Demo.cyclic Demo.rx_lossless 10 Demo.packet0 []
              (Rx.initial 12 [(10, Demo.packet0)]) _ _ (surjective_pairing _))
    as (new & Hlog & Hsent).
  exists new. split; [ exact Hlog | ].
  intros a d Hin.
  apply (proj1 (Hsent a d Hin) 0 (skipn 1 Demo.packet0)).
  reflexivity.
Defined.

(** The demonstration platform respects the bound on allocations. *)
Lemma memory_ok : Gui.PyMemoryOk Sample.memory.
Proof. constructor. vm_compute. split; discriminate. Qed.

Lemma first_diff_offset_finds_first_difference_witness :
  exists r,
    @Gui.first_diff_offset Sample.memory (Demo.file 50) (Demo.file 40) 16 = Ok r /\
    (r = None <-> Demo.file 50 = Demo.file 40).
Proof.
  destruct (@first_diff_offset_finds_first_difference Sample.memory memory_ok
              (Demo.file 50) (Demo.file 40) 16)
    as (r & Hrun & Hnone & _).
  - left. cbn. lia.
  - exists r. split; [ exact Hrun | exact Hnone ].
Defined.

Lemma first_diff_offset_degenerate_chunk_witness :
  @Gui.first_diff_offset Sample.memory (Demo.file 5) (Demo.file 7) (-2)
  = Raise ValueError /\
  @Gui.first_diff_offset Sample.memory (Demo.file 5) (Demo.file 7) (2 ^ 63)
  = Raise OverflowError /\
  @Gui.first_diff_offset Sample.memory (Demo.file 5) (Demo.file 7) (2 ^ 40)
  = Raise MemoryError.
Proof.
  destruct (@first_diff_offset_degenerate_chunk Sample.memory memory_ok
              (Demo.file 5) (Demo.file 7))
    as (_ & Hvalue & Hoverflow & Hmemory).
  split; [ | split ].
  - apply Hvalue. vm_compute. split; [ discriminate | reflexivity ].
  - apply Hoverflow. right. vm_compute. reflexivity.
  - apply Hmemory. vm_compute. split; [ reflexivity | discriminate ].
Defined.

(** The demonstration hash object respects the documented law. *)
Lemma keep_all_ok : Gui.PyHashOk Sample.keep_all.
Proof. constructor. intros h a b. symmetry. apply app_assoc. Qed.

Lemma sha256_of_file_hashes_the_content_witness :
  @Gui.sha256_of_file Sample.memory Sample.keep_all (Demo.file 50) 16
  = Ok (@Gui.hexdigest Sample.keep_all
          (if Gui.is_empty (Demo.file 50) then @Gui.sha256 Sample.keep_all
           else @Gui.update Sample.keep_all (@Gui.sha256 Sample.keep_all) (Demo.file 50))).
Proof.
  apply (proj1 (@sha256_of_file_hashes_the_content Sample.memory memory_ok
                  Sample.keep_all keep_all_ok (Demo.file 50)) 16).
  left. cbn. lia.
Defined.



(** C2 fails as it is stated.  Both senders below drop every Data send
    ([LOSS_DATA_PROB] is 1) and have [MAX_RETRIES] 3.  With a DUPLICATE Ack
    for packet 0 reaching the Ack socket 900 ms into the first wait,
    [send_with_retries] returns success after a single attempt.  With a
    timeout of 0 ms and nothing on the Ack socket, the first [recvfrom]
    raises BlockingIOError, which nothing catches: a single attempt again,
    and no failure is reported. *)
Lemma all_dropped_but_not_max_retries :
  Tx.LOSS_DATA_PROB Demo.tx_all_lost = 1%float /\
  Tx.MAX_RETRIES Demo.tx_all_lost = 3 /\
  (let run := @Tx.send_with_retries Demo.cyclic Demo.tx_all_lost 0 Demo.packet0
                (Tx.initial 12 [(900, Demo.ack 0 1)]) in
   fst run = Ok true /\
   log (snd run) = [Tx.EvDropped 0 1; Tx.EvDuplicate 0]) /\
  Tx.LOSS_DATA_PROB Sample.tx_no_wait = 1%float /\
  Tx.MAX_RETRIES Sample.tx_no_wait = 3 /\
  (let run := @Tx.send_with_retries Demo.cyclic Sample.tx_no_wait 0 Demo.packet0
                (Tx.initial 12 []) in
   fst run = Raise BlockingIOError /\
   log (snd run) = [Tx.EvDropped 0 1]).
Proof. repeat split; vm_compute; reflexivity. Qed.

(** C8, where the code departs from it.  The receiver below drops every
    Ack ([--loss-ack 1]).  It is sent the single packet of a 5-byte file
    and then a 32-byte datagram under sequence number 1.  The first
    completes the data and closes the output file; its OK Ack is dropped,
    so the loop goes on.  The second is not a retransmission: it is taken
    as a new packet, and writing it to the closed file raises ValueError,
    which nothing catches.  The loop has ended with the data complete and
    without any Ack having been sent. *)
Lemma final_ack_dropped_then_crash :
  let run := @Rx.main Demo.cyclic Sample.rx_all_lost 13
               [(10, Demo.packet0); (20, Sample.packet1)] in
  fst run = Raise ValueError /\
  RxView.data_complete (vars (snd run)) /\
  log (snd run)
  = [Rx.EvAccepted 0 5; Rx.EvComplete 0;
     Rx.EvAck (Demo.ack 0 0); Rx.EvAckDropped (Demo.ack 0 0)].
Proof.
  cbv zeta. split; [ vm_compute; reflexivity | ].
  split; [ | vm_compute; reflexivity ].
  exists 5. split; [ vm_compute; reflexivity | vm_compute; discriminate ].
Qed.
